(** * NextDNS profile tools: a shallow embedding of the core library

    The development follows [core/sync-lists.ts], [core/manage-domain.ts],
    [core/copy-profile.ts] and [core/diff-profiles.ts].

    Modelling conventions.
    - A JavaScript value received from the vendor API is a [JsVal]: the JSON
      constructors plus [JUndefined], the result of reading a missing
      property.  Numbers are integers ([Z]); fractions, NaN and -0 are not
      represented.  Strings are sequences of 8-bit characters compared by
      character code.
    - A plain object used as a dictionary is a [JsObject.t]: its own
      enumerable string-keyed properties in the order [Object.keys] lists
      them (array-index keys ascending first, then the other keys in
      insertion order).  Properties inherited from [Object.prototype]
      (keys such as "constructor") are outside the model.
    - An awaited remote call is a function of an explicit world; a thrown
      [Error] is the [Throw] result carrying its message.  Callbacks and
      [console.error] append to an event log; [sleep] is not modelled. *)

From Stdlib Require Import List String Ascii Bool Arith ZArith NArith Lia.
From Stdlib Require Import Permutation Sorted DecimalString.
From Stdlib Require QArith OrdersEx.
Import ListNotations.
Local Open Scope string_scope.
Local Open Scope list_scope.

Set Implicit Arguments.
Set Warnings "-register-all".

(* ------------------------------------------------------------------ *)
(** ** Own properties of a JavaScript object, in enumeration order     *)
(* ------------------------------------------------------------------ *)

Module JsObject.

Definition digit_of (c : ascii) : option N :=
let n := N_of_ascii c in
if (48 <=? n)%N && (n <=? 57)%N then Some (n - 48)%N else None.

Fixpoint digits_value (acc : N) (s : string) : option N :=
match s with
| EmptyString => Some acc
| String c r =>
    match digit_of c with
    | Some d => digits_value (acc * 10 + d)%N r
    | None => None
    end
end.

(** ECMAScript "array index": a canonical numeric string below 2^32-1. *)
Definition array_index (s : string) : option N :=
match s with
| EmptyString => None
| String "0"%char EmptyString => Some 0%N
| String "0"%char _ => None
| _ =>
    match digits_value 0 s with
    | Some n => if (n <? 4294967295)%N then Some n else None
    | None => None
    end
end.

Section Props.
Variable V : Type.

Definition t := list (string * V).

Definition empty : t := [].

Fixpoint get (k : string) (o : t) : option V :=
  match o with
  | [] => None
  | (k', v) :: r => if String.eqb k k' then Some v else get k r
  end.

Definition has (k : string) (o : t) : bool :=
  match get k o with Some _ => true | None => false end.

(** [Object.keys], [Object.values], [Object.entries]. *)
Definition keys (o : t) : list string := map fst o.
Definition values (o : t) : list V := map snd o.
Definition entries (o : t) : list (string * V) := o.

(** In-place change of the value stored under an existing key. *)
Fixpoint update (k : string) (f : V -> V) (o : t) : t :=
  match o with
  | [] => []
  | (k', v) :: r =>
      if String.eqb k k' then (k', f v) :: r else (k', v) :: update k f r
  end.

(** Position of a new array-index key: after the smaller indices. *)
Fixpoint insert_index (n : N) (k : string) (v : V) (o : t) : t :=
  match o with
  | [] => [(k, v)]
  | (k', v') :: r =>
      match array_index k' with
      | Some m =>
          if (m <? n)%N then (k', v') :: insert_index n k v r
          else (k, v) :: o
      | None => (k, v) :: o
      end
  end.

(** [o[k] = v]. *)
Definition set (k : string) (v : V) (o : t) : t :=
  if has k o then update k (fun _ => v) o
  else match array_index k with
       | Some n => insert_index n k v o
       | None => o ++ [(k, v)]
       end.

(** [Object.fromEntries]. *)
Definition fromEntries (es : list (string * V)) : t :=
  fold_left (fun o e => set (fst e) (snd e) o) es empty.

Definition wf (o : t) : Prop := NoDup (keys o).

End Props.

Arguments empty {V}.

End JsObject.

Definition JsObj (V : Type) : Type := JsObject.t V.

(* ------------------------------------------------------------------ *)
(** ** JavaScript values                                               *)
(* ------------------------------------------------------------------ *)

Inductive JsVal : Type :=
| JUndefined
| JNull
| JBool (b : bool)
| JNum (z : Z)
| JStr (s : string)
| JArr (items : list JsVal)
| JObj (props : list (string * JsVal)).

(** ToBoolean. *)
Definition truthy (v : JsVal) : bool :=
  match v with
  | JUndefined | JNull => false
  | JBool b => b
  | JNum z => negb (z =? 0)%Z
  | JStr s => negb (String.eqb s EmptyString)
  | JArr _ | JObj _ => true
  end.

Definition is_nullish (v : JsVal) : bool :=
  match v with JUndefined | JNull => true | _ => false end.

(** [a || b] and [a ?? b]. *)
Definition js_or (a b : JsVal) : JsVal := if truthy a then a else b.
Definition js_nullish (a b : JsVal) : JsVal := if is_nullish a then b else a.

(** Reading a property of a dictionary: [o[k]], [undefined] when absent. *)
Definition prop_of (k : string) (o : JsObj JsVal) : JsVal :=
match JsObject.get k o with Some v => v | None => JUndefined end.

Definition is_undefined (v : JsVal) : bool :=
match v with JUndefined => true | _ => false end.

(** [v === b] for a boolean [b]. *)
Definition strict_eq_bool (v : JsVal) (b : bool) : bool :=
match v with JBool b' => Bool.eqb b' b | _ => false end.

(* ------------------------------------------------------------------ *)
(** ** core/types.ts                                                   *)
(* ------------------------------------------------------------------ *)

Inductive ListType := allowlist | denylist.

Inductive DomainAction := add | remove | enable | disable.

Record Profile := { id : string; name : string }.

Inductive OpType := op_add | op_update.

Record SyncOperation := {
  type : OpType;
  profileId : string;
  profileName : JsVal;
  domain : string;
  shouldBeActive : bool;
  listType : ListType
}.

Record OperationResult := {
  or_profileId : string;
  or_profileName : string;
  or_success : bool;
  or_error : option string
}.

(* ------------------------------------------------------------------ *)
(** ** core/sync-lists.ts: the consensus engine                        *)
(* ------------------------------------------------------------------ *)

Record ProfileListData := {
  pld_name : JsVal;
  pld_denylist : JsObj JsVal;
  pld_allowlist : JsObj JsVal
}.

(** [pdata[listType]]. *)
Definition list_of (lt : ListType) (pdata : ProfileListData) : JsObj JsVal :=
match lt with
| denylist => pld_denylist pdata
| allowlist => pld_allowlist pdata
end.

Record Counts := { enabled : nat; disabled : nat }.

(** Body of the inner loop of [getCanonicalDomains]. *)
Definition countDomain (domainStates : JsObj Counts) (e : string * JsVal)
  : JsObj Counts :=
let ds :=
  if JsObject.has (fst e) domainStates then domainStates
  else JsObject.set (fst e) {| enabled := 0; disabled := 0 |} domainStates in
JsObject.update (fst e)
  (fun c => if truthy (snd e)
            then {| enabled := S (enabled c); disabled := disabled c |}
            else {| enabled := enabled c; disabled := S (disabled c) |})
  ds.

Definition domainStates_of (allData : JsObj ProfileListData) (lt : ListType)
  : JsObj Counts :=
fold_left
  (fun ds pdata => fold_left countDomain (JsObject.entries (list_of lt pdata)) ds)
  (JsObject.values allData) JsObject.empty.

Definition getCanonicalDomains (allData : JsObj ProfileListData) (lt : ListType)
  : JsObj bool :=
fold_left
  (fun canonical e =>
     JsObject.set (fst e) (Nat.leb (disabled (snd e)) (enabled (snd e))) canonical)
  (JsObject.entries (domainStates_of allData lt)) JsObject.empty.

Record SyncPlan := { toAdd : list SyncOperation; toUpdate : list SyncOperation }.

(** The operation pushed for profile entry [e] and domain [dom]. *)
Definition operation (ty : OpType) (lt : ListType) (dom : string)
  (should : bool) (e : string * ProfileListData) : SyncOperation :=
{| type := ty; profileId := fst e; profileName := pld_name (snd e);
   domain := dom; shouldBeActive := should; listType := lt |}.

(** Body of the inner loop of [calculateSyncOperations]. *)
Definition planProfile (lt : ListType) (dom : string) (should : bool)
  (acc : SyncPlan) (e : string * ProfileListData) : SyncPlan :=
let currentState := prop_of dom (list_of lt (snd e)) in
if is_undefined currentState then
  {| toAdd := toAdd acc ++ [operation op_add lt dom should e];
     toUpdate := toUpdate acc |}
else if negb (strict_eq_bool currentState should) then
  {| toAdd := toAdd acc;
     toUpdate := toUpdate acc ++ [operation op_update lt dom should e] |}
else acc.

Definition calculateSyncOperations (allData : JsObj ProfileListData)
  (canonical : JsObj bool) (lt : ListType) : SyncPlan :=
fold_left
  (fun acc d =>
     fold_left (planProfile lt (fst d) (snd d)) (JsObject.entries allData) acc)
  (JsObject.entries canonical) {| toAdd := []; toUpdate := [] |}.

(** The scenario of the test suite: three profiles. *)
Definition scenario_P1 : ProfileListData :=
{| pld_name := JStr "one";
   pld_denylist := [("a.com", JBool true); ("b.com", JBool false)];
   pld_allowlist := [] |}.

Definition scenario_P2 : ProfileListData :=
{| pld_name := JStr "two";
   pld_denylist := [("a.com", JBool true); ("b.com", JBool false)];
   pld_allowlist := [] |}.

Definition scenario_P3 : ProfileListData :=
{| pld_name := JStr "three";
   pld_denylist := [("a.com", JBool false); ("c.com", JBool true)];
   pld_allowlist := [] |}.

Definition scenario_data : JsObj ProfileListData :=
[ ("P1", scenario_P1); ("P2", scenario_P2); ("P3", scenario_P3) ].

(** Two profiles that already agree. *)
Definition synced_data : JsObj ProfileListData :=
[ ("P1", {| pld_name := JStr "one";
            pld_denylist := [("a.com", JBool true)]; pld_allowlist := [] |});
  ("P2", {| pld_name := JStr "two";
            pld_denylist := [("a.com", JBool true)]; pld_allowlist := [] |}) ].

(** Vocabulary of the consensus claims: the number of profiles whose list
    holds [dom] with a flag satisfying [pred], and whether any profile holds
    [dom] at all. *)
Definition votes (pred : JsVal -> bool) (dom : string) (lt : ListType)
  (allData : JsObj ProfileListData) : nat :=
List.length
  (filter
     (fun pdata =>
        match JsObject.get dom (list_of lt pdata) with
        | Some v => pred v
        | None => false
        end)
     (JsObject.values allData)).

Definition enabledCount := votes truthy.
Definition disabledCount := votes (fun v => negb (truthy v)).

(** Operations contributed by one (domain, profile) pair. *)
Definition addsOf (lt : ListType) (dom : string) (should : bool)
  (e : string * ProfileListData) : list SyncOperation :=
if is_undefined (prop_of dom (list_of lt (snd e)))
then [operation op_add lt dom should e] else [].

Definition updatesOf (lt : ListType) (dom : string) (should : bool)
  (e : string * ProfileListData) : list SyncOperation :=
if is_undefined (prop_of dom (list_of lt (snd e))) then []
else if negb (strict_eq_bool (prop_of dom (list_of lt (snd e))) should)
     then [operation op_update lt dom should e] else [].

(** An operation is aimed at the pair (profile [pid], domain [dom]). *)
Definition aimed_at (pid dom : string) (op : SyncOperation) : Prop :=
profileId op = pid /\ domain op = dom.

(** A list with its later duplicates removed. *)
Fixpoint first_seen (l : list string) : list string :=
match l with
| [] => []
| x :: r => x :: filter (fun y => negb (String.eqb y x)) (first_seen r)
end.

Fixpoint sorted_strings (l : list string) : bool :=
match l with
| [] => true
| x :: r =>
    match r with
    | [] => true
    | y :: _ => String.leb x y && sorted_strings r
    end
end.

(** Inputs used to exercise the consensus engine. *)
Definition tie_data : JsObj ProfileListData :=
[ ("P1", {| pld_name := JStr "one";
            pld_denylist := [("x.com", JBool true)]; pld_allowlist := [] |});
  ("P2", {| pld_name := JStr "two";
            pld_denylist := [("x.com", JBool false)]; pld_allowlist := [] |}) ].

Definition unsorted_data : JsObj ProfileListData :=
[ ("P1", {| pld_name := JStr "one";
            pld_denylist := [("b.com", JBool true); ("a.com", JBool true)];
            pld_allowlist := [] |});
  ("P2", {| pld_name := JStr "two";
            pld_denylist := []; pld_allowlist := [] |}) ].

(* ------------------------------------------------------------------ *)
(** ** Strings                                                         *)
(* ------------------------------------------------------------------ *)

(** [hay.includes(needle)]. *)
Fixpoint includes (needle hay : string) : bool :=
match hay with
| EmptyString => String.prefix needle EmptyString
| String _ r => String.prefix needle hay || includes needle r
end.

(** [toLowerCase] on the letters A-Z; other characters are kept. *)
Definition lower_char (c : ascii) : ascii :=
let n := nat_of_ascii c in
if (65 <=? n)%nat && (n <=? 90)%nat then ascii_of_nat (n + 32) else c.

Fixpoint toLowerCase (s : string) : string :=
match s with
| EmptyString => EmptyString
| String c r => String (lower_char c) (toLowerCase r)
end.

(** [parts.join(sep)] for an array of strings. *)
Fixpoint join (sep : string) (parts : list string) : string :=
match parts with
| [] => EmptyString
| [x] => x
| x :: r => x ++ sep ++ join sep r
end.

(* ------------------------------------------------------------------ *)
(** ** Awaited calls, exceptions and callbacks                         *)
(* ------------------------------------------------------------------ *)

Inductive Result (A : Type) : Type :=
| Ok (a : A)
| Throw (message : string).

Arguments Throw {A} message.

Inductive Event : Type :=
| ConsoleError (text : string)
| StepStart (step : string)
| StepComplete (step : string) (success : bool) (message : string)
| Warning (warnings : list string)
| Progress (result : OperationResult).

Record State (W : Type) : Type := { world : W; log : list Event }.

Definition M (W A : Type) : Type := State W -> Result A * State W.

Definition ret {W A : Type} (a : A) : M W A := fun s => (Ok a, s).

Definition bind {W A B : Type} (m : M W A) (k : A -> M W B) : M W B :=
fun s =>
  match m s with
  | (Ok a, s') => k a s'
  | (Throw e, s') => (Throw e, s')
  end.

Definition throw {W A : Type} (message : string) : M W A :=
fun s => (Throw message, s).

(** [try { m } catch (err) { h(err.message) }]. *)
Definition try_catch {W A : Type} (m : M W A) (h : string -> M W A) : M W A :=
fun s =>
  match m s with
  | (Ok a, s') => (Ok a, s')
  | (Throw e, s') => h e s'
  end.

(** A callback invocation or a console line. *)
Definition emit {W : Type} (e : Event) : M W unit :=
fun s => (Ok tt, {| world := world s; log := log s ++ [e] |}).

(** [await call]. *)
Definition await {W A : Type} (call : W -> Result A * W) : M W A :=
fun s =>
  let (r, w) := call (world s) in (r, {| world := w; log := log s |}).

Notation "x <- m ;; k" := (bind m (fun x => k))
  (at level 61, m at next level, right associativity).
Notation "m ;;; k" := (bind m (fun _ => k))
  (at level 61, right associativity).

(** [for (const x of items) acc = body(acc, x)]. *)
Fixpoint forEach {W A S : Type} (body : S -> A -> M W S) (items : list A)
  (acc : S) : M W S :=
match items with
| [] => ret acc
| x :: r => acc' <- body acc x ;; forEach body r acc'
end.

(* ------------------------------------------------------------------ *)
(** ** core/api.ts: the client the core depends on                     *)
(* ------------------------------------------------------------------ *)

Record NextDNSApi (W : Type) : Type := {
  api_getProfiles : string -> W -> Result (list Profile) * W;
  api_getProfile : string -> string -> W -> Result JsVal * W;
  api_createProfile : JsVal -> string -> W -> Result JsVal * W;
  api_addDomain :
    string -> string -> ListType -> bool -> string -> W -> Result unit * W;
  api_updateDomainStatus :
    string -> string -> ListType -> bool -> string -> W -> Result unit * W;
  api_removeDomain :
    string -> string -> ListType -> string -> W -> Result unit * W;
  api_getRewrites : string -> string -> W -> Result JsVal * W;
  api_addRewrite : string -> JsVal -> string -> W -> Result unit * W;
  api_putRewrites : string -> JsVal -> string -> W -> Result unit * W
}.

(** [profiles.filter((p) => profileIds.includes(p.id))]. *)
Definition selectProfiles (profileIds : list string) (profiles : list Profile)
  : list Profile :=
filter (fun p => existsb (String.eqb (id p)) profileIds) profiles.

(* ------------------------------------------------------------------ *)
(** ** core/manage-domain.ts                                           *)
(* ------------------------------------------------------------------ *)

Record ManageDomainOptions := {
  md_apiKey : string;
  md_domain : string;
  md_listType : ListType;
  md_action : DomainAction;
  md_profileIds : option (list string)
}.

Record Outcome := { success : bool; error : option string }.

(** The test both catch blocks apply to the message of a failed call. *)
Definition not_found_message (error : string) : bool :=
includes "404" error || includes "not found" (toLowerCase error).

Definition addDomainToList {W : Type} (api : NextDNSApi W)
  (apiKey profileId dom : string) (lt : ListType) (active : bool)
  : M W Outcome :=
try_catch
  (await (api_addDomain api profileId dom lt active apiKey) ;;;
   ret {| success := true; error := None |})
  (fun error => ret {| success := false; error := Some error |}).

Definition updateDomainStatus {W : Type} (api : NextDNSApi W)
  (apiKey profileId dom : string) (lt : ListType) (active : bool)
  : M W Outcome :=
try_catch
  (await (api_updateDomainStatus api profileId dom lt active apiKey) ;;;
   ret {| success := true; error := None |})
  (fun error =>
     if not_found_message error
     then ret {| success := false; error := Some "not found" |}
     else ret {| success := false; error := Some error |}).

Definition removeDomainFromList {W : Type} (api : NextDNSApi W)
  (apiKey profileId dom : string) (lt : ListType) : M W Outcome :=
try_catch
  (await (api_removeDomain api profileId dom lt apiKey) ;;;
   ret {| success := true; error := None |})
  (fun error =>
     if not_found_message error
     then ret {| success := true; error := Some "not found (already removed)" |}
     else ret {| success := false; error := Some error |}).

Record ManageResult := {
  results : list OperationResult;
  successCount : nat;
  failCount : nat
}.

(** The [switch] on the action. *)
Definition applyAction {W : Type} (api : NextDNSApi W)
  (options : ManageDomainOptions) (profile : Profile) : M W Outcome :=
match md_action options with
| add =>
    addDomainToList api (md_apiKey options) (id profile) (md_domain options)
      (md_listType options) true
| remove =>
    removeDomainFromList api (md_apiKey options) (id profile)
      (md_domain options) (md_listType options)
| enable =>
    updateDomainStatus api (md_apiKey options) (id profile)
      (md_domain options) (md_listType options) true
| disable =>
    updateDomainStatus api (md_apiKey options) (id profile)
      (md_domain options) (md_listType options) false
end.

(** Body of the loop over the target profiles. *)
Definition manageProfile {W : Type} (api : NextDNSApi W)
  (options : ManageDomainOptions) (acc : ManageResult) (profile : Profile)
  : M W ManageResult :=
result <- applyAction api options profile ;;
let operationResult :=
  {| or_profileId := id profile; or_profileName := name profile;
     or_success := success result; or_error := error result |} in
let acc' :=
  {| results := results acc ++ [operationResult];
     successCount := if success result then S (successCount acc)
                     else successCount acc;
     failCount := if success result then failCount acc
                  else S (failCount acc) |} in
emit (Progress operationResult) ;;;
ret acc'.

Definition manageDomain {W : Type} (api : NextDNSApi W)
  (options : ManageDomainOptions) : M W ManageResult :=
profiles <-
  match md_profileIds options with
  | Some (i :: ids) =>
      allProfiles <- await (api_getProfiles api (md_apiKey options)) ;;
      let profiles := selectProfiles (i :: ids) allProfiles in
      match profiles with
      | [] =>
          throw ("None of the specified profiles found: "
                 ++ join ", " (i :: ids))
      | _ => ret profiles
      end
  | _ => await (api_getProfiles api (md_apiKey options))
  end ;;
match profiles with
| [] => throw "No profiles found"
| _ =>
    forEach (manageProfile api options) profiles
      {| results := []; successCount := 0; failCount := 0 |}
end.

(** A client over a call counter: removing or updating a domain of profile
    "p1" is answered with a 404, every other call succeeds. *)
Definition two_profiles : list Profile :=
[ {| id := "p1"; name := "Home" |}; {| id := "p2"; name := "Office" |} ].

Definition missingOnP1 : NextDNSApi nat :=
{| api_getProfiles := fun _ w => (Ok two_profiles, S w);
   api_getProfile := fun _ _ w => (Ok (JObj []), S w);
   api_createProfile := fun _ _ w => (Ok (JObj []), S w);
   api_addDomain := fun _ _ _ _ _ w => (Ok tt, S w);
   api_updateDomainStatus := fun pid _ _ _ _ w =>
     if String.eqb pid "p1" then (Throw "Domain not found", S w)
     else (Ok tt, S w);
   api_removeDomain := fun pid _ _ _ w =>
     if String.eqb pid "p1" then (Throw "HTTP 404", S w) else (Ok tt, S w);
   api_getRewrites := fun _ _ w => (Ok (JArr []), S w);
   api_addRewrite := fun _ _ _ w => (Ok tt, S w);
   api_putRewrites := fun _ _ _ w => (Ok tt, S w) |}.

Definition manage_options (action : DomainAction) : ManageDomainOptions :=
{| md_apiKey := "key"; md_domain := "ads.example"; md_listType := denylist;
   md_action := action; md_profileIds := None |}.

Definition start (W : Type) (w : W) : State W := {| world := w; log := [] |}.

(** What one turn of the loop records, given the outcome of the action. *)
Definition recorded (acc : ManageResult) (profile : Profile) (o : Outcome)
  : ManageResult :=
{| results :=
     results acc
     ++ [{| or_profileId := id profile; or_profileName := name profile;
            or_success := success o; or_error := error o |}];
   successCount := if success o then S (successCount acc) else successCount acc;
   failCount := if success o then failCount acc else S (failCount acc) |}.


(* ------------------------------------------------------------------ *)
(** ** Operations on JavaScript values                                 *)
(* ------------------------------------------------------------------ *)

(** Decimal notation of an integer. *)
Definition string_of_Z (z : Z) : string :=
NilZero.string_of_int (Z.to_int z).

Definition string_of_nat (n : nat) : string := string_of_Z (Z.of_nat n).

(** ToString: [String(v)] and the coercion of a template literal or of a
    property key. *)
Fixpoint to_string (v : JsVal) : string :=
match v with
| JUndefined => "undefined"
| JNull => "null"
| JBool true => "true"
| JBool false => "false"
| JNum z => string_of_Z z
| JStr s => s
| JArr l =>
    let fix items (l : list JsVal) : list string :=
      match l with
      | [] => []
      | x :: r =>
          match x with
          | JUndefined | JNull => EmptyString
          | _ => to_string x
          end :: items r
      end in
    join "," (items l)
| JObj _ => "[object Object]"
end.

(** [v.k] for one of the property names of the profile schema (none of which
    an array, a string, a number or a boolean has): a TypeError on [null]
    and [undefined], the own property of an object, [undefined] otherwise. *)
Definition member (k : string) (v : JsVal) : Result JsVal :=
match v with
| JUndefined | JNull =>
    Throw ("TypeError: Cannot read properties of " ++ to_string v
           ++ " (reading '" ++ k ++ "')")
| JObj o => Ok (prop_of k o)
| _ => Ok JUndefined
end.

(** [v?.k] and [v?.[k]]. *)
Definition member_opt (k : string) (v : JsVal) : JsVal :=
match v with
| JObj o => prop_of k o
| _ => JUndefined
end.

(** The receiver of [.map]: an array, or a TypeError. *)
Definition as_array (v : JsVal) : Result (list JsVal) :=
match v with
| JArr l => Ok l
| _ => Throw "TypeError: map is not a function"
end.

(** [items.map(f)] for a callback that may throw. *)
Fixpoint map_result (A B : Type) (f : A -> Result B) (items : list A)
  : Result (list B) :=
match items with
| [] => Ok []
| x :: r =>
    match f x with
    | Throw e => Throw e
    | Ok y =>
        match map_result f r with
        | Throw e => Throw e
        | Ok ys => Ok (y :: ys)
        end
    end
end.

Definition bind_result (A B : Type) (r : Result A) (k : A -> Result B)
  : Result B :=
match r with
| Ok a => k a
| Throw e => Throw e
end.

Notation "x <-- r ;; k" := (bind_result r (fun x => k))
  (at level 61, r at next level, right associativity).

(** A synchronous computation inside an [async] function. *)
Definition lift {W A : Type} (r : Result A) : M W A := fun s => (r, s).

(** [(v || []).map((d) => [d.id, d.active])] followed by
    [Object.fromEntries]. *)
Definition domainRecord (v : JsVal) : Result (JsObj JsVal) :=
items <-- as_array (js_or v (JArr [])) ;;
pairs <-- map_result
            (fun d =>
               i <-- member "id" d ;;
               a <-- member "active" d ;;
               Ok (to_string i, a))
            items ;;
Ok (JsObject.fromEntries pairs).

(* ------------------------------------------------------------------ *)
(** ** core/sync-lists.ts: analysis                                    *)
(* ------------------------------------------------------------------ *)

Definition DELAY_MS : nat := 500.

Record ListAnalysis := {
  canonical : JsObj bool;
  la_toAdd : list SyncOperation;
  la_toUpdate : list SyncOperation
}.

Record SyncAnalysis := {
  sa_denylist : ListAnalysis;
  sa_allowlist : ListAnalysis;
  totalUniqueInDenylist : nat;
  totalUniqueInAllowlist : nat;
  estimatedTimeMinutes : QArith_base.Q
}.

Record AnalyzeOptions := {
  ao_apiKey : string;
  ao_profileIds : option (list string)
}.

(** The object literal built inside the [try] of [getProfileListData]. *)
Definition profileListData (data : JsVal) : Result ProfileListData :=
n <-- member "name" data ;;
dl <-- member "denylist" data ;;
den <-- domainRecord dl ;;
al <-- member "allowlist" data ;;
allow <-- domainRecord al ;;
Ok {| pld_name := n; pld_denylist := den; pld_allowlist := allow |}.

(** [null] is [None]. *)
Definition getProfileListData {W : Type} (api : NextDNSApi W)
  (apiKey profileId : string) : M W (option ProfileListData) :=
try_catch
  (data <- await (api_getProfile api profileId apiKey) ;;
   pld <- lift (profileListData data) ;;
   ret (Some pld))
  (fun err =>
     emit (ConsoleError ("Error fetching profile " ++ profileId ++ ": " ++ err)) ;;;
     ret None).

Definition analyzeSync {W : Type} (api : NextDNSApi W)
  (options : AnalyzeOptions)
  : M W (JsObj ProfileListData * SyncAnalysis) :=
profiles <- await (api_getProfiles api (ao_apiKey options)) ;;
profiles <-
  match ao_profileIds options with
  | Some (i :: ids) =>
      match selectProfiles (i :: ids) profiles with
      | [] =>
          throw ("None of the specified profiles found: "
                 ++ join ", " (i :: ids))
      | selected => ret selected
      end
  | _ => ret profiles
  end ;;
if (List.length profiles <? 2)%nat
then throw "Need at least 2 profiles to sync"
else
  allData <-
    forEach
      (fun allData profile =>
         data <- getProfileListData api (ao_apiKey options) (id profile) ;;
         match data with
         | Some d => ret (JsObject.set (id profile) d allData)
         | None => ret allData
         end)
      profiles JsObject.empty ;;
  let denylistCanonical := getCanonicalDomains allData denylist in
  let allowlistCanonical := getCanonicalDomains allData allowlist in
  let denylistOps := calculateSyncOperations allData denylistCanonical denylist in
  let allowlistOps :=
    calculateSyncOperations allData allowlistCanonical allowlist in
  let totalOps :=
    (List.length (toAdd denylistOps) + List.length (toUpdate denylistOps)
     + List.length (toAdd allowlistOps) + List.length (toUpdate allowlistOps))%nat in
  ret (allData,
       {| sa_denylist :=
            {| canonical := denylistCanonical;
               la_toAdd := toAdd denylistOps;
               la_toUpdate := toUpdate denylistOps |};
          sa_allowlist :=
            {| canonical := allowlistCanonical;
               la_toAdd := toAdd allowlistOps;
               la_toUpdate := toUpdate allowlistOps |};
          totalUniqueInDenylist := List.length (JsObject.keys denylistCanonical);
          totalUniqueInAllowlist := List.length (JsObject.keys allowlistCanonical);
          estimatedTimeMinutes :=
            QArith_base.Qmake (Z.of_nat (totalOps * DELAY_MS)) 60000 |}).

(** A client over a call counter with three profiles; fetching the data of
    "p2" fails. *)
Definition three_profiles : list Profile :=
[ {| id := "p1"; name := "Home" |}; {| id := "p2"; name := "Office" |};
  {| id := "p3"; name := "Kids" |} ].

Definition sample_lists : JsVal :=
JObj [ ("id", JStr "p");
       ("name", JStr "Profile");
       ("denylist",
        JArr [ JObj [("id", JStr "ads.example"); ("active", JBool true)] ]);
       ("allowlist", JArr []) ].

Definition failingP2 : NextDNSApi nat :=
{| api_getProfiles := fun _ w => (Ok three_profiles, S w);
   api_getProfile := fun pid _ w =>
     if String.eqb pid "p2" then (Throw "HTTP 500", S w)
     else (Ok sample_lists, S w);
   api_createProfile := fun _ _ w => (Ok (JObj []), S w);
   api_addDomain := fun _ _ _ _ _ w => (Ok tt, S w);
   api_updateDomainStatus := fun _ _ _ _ _ w => (Ok tt, S w);
   api_removeDomain := fun _ _ _ _ w => (Ok tt, S w);
   api_getRewrites := fun _ _ w => (Ok (JArr []), S w);
   api_addRewrite := fun _ _ _ w => (Ok tt, S w);
   api_putRewrites := fun _ _ _ w => (Ok tt, S w) |}.

Definition analyze_all : AnalyzeOptions :=
{| ao_apiKey := "key"; ao_profileIds := None |}.

(* ------------------------------------------------------------------ *)
(** ** JSON.stringify and Array.prototype.sort                         *)
(* ------------------------------------------------------------------ *)

Definition hex_digit (n : nat) : ascii :=
if (n <? 10)%nat then ascii_of_nat (48 + n) else ascii_of_nat (87 + n).

(** The JSON escape of one character. *)
Definition escape_char (c : ascii) : string :=
let n := nat_of_ascii c in
if (n =? 34)%nat then ("\" ++ String c EmptyString)%string
else if (n =? 92)%nat then "\\"
else if (n =? 8)%nat then "\b"
else if (n =? 9)%nat then "\t"
else if (n =? 10)%nat then "\n"
else if (n =? 12)%nat then "\f"
else if (n =? 13)%nat then "\r"
else if (n <? 32)%nat then
  ("\u00" ++ String (hex_digit (n / 16))
              (String (hex_digit (n mod 16)) EmptyString))%string
else String c EmptyString.

Fixpoint escape (s : string) : string :=
match s with
| EmptyString => EmptyString
| String c r => (escape_char c ++ escape r)%string
end.

Definition dquote : string := String "034"%char EmptyString.

(** QuoteJSONString. *)
Definition quote (s : string) : string :=
(dquote ++ escape s ++ dquote)%string.

(** SerializeJSONProperty: [None] is [undefined]. *)
Fixpoint serialize (v : JsVal) : option string :=
match v with
| JUndefined => None
| JNull => Some "null"
| JBool true => Some "true"
| JBool false => Some "false"
| JNum z => Some (string_of_Z z)
| JStr s => Some (quote s)
| JArr l =>
    let fix elements (l : list JsVal) : list string :=
      match l with
      | [] => []
      | x :: r =>
          match serialize x with
          | Some s => s
          | None => "null"
          end :: elements r
      end in
    Some ("[" ++ join "," (elements l) ++ "]")%string
| JObj o =>
    let fix members (o : list (string * JsVal)) : list string :=
      match o with
      | [] => []
      | (k, x) :: r =>
          match serialize x with
          | Some s => (quote k ++ ":" ++ s)%string :: members r
          | None => members r
          end
      end in
    Some ("{" ++ join "," (members o) ++ "}")%string
end.

(** [JSON.stringify(v)]. *)
Definition JSON_stringify (v : JsVal) : option string := serialize v.

(** The default sort order: [undefined] last, the rest by their strings. *)
Definition sorts_before (a b : JsVal) : bool :=
match a, b with
| JUndefined, _ => false
| _, JUndefined => true
| _, _ => String.ltb (to_string a) (to_string b)
end.

Fixpoint sort_insert (x : JsVal) (l : list JsVal) : list JsVal :=
match l with
| [] => [x]
| y :: r => if sorts_before y x then y :: sort_insert x r else x :: l
end.

(** [items.sort()]: the stable sort by [sorts_before]. *)
Fixpoint js_sort (items : list JsVal) : list JsVal :=
match items with
| [] => []
| x :: r => sort_insert x (js_sort r)
end.

(** [Array.from(new Set(strings)).sort()] on strings. *)
Fixpoint insert_string (x : string) (l : list string) : list string :=
match l with
| [] => [x]
| y :: r => if String.ltb y x then y :: insert_string x r else x :: l
end.

Fixpoint sort_strings (l : list string) : list string :=
match l with
| [] => []
| x :: r => insert_string x (sort_strings r)
end.

(* ------------------------------------------------------------------ *)
(** ** core/diff-profiles.ts                                           *)
(* ------------------------------------------------------------------ *)

Inductive DiffSection :=
| ds_all | ds_security | ds_privacy | ds_parental | ds_settings | ds_lists.

(** The keys of [ProfileDiffData] that hold a settings object. *)
Inductive SectionName :=
| sn_security | sn_privacy | sn_parentalControl | sn_settings.

Record ProfileDiffData := {
  pdd_name : string;
  pdd_denylist : JsObj JsVal;
  pdd_allowlist : JsObj JsVal;
  pdd_security : JsVal;
  pdd_privacy : JsVal;
  pdd_parentalControl : JsVal;
  pdd_settings : JsVal
}.

Record DiffRow := {
  label : JsVal;
  row_values : JsObj string;
  hasDiff : bool
}.

Record DiffTable := {
  title : string;
  legend : option string;
  rows : list DiffRow;
  diffCount : nat
}.

Record DiffResult := {
  dr_profileIds : list string;
  profileNames : JsObj string;
  tables : list DiffTable
}.

Record DiffOptions := {
  do_apiKey : string;
  do_profileIds : option (list string);
  do_section : DiffSection;
  do_diffOnly : bool
}.

Definition check_mark : string := "✓".
Definition cross_mark : string := "✗".

(** [formatValue(value)] with the default [maxWidth] of 12. *)
Definition formatValue (value : JsVal) : string :=
let maxWidth := 12 in
match value with
| JNull | JUndefined => "-"
| JBool true => check_mark
| JBool false => cross_mark
| JArr l => string_of_nat (List.length l)
| JObj _ => "{...}"
| _ =>
    let str := to_string value in
    if (maxWidth <? String.length str)%nat
    then (String.substring 0 (maxWidth - 2) str ++ "..")%string
    else str
end.

(** [item.id || String(item)] in the callback of [normalizeListForComparison]. *)
Definition idOrString (item : JsVal) : Result JsVal :=
i <-- member "id" item ;;
Ok (js_or i (JStr (to_string item))).

(** [None] is the [undefined] that [JSON.stringify(undefined)] returns. *)
Definition normalizeListForComparison (val : JsVal) : Result (option string) :=
match val with
| JArr [] => Ok (Some "[]")
| JArr (first :: rest) =>
    match first with
    | JObj _ | JArr _ =>
        ids <-- map_result idOrString (first :: rest) ;;
        Ok (JSON_stringify (JArr (js_sort ids)))
    | _ => Ok (JSON_stringify (JArr (js_sort (first :: rest))))
    end
| _ => Ok (JSON_stringify val)
end.

Definition diff_list_of (lt : ListType) (pdata : ProfileDiffData)
  : JsObj JsVal :=
match lt with
| denylist => pdd_denylist pdata
| allowlist => pdd_allowlist pdata
end.

(** [new Set<string>().add(x)], in insertion order. *)
Definition add_string (s : list string) (x : string) : list string :=
if existsb (String.eqb x) s then s else s ++ [x].

Definition option_bool_eqb (a b : option bool) : bool :=
match a, b with
| None, None => true
| Some x, Some y => Bool.eqb x y
| _, _ => false
end.

(** [xs.every((v) => v === xs[0])]. *)
Definition every_equals_first (A : Type) (eqb : A -> A -> bool) (xs : list A)
  : bool :=
match xs with
| [] => true
| x0 :: _ => forallb (fun v => eqb v x0) xs
end.

(** The cell and the state recorded for one profile and one domain. *)
Definition domainCell (state : JsVal) : string * option bool :=
if is_undefined state then ("-", None)
else if truthy state then (check_mark, Some true)
else (cross_mark, Some false).

Definition is_null_state (s : option bool) : bool :=
match s with None => true | Some _ => false end.

(** [values[pid] = cell] for the profiles in turn. *)
Definition cells_object (cells : list (string * string)) : JsObj string :=
fold_left (fun o c => JsObject.set (fst c) (snd c) o) cells JsObject.empty.

(** The loop over [profileIds] reads [allData[pid]] for the keys of [allData]
    in turn: it is a loop over the entries of [allData]. *)
Definition domainRow (allData : JsObj ProfileDiffData) (lt : ListType)
  (dom : string) : DiffRow :=
let per :=
  map (fun e => (fst e, domainCell (prop_of dom (diff_list_of lt (snd e)))))
    (JsObject.entries allData) in
let states := map (fun c => snd (snd c)) per in
let nonNull := filter (fun s => negb (is_null_state s)) states in
{| label := JStr dom;
   row_values := cells_object (map (fun c => (fst c, fst (snd c))) per);
   hasDiff :=
     existsb is_null_state states
     || (negb (List.length nonNull =? 0)%nat
         && negb (every_equals_first option_bool_eqb nonNull)) |}.

Definition allDomains_of (allData : JsObj ProfileDiffData) (lt : ListType)
  : list string :=
fold_left
  (fun s pdata => fold_left add_string (JsObject.keys (diff_list_of lt pdata)) s)
  (JsObject.values allData) [].

Definition compareDenylistAllowlist (allData : JsObj ProfileDiffData)
  (lt : ListType) : list DiffRow :=
match allDomains_of allData lt with
| [] => []
| allDomains => map (domainRow allData lt) (sort_strings allDomains)
end.

Definition section_of (sn : SectionName) (pdata : ProfileDiffData) : JsVal :=
match sn with
| sn_security => pdd_security pdata
| sn_privacy => pdd_privacy pdata
| sn_parentalControl => pdd_parentalControl pdata
| sn_settings => pdd_settings pdata
end.

(** [===] between two values that are not the same object. *)
Definition strict_eq (a b : JsVal) : bool :=
match a, b with
| JUndefined, JUndefined => true
| JNull, JNull => true
| JBool x, JBool y => Bool.eqb x y
| JNum x, JNum y => (x =? y)%Z
| JStr x, JStr y => String.eqb x y
| _, _ => false
end.

(** [new Set().add(x)] for values none of which is the same object twice. *)
Definition add_value (s : list JsVal) (x : JsVal) : list JsVal :=
if existsb (strict_eq x) s then s else s ++ [x].

Definition is_object (v : JsVal) : bool :=
match v with JObj _ | JArr _ => true | _ => false end.

(** The identifier an item is listed under. *)
Definition itemId_of (item : JsVal) : JsVal :=
if is_object item
then js_or (member_opt "id" item) (JStr (to_string item))
else JStr (to_string item).

(** The items of [section?.[field]] when it is an array. *)
Definition items_of (sn : SectionName) (field : string)
  (pdata : ProfileDiffData) : list JsVal :=
match member_opt field (section_of sn pdata) with
| JArr items => items
| _ => []
end.

(** [itemMap] of one profile. *)
Definition itemMap_of (items : list JsVal) : JsObj JsVal :=
fold_left
  (fun m item =>
     if is_object item
     then JsObject.set (to_string (js_or (member_opt "id" item) item)) item m
     else JsObject.set (to_string item)
            (JObj [("id", JStr (to_string item))]) m)
  items JsObject.empty.

Definition itemCell (hasActiveField : bool) (itemMap : JsObj JsVal)
  (itemId : JsVal) : string * JsVal :=
match JsObject.get (to_string itemId) itemMap with
| Some obj =>
    if hasActiveField then
      let isActive := member_opt "active" obj in
      (if truthy isActive then check_mark else cross_mark, isActive)
    else (check_mark, JBool true)
| None => ("-", JNull)
end.

(** [states.every((s) => s === states[0])] for states read from different
    profiles: the first state is itself, two objects are never the same. *)
Definition states_agree (states : list JsVal) : bool :=
match states with
| [] => true
| s0 :: others => forallb (fun s => strict_eq s s0) others
end.

Definition itemRow (allData : JsObj ProfileDiffData) (sn : SectionName)
  (field : string) (hasActiveField : bool) (itemId : JsVal) : DiffRow :=
let per :=
  map (fun e =>
         (fst e,
          itemCell hasActiveField (itemMap_of (items_of sn field (snd e)))
            itemId))
    (JsObject.entries allData) in
{| label := itemId;
   row_values := cells_object (map (fun c => (fst c, fst (snd c))) per);
   hasDiff := negb (states_agree (map (fun c => snd (snd c)) per)) |}.

Definition compareListItems (allData : JsObj ProfileDiffData)
  (sn : SectionName) (field : string) (hasActiveField : bool) : list DiffRow :=
let allItems :=
  fold_left
    (fun s e =>
       fold_left (fun s item => add_value s (itemId_of item))
         (items_of sn field (snd e)) s)
    (JsObject.entries allData) [] in
match allItems with
| [] => []
| _ => map (itemRow allData sn field hasActiveField) (js_sort allItems)
end.

Definition option_string_eqb (a b : option string) : bool :=
match a, b with
| None, None => true
| Some x, Some y => String.eqb x y
| _, _ => false
end.

(** One row of [compareSettings]: the values read by [read] from each
    profile, formatted for display and normalized for comparison. *)
Definition settingRow (allData : JsObj ProfileDiffData) (lbl : string)
  (read : ProfileDiffData -> JsVal) : Result DiffRow :=
compareValues <--
  map_result (fun e => normalizeListForComparison (read (snd e)))
    (JsObject.entries allData) ;;
Ok {| label := JStr lbl;
      row_values :=
        cells_object
          (map (fun e => (fst e, formatValue (read (snd e))))
             (JsObject.entries allData));
      hasDiff := negb (every_equals_first option_string_eqb compareValues) |}.

Definition compareSettings (allData : JsObj ProfileDiffData)
  (sn : SectionName) (fields : list string) : Result (list DiffRow) :=
map_result
  (fun field =>
     settingRow allData field
       (fun pdata => member_opt field (section_of sn pdata)))
  fields.

Definition compareNestedSettings (allData : JsObj ProfileDiffData)
  (sn : SectionName) (fields : list string) : Result (list DiffRow) :=
match JsObject.entries allData with
| [] => Throw "TypeError: Cannot read properties of undefined"
| first :: _ =>
    let sampleSection := section_of sn (snd first) in
    groups <--
      map_result
        (fun field =>
           match member_opt field sampleSection with
           | JObj fieldValue =>
               map_result
                 (fun subfield =>
                    settingRow allData (field ++ "." ++ subfield)%string
                      (fun pdata =>
                         member_opt subfield
                           (member_opt field (section_of sn pdata))))
                 (sort_strings (JsObject.keys fieldValue))
           | _ =>
               row <-- settingRow allData field
                         (fun pdata => member_opt field (section_of sn pdata)) ;;
               Ok [row]
           end)
        fields ;;
    Ok (List.concat groups)
end.

(** [createTable]: [None] is [null]. *)
Definition createTable (diffOnly : bool) (ttl : string) (rws : list DiffRow)
  (lgd : option string) : option DiffTable :=
let displayRows := if diffOnly then filter hasDiff rws else rws in
match displayRows with
| [] => None
| _ =>
    Some {| title := ttl; legend := lgd; rows := displayRows;
            diffCount := List.length (filter hasDiff rws) |}
end.

(** [if (table) tables.push(table)]. *)
Definition push_table (tbls : list DiffTable) (table : option DiffTable)
  : list DiffTable :=
match table with
| Some t => tbls ++ [t]
| None => tbls
end.

Definition securityFields : list string :=
[ "threatIntelligenceFeeds"; "aiThreatDetection"; "googleSafeBrowsing";
  "cryptojacking"; "dnsRebinding"; "idnHomographs"; "typosquatting"; "dga";
  "nrd"; "ddns"; "parking"; "csam" ].

Definition section_is (section target : DiffSection) : bool :=
match section, target with
| ds_all, _ => true
| ds_security, ds_security => true
| ds_privacy, ds_privacy => true
| ds_parental, ds_parental => true
| ds_settings, ds_settings => true
| ds_lists, ds_lists => true
| _, _ => false
end.

Definition generateDiffTables (allData : JsObj ProfileDiffData)
  (section : DiffSection) (diffOnly : bool) : Result (list DiffTable) :=
let tbls : list DiffTable := [] in
tbls <--
  (if section_is section ds_security then
     rws <-- compareSettings allData sn_security securityFields ;;
     Ok (push_table tbls (createTable diffOnly "Security Settings" rws None))
   else Ok tbls) ;;
tbls <--
  (if section_is section ds_privacy then
     rws <-- compareSettings allData sn_privacy
               ["disguisedTrackers"; "allowAffiliate"] ;;
     let tbls :=
       push_table tbls (createTable diffOnly "Privacy Settings" rws None) in
     let tbls :=
       push_table tbls
         (createTable diffOnly "Blocklists"
            (compareListItems allData sn_privacy "blocklists" false)
            (Some "Legend: ✓=enabled, -=not enabled")) in
     Ok (push_table tbls
           (createTable diffOnly "Native Tracking Protection"
              (compareListItems allData sn_privacy "natives" false)
              (Some "Legend: ✓=enabled, -=not enabled")))
   else Ok tbls) ;;
tbls <--
  (if section_is section ds_parental then
     rws <-- compareSettings allData sn_parentalControl
               ["safeSearch"; "youtubeRestrictedMode"; "blockBypass"] ;;
     let tbls :=
       push_table tbls
         (createTable diffOnly "Parental Control Settings" rws None) in
     let tbls :=
       push_table tbls
         (createTable diffOnly "Blocked Services"
            (compareListItems allData sn_parentalControl "services" true)
            (Some "Legend: ✓=blocked (active), ✗=in list but disabled, -=not in list")) in
     Ok (push_table tbls
           (createTable diffOnly "Blocked Categories"
              (compareListItems allData sn_parentalControl "categories" true)
              (Some "Legend: ✓=blocked (active), ✗=in list but disabled, -=not in list")))
   else Ok tbls) ;;
tbls <--
  (if section_is section ds_settings then
     rws <-- compareNestedSettings allData sn_settings
               ["logs"; "blockPage"; "performance"; "web3"] ;;
     Ok (push_table tbls (createTable diffOnly "General Settings" rws None))
   else Ok tbls) ;;
(if section_is section ds_lists then
   let tbls :=
     push_table tbls
       (createTable diffOnly "Denylist"
          (compareDenylistAllowlist allData denylist)
          (Some "Legend: ✓=enabled, ✗=disabled, -=missing")) in
   Ok (push_table tbls
         (createTable diffOnly "Allowlist"
            (compareDenylistAllowlist allData allowlist)
            (Some "Legend: ✓=enabled, ✗=disabled, -=missing")))
 else Ok tbls).

(** The object literal stored under [profile.id] by [fetchProfileData]. *)
Definition profileDiffData (profile : Profile) (data : JsVal)
  : Result ProfileDiffData :=
dl <-- member "denylist" data ;;
den <-- domainRecord dl ;;
al <-- member "allowlist" data ;;
allow <-- domainRecord al ;;
sec <-- member "security" data ;;
priv <-- member "privacy" data ;;
pc <-- member "parentalControl" data ;;
sets <-- member "settings" data ;;
Ok {| pdd_name := name profile;
      pdd_denylist := den;
      pdd_allowlist := allow;
      pdd_security := js_or sec (JObj []);
      pdd_privacy := js_or priv (JObj []);
      pdd_parentalControl := js_or pc (JObj []);
      pdd_settings := js_or sets (JObj []) |}.

(** Body of the loop of [fetchProfileData]. *)
Definition fetchOne {W : Type} (api : NextDNSApi W) (apiKey : string)
  (allData : JsObj ProfileDiffData) (profile : Profile)
  : M W (JsObj ProfileDiffData) :=
data <- await (api_getProfile api (id profile) apiKey) ;;
pdd <- lift (profileDiffData profile data) ;;
ret (JsObject.set (id profile) pdd allData).

Definition fetchProfileData {W : Type} (api : NextDNSApi W) (apiKey : string)
  (profiles : list Profile) : M W (JsObj ProfileDiffData) :=
forEach (fetchOne api apiKey) profiles JsObject.empty.

Definition diffProfiles {W : Type} (api : NextDNSApi W) (options : DiffOptions)
  : M W DiffResult :=
profiles <- await (api_getProfiles api (do_apiKey options)) ;;
profiles <-
  match do_profileIds options with
  | Some (i :: ids) =>
      match selectProfiles (i :: ids) profiles with
      | [] =>
          throw ("None of the specified profiles found: "
                 ++ join ", " (i :: ids))
      | selected => ret selected
      end
  | _ => ret profiles
  end ;;
if (List.length profiles <? 2)%nat
then throw "Need at least 2 profiles to compare"
else
  allData <- fetchProfileData api (do_apiKey options) profiles ;;
  tbls <- lift (generateDiffTables allData (do_section options)
                  (do_diffOnly options)) ;;
  ret {| dr_profileIds := JsObject.keys allData;
         profileNames :=
           fold_left (fun o e => JsObject.set (fst e) (pdd_name (snd e)) o)
             (JsObject.entries allData) JsObject.empty;
         tables := tbls |}.

Definition diff_all : DiffOptions :=
{| do_apiKey := "key"; do_profileIds := None; do_section := ds_all;
   do_diffOnly := false |}.

(** The profiles an operation works on: those of the requested ids when ids
    are given, all of them otherwise. *)
Definition requested (profileIds : option (list string))
  (profiles : list Profile) : list Profile :=
match profileIds with
| Some (i :: ids) => selectProfiles (i :: ids) profiles
| _ => profiles
end.

(** *** Vocabulary of the diff claims *)

(** An entry of one of the vendor's lists: an object whose [id] is a
    non-empty string. *)
Definition id_entry (v : JsVal) : bool :=
match v with
| JObj o =>
    match prop_of "id" o with
    | JStr s => negb (String.eqb s EmptyString)
    | _ => false
    end
| _ => false
end.

Definition is_string (v : JsVal) : bool :=
match v with JStr _ => true | _ => false end.

(** The state [compareDenylistAllowlist] records for a profile. *)
Definition domainState (lt : ListType) (dom : string)
  (pdata : ProfileDiffData) : option bool :=
snd (domainCell (prop_of dom (diff_list_of lt pdata))).

(** Two profiles whose security section carries the same array under the
    field csam, one of the fields [generateDiffTables] compares, and the same
    two after the elements of the second profile's array have been
    permuted. *)
Definition tagged (tags : list JsVal) : ProfileDiffData :=
{| pdd_name := "Profile"; pdd_denylist := []; pdd_allowlist := [];
   pdd_security := JObj [("csam", JArr tags)];
   pdd_privacy := JObj []; pdd_parentalControl := JObj [];
   pdd_settings := JObj [] |}.

Definition tags_in_order : list JsVal := [ JObj [("id", JStr "a")]; JStr "b" ].
Definition tags_permuted : list JsVal := [ JStr "b"; JObj [("id", JStr "a")] ].

Definition same_tags : JsObj ProfileDiffData :=
[ ("p1", tagged tags_in_order); ("p2", tagged tags_in_order) ].

Definition permuted_tags : JsObj ProfileDiffData :=
[ ("p1", tagged tags_in_order); ("p2", tagged tags_permuted) ].

Definition vendor_tags : list JsVal :=
[ JObj [("id", JStr "xyz")]; JObj [("id", JStr "top")] ].

(** The identifier of an entry and the text of a string value. *)
Definition entry_id (v : JsVal) : string :=
match v with
| JObj o => match prop_of "id" o with JStr s => s | _ => EmptyString end
| _ => EmptyString
end.

Definition text_of (v : JsVal) : string :=
match v with JStr s => s | _ => EmptyString end.

(** What the rows of [compareSettings] and [compareNestedSettings] read
    from a profile. *)
Definition field_of (sn : SectionName) (field : string)
  (pdata : ProfileDiffData) : JsVal :=
member_opt field (section_of sn pdata).

Definition subfield_of (sn : SectionName) (field subfield : string)
  (pdata : ProfileDiffData) : JsVal :=
member_opt subfield (member_opt field (section_of sn pdata)).

(** All profiles have the same comparison key for the value [read] reads:
    the text [normalizeListForComparison] returns, or the same exception. *)
Definition same_key (allData : JsObj ProfileDiffData)
  (read : ProfileDiffData -> JsVal) : Prop :=
forall e1 e2, In e1 allData -> In e2 allData ->
  normalizeListForComparison (read (snd e1))
  = normalizeListForComparison (read (snd e2)).

(** Every profile has a state for the domain, and all have the same. *)
Definition same_state (allData : JsObj ProfileDiffData) (lt : ListType)
  (dom : string) : Prop :=
(forall e, In e allData -> is_null_state (domainState lt dom (snd e)) = false)
/\ (forall e1 e2, In e1 allData -> In e2 allData ->
      domainState lt dom (snd e1) = domainState lt dom (snd e2)).

(** An array of vendor entries or of strings. *)
Definition uniform (l : list JsVal) : Prop :=
forallb id_entry l = true \/ forallb is_string l = true.

(** [v'] is [v], or [v] is a uniform array and [v'] has its elements in
    another order. *)
Definition permuted_value (v v' : JsVal) : Prop :=
v = v'
\/ exists l l', v = JArr l /\ v' = JArr l' /\ Permutation l l' /\ uniform l.

(** The same profiles, up to the order of the uniform arrays the fields
    [fields] of section [sn] hold. *)
Definition permuted_fields (sn : SectionName) (fields : list string)
  (allData allData' : JsObj ProfileDiffData) : Prop :=
Forall2
  (fun e e' =>
     forall field, In field fields ->
       permuted_value (field_of sn field (snd e)) (field_of sn field (snd e')))
  allData allData'.

(** The [hasDiff] flags of the rows, or the exception. *)
Definition flags_of (r : Result (list DiffRow)) : Result (list bool) :=
rws <-- r ;; Ok (map hasDiff rws).

(** Two profiles holding the vendor's tags, the second in the order [tags]. *)
Definition reordered (tags : list JsVal) : JsObj ProfileDiffData :=
[ ("p1", tagged vendor_tags); ("p2", tagged tags) ].

(** The [diffCount] of the tables, or the exception. *)
Definition diff_counts (r : Result (list DiffTable)) : Result (list nat) :=
tbls <-- r ;; Ok (map diffCount tbls).

(* ------------------------------------------------------------------ *)
(** ** core/copy-profile.ts: schema validation and payload             *)
(* ------------------------------------------------------------------ *)

Definition KNOWN_root : list string :=
[ "id"; "fingerprint"; "name"; "setup"; "security"; "privacy";
  "parentalControl"; "denylist"; "allowlist"; "settings"; "rewrites" ].

Definition KNOWN_security : list string :=
[ "threatIntelligenceFeeds"; "aiThreatDetection"; "googleSafeBrowsing";
  "cryptojacking"; "dnsRebinding"; "idnHomographs"; "typosquatting"; "dga";
  "nrd"; "ddns"; "parking"; "csam"; "tlds" ].

Definition KNOWN_privacy : list string :=
[ "disguisedTrackers"; "allowAffiliate"; "blocklists"; "natives" ].

Definition KNOWN_parentalControl : list string :=
[ "safeSearch"; "youtubeRestrictedMode"; "blockBypass"; "services";
  "categories"; "recreation" ].

Definition KNOWN_settings : list string :=
[ "logs"; "blockPage"; "performance"; "web3"; "bav" ].

Definition KNOWN_settings_logs : list string :=
[ "enabled"; "drop"; "retention"; "location" ].

Definition KNOWN_settings_performance : list string :=
[ "ecs"; "cacheBoost"; "cnameFlattening" ].

Definition SKIPPED_root : list string := [ "id"; "fingerprint"; "setup" ].

Definition SKIPPED_parentalControl : list string := [ "recreation" ].

(** [set.has(k)]. *)
Definition set_has (k : string) (s : list string) : bool :=
existsb (String.eqb k) s.

(** [Object.keys(data)] when [typeof data === 'object'] and [data] is not
    [null]: the keys of an object, the indices of an array. *)
Definition object_keys (data : JsVal) : option (list string) :=
match data with
| JObj o => Some (JsObject.keys o)
| JArr l => Some (map string_of_nat (seq 0 (List.length l)))
| _ => None
end.

Definition unknown_keys (data : JsVal) (knownSet skippedSet : list string)
  : list string :=
match object_keys data with
| Some ks =>
    filter (fun k => negb (set_has k knownSet) && negb (set_has k skippedSet)) ks
| None => []
end.

Definition warning_text (path : string) (unknown : list string) : string :=
"Unknown field(s) at '" ++ path ++ "': " ++ join ", " unknown.

(** [checkFields], with the [warnings] array passed along. *)
Definition checkFields (warnings : list string) (data : JsVal)
  (knownSet skippedSet : list string) (path : string) : list string :=
match unknown_keys data knownSet skippedSet with
| [] => warnings
| unknown => warnings ++ [warning_text path unknown]
end.

Definition validateApiSchema (sourceData : JsVal) : Result (list string) :=
let warnings := checkFields [] sourceData KNOWN_root SKIPPED_root "root" in
security <-- member "security" sourceData ;;
let warnings :=
  if truthy security
  then checkFields warnings security KNOWN_security [] "security"
  else warnings in
privacy <-- member "privacy" sourceData ;;
let warnings :=
  if truthy privacy
  then checkFields warnings privacy KNOWN_privacy [] "privacy"
  else warnings in
parentalControl <-- member "parentalControl" sourceData ;;
let warnings :=
  if truthy parentalControl
  then checkFields warnings parentalControl KNOWN_parentalControl
         SKIPPED_parentalControl "parentalControl"
  else warnings in
settings <-- member "settings" sourceData ;;
if truthy settings then
  let warnings := checkFields warnings settings KNOWN_settings [] "settings" in
  logs <-- member "logs" settings ;;
  let warnings :=
    if truthy logs
    then checkFields warnings logs KNOWN_settings_logs [] "settings.logs"
    else warnings in
  performance <-- member "performance" settings ;;
  let warnings :=
    if truthy performance
    then checkFields warnings performance KNOWN_settings_performance []
           "settings.performance"
    else warnings in
  Ok warnings
else Ok warnings.

(** [{k1: src.k1 ?? dflt, k2: src.k2 ?? dflt, ...}] for a truthy [src]. *)
Definition defaulted (src : JsVal) (dflt : JsVal) (ks : list string)
  : JsObj JsVal :=
map (fun k => (k, js_nullish (member_opt k src) dflt)) ks.

(** [list.map((t) => ({id: t.id}))]. *)
Definition idsOnly (v : JsVal) : Result JsVal :=
items <-- as_array v ;;
out <-- map_result (fun t => i <-- member "id" t ;; Ok (JObj [("id", i)])) items ;;
Ok (JArr out).

(** [list.map((s) => ({id: s.id, active: s.active ?? dflt}))]. *)
Definition idsWithActive (dflt : bool) (v : JsVal) : Result JsVal :=
items <-- as_array v ;;
out <-- map_result
          (fun s =>
             i <-- member "id" s ;;
             a <-- member "active" s ;;
             Ok (JObj [("id", i); ("active", js_nullish a (JBool dflt))]))
          items ;;
Ok (JArr out).

(** [if (src.k) target.k = f(src.k)]. *)
Definition copy_if_truthy (k : string) (f : JsVal -> Result JsVal)
  (src : JsVal) (target : JsObj JsVal) : Result (JsObj JsVal) :=
let v := member_opt k src in
if truthy v then (x <-- f v ;; Ok (JsObject.set k x target)) else Ok target.

Definition security_flags : list string :=
[ "threatIntelligenceFeeds"; "aiThreatDetection"; "googleSafeBrowsing";
  "cryptojacking"; "dnsRebinding"; "idnHomographs"; "typosquatting"; "dga";
  "nrd"; "ddns"; "parking"; "csam" ].

Definition privacy_flags : list string :=
[ "disguisedTrackers"; "allowAffiliate" ].

Definition parental_flags : list string :=
[ "safeSearch"; "youtubeRestrictedMode"; "blockBypass" ].

Definition reconstructSecurity (sec : JsVal) : Result JsVal :=
o <-- copy_if_truthy "tlds" idsOnly sec
        (defaulted sec (JBool true) security_flags) ;;
Ok (JObj o).

Definition reconstructPrivacy (priv : JsVal) : Result JsVal :=
o <-- copy_if_truthy "blocklists" idsOnly priv
        (defaulted priv (JBool true) privacy_flags) ;;
o <-- copy_if_truthy "natives" idsOnly priv o ;;
Ok (JObj o).

Definition reconstructParentalControl (pc : JsVal) : Result JsVal :=
o <-- copy_if_truthy "services" (idsWithActive false) pc
        (defaulted pc (JBool false) parental_flags) ;;
o <-- copy_if_truthy "categories" (idsWithActive false) pc o ;;
Ok (JObj o).

Definition reconstructSettings (srcSet : JsVal) : Result JsVal :=
let copy k (target : JsObj JsVal) :=
  if truthy (member_opt k srcSet)
  then JsObject.set k (member_opt k srcSet) target else target in
let copy_defined k (target : JsObj JsVal) :=
  if is_undefined (member_opt k srcSet) then target
  else JsObject.set k (member_opt k srcSet) target in
Ok (JObj (copy_defined "bav"
            (copy_defined "web3"
               (copy "performance"
                  (copy "blockPage" (copy "logs" JsObject.empty)))))).

Definition reconstructPayload (sourceData : JsVal) : Result (JsObj JsVal) :=
nm <-- member "name" sourceData ;;
let baseName := js_or nm (JStr "Cloned Profile") in
let payload :=
  JsObject.set "name" (JStr (to_string baseName ++ " (Copy)")) JsObject.empty in
payload <-- copy_if_truthy "security" reconstructSecurity sourceData payload ;;
payload <-- copy_if_truthy "privacy" reconstructPrivacy sourceData payload ;;
payload <-- copy_if_truthy "parentalControl" reconstructParentalControl
              sourceData payload ;;
payload <-- copy_if_truthy "denylist" (idsWithActive true) sourceData payload ;;
payload <-- copy_if_truthy "allowlist" (idsWithActive true) sourceData payload ;;
copy_if_truthy "settings" reconstructSettings sourceData payload.

(** The sample profile of the test suite. *)
Definition SAMPLE_PROFILE_DATA : JsVal :=
JObj
  [ ("id", JStr "abc123");
    ("fingerprint", JStr "fp0000000000000000");
    ("name", JStr "Test Profile");
    ("setup",
     JObj [ ("ipv4", JArr []);
            ("ipv6", JArr [JStr "2001:db8::1"; JStr "2001:db8::2"]);
            ("linkedIp",
             JObj [ ("servers", JArr [JStr "192.0.2.1"; JStr "192.0.2.2"]);
                    ("ip", JStr "198.51.100.1") ]) ]);
    ("security",
     JObj [ ("threatIntelligenceFeeds", JBool true);
            ("aiThreatDetection", JBool true);
            ("googleSafeBrowsing", JBool true);
            ("cryptojacking", JBool true);
            ("dnsRebinding", JBool true);
            ("idnHomographs", JBool true);
            ("typosquatting", JBool true);
            ("dga", JBool true);
            ("nrd", JBool true);
            ("ddns", JBool true);
            ("parking", JBool true);
            ("csam", JBool true);
            ("tlds",
             JArr [ JObj [("id", JStr "example1")];
                    JObj [("id", JStr "example2")];
                    JObj [("id", JStr "example3")] ]) ]);
    ("privacy",
     JObj [ ("disguisedTrackers", JBool true);
            ("allowAffiliate", JBool true);
            ("blocklists",
             JArr [ JObj [("id", JStr "nextdns-recommended")];
                    JObj [("id", JStr "steven-black")] ]);
            ("natives",
             JArr [ JObj [("id", JStr "windows")];
                    JObj [("id", JStr "apple")];
                    JObj [("id", JStr "samsung")] ]) ]);
    ("parentalControl",
     JObj [ ("safeSearch", JBool true);
            ("youtubeRestrictedMode", JBool true);
            ("blockBypass", JBool true);
            ("services",
             JArr [ JObj [("id", JStr "tiktok"); ("active", JBool true)];
                    JObj [("id", JStr "snapchat"); ("active", JBool true)] ]);
            ("categories",
             JArr [ JObj [("id", JStr "gambling"); ("active", JBool true)];
                    JObj [("id", JStr "dating"); ("active", JBool true)] ]);
            ("recreation",
             JObj [ ("times",
                     JObj [ ("monday",
                             JObj [ ("start", JStr "18:00:00");
                                    ("end", JStr "20:30:00") ]);
                            ("saturday",
                             JObj [ ("start", JStr "09:00:00");
                                    ("end", JStr "20:30:00") ]) ]);
                    ("timezone", JStr "UTC") ]) ]);
    ("settings",
     JObj [ ("logs",
             JObj [ ("enabled", JBool true);
                    ("drop", JObj [("ip", JBool false); ("domain", JBool false)]);
                    ("retention", JNum 86400);
                    ("location", JStr "us") ]);
            ("blockPage", JObj [("enabled", JBool true)]);
            ("performance",
             JObj [ ("ecs", JBool true); ("cacheBoost", JBool true);
                    ("cnameFlattening", JBool true) ]);
            ("bav", JBool true);
            ("web3", JBool true) ]);
    ("denylist",
     JArr [ JObj [("id", JStr "malware-example.com"); ("active", JBool true)];
            JObj [("id", JStr "tracker-example.net"); ("active", JBool false)] ]);
    ("allowlist",
     JArr [ JObj [("id", JStr "trusted-example.com"); ("active", JBool true)];
            JObj [("id", JStr "safe-example.org"); ("active", JBool true)] ]) ].

(** *** Vocabulary of the schema claims *)

(** The places [validateApiSchema] checks. *)
Inductive SchemaPath :=
| at_root | at_security | at_privacy | at_parentalControl | at_settings
| at_settings_logs | at_settings_performance.

Definition checked_paths : list SchemaPath :=
[ at_root; at_security; at_privacy; at_parentalControl; at_settings;
  at_settings_logs; at_settings_performance ].

Definition path_name (p : SchemaPath) : string :=
match p with
| at_root => "root"
| at_security => "security"
| at_privacy => "privacy"
| at_parentalControl => "parentalControl"
| at_settings => "settings"
| at_settings_logs => "settings.logs"
| at_settings_performance => "settings.performance"
end.

Definition known_at (p : SchemaPath) : list string :=
match p with
| at_root => KNOWN_root
| at_security => KNOWN_security
| at_privacy => KNOWN_privacy
| at_parentalControl => KNOWN_parentalControl
| at_settings => KNOWN_settings
| at_settings_logs => KNOWN_settings_logs
| at_settings_performance => KNOWN_settings_performance
end.

Definition skipped_at (p : SchemaPath) : list string :=
match p with
| at_root => SKIPPED_root
| at_parentalControl => SKIPPED_parentalControl
| _ => []
end.

(** The value found at a path of the profile. *)
Definition section_at (p : SchemaPath) (sourceData : JsVal) : JsVal :=
match p with
| at_root => sourceData
| at_security => member_opt "security" sourceData
| at_privacy => member_opt "privacy" sourceData
| at_parentalControl => member_opt "parentalControl" sourceData
| at_settings => member_opt "settings" sourceData
| at_settings_logs => member_opt "logs" (member_opt "settings" sourceData)
| at_settings_performance =>
    member_opt "performance" (member_opt "settings" sourceData)
end.

(** The keys at a path that are neither known nor skipped. *)
Definition offending (p : SchemaPath) (sourceData : JsVal) : list string :=
unknown_keys (section_at p sourceData) (known_at p) (skipped_at p).

(** A warning is about a path when it starts with the text for that path. *)
Definition about (p : SchemaPath) (warning : string) : bool :=
String.prefix ("Unknown field(s) at '" ++ path_name p ++ "': ") warning.

(** The sample profile with one feature the tool does not know, and with two
    of them at the root. *)
Definition drifted_profile : JsVal :=
JObj [ ("name", JStr "Test Profile");
       ("security", JObj [ ("csam", JBool true); ("newThreatProtection", JBool true) ]) ].

Definition twice_drifted_profile : JsVal :=
JObj [ ("name", JStr "Test Profile");
       ("newFeature", JBool true); ("otherFeature", JBool true) ].

(* ------------------------------------------------------------------ *)
(** ** core/copy-profile.ts: rewrites, verification, pipeline          *)
(* ------------------------------------------------------------------ *)

Record CopyProfileOptions := {
  sourceApiKey : string;
  destApiKey : string;
  sourceProfileId : string;
  force : bool
}.

Record CopyResult := {
  cr_success : bool;
  newProfileId : option JsVal;
  verificationMismatches : list string;
  skippedFields : list string;
  schemaWarnings : list string
}.

Record StepResult := { sr_success : bool; sr_message : string }.

(** [v.length]. *)
Definition js_length (v : JsVal) : JsVal :=
match v with
| JArr l => JNum (Z.of_nat (List.length l))
| JStr s => JNum (Z.of_nat (String.length s))
| JObj o => prop_of "length" o
| _ => JUndefined
end.

(** [rewrites.map((r) => ({name: r.name, content: r.content}))]. *)
Definition cleanRewrites (items : list JsVal) : Result (list JsVal) :=
map_result
  (fun r =>
     n <-- member "name" r ;;
     c <-- member "content" r ;;
     Ok (JObj [("name", n); ("content", c)]))
  items.

(** The value bound by the first [try] of [copyRewrites]: the rewrites, or
    the result returned from the [catch]. *)
Definition fetchRewrites {W : Type} (api : NextDNSApi W)
  (apiKey profileId : string) : M W (JsVal + StepResult) :=
try_catch
  (rewrites <- await (api_getRewrites api profileId apiKey) ;;
   ret (inl rewrites))
  (fun error =>
     if includes "404" error
     then ret (inr {| sr_success := true;
                      sr_message :=
                        "Rewrites endpoint not found or not supported" |})
     else ret (inr {| sr_success := false;
                      sr_message := "Could not fetch rewrites: " ++ error |})).

Definition copyRewrites {W : Type} (api : NextDNSApi W)
  (srcKey dstKey srcProfileId : string) (destProfileId : JsVal)
  : M W StepResult :=
fetched <- fetchRewrites api srcKey srcProfileId ;;
match fetched with
| inr early => ret early
| inl rewrites =>
    if negb (truthy rewrites) || strict_eq (js_length rewrites) (JNum 0) then
      ret {| sr_success := true; sr_message := "No rewrites found to copy" |}
    else
      items <- lift (as_array rewrites) ;;
      clean <- lift (cleanRewrites items) ;;
      try_catch
        (await (api_putRewrites api (to_string destProfileId) (JArr clean)
                  dstKey) ;;;
         ret {| sr_success := true;
                sr_message :=
                  "Copied " ++ to_string (js_length rewrites)
                  ++ " rewrites (PUT method)" |})
        (fun _ =>
           count <-
             forEach
               (fun count rewrite =>
                  try_catch
                    (await (api_addRewrite api (to_string destProfileId)
                              rewrite dstKey) ;;;
                     ret (S count))
                    (fun _ => ret count))
               clean 0 ;;
           ret {| sr_success := (0 <? count)%nat;
                  sr_message :=
                    "Copied " ++ string_of_nat count ++ "/"
                    ++ to_string (js_length rewrites)
                    ++ " rewrites (POST method)" |})
end.

(** A profile as [verifyClone] holds it: the fetched object with the
    rewrites stored on it. *)
Record Fetched := { f_profile : JsVal; f_rewrites : JsVal }.

(** One of the two outer [try] blocks of [verifyClone]; [None] stands for
    the early return of its [catch].  Storing [rewrites] on a value that is
    not an object throws inside the block. *)
Definition fetchForVerify {W : Type} (api : NextDNSApi W)
  (profileId apiKey : string) : M W (option Fetched) :=
try_catch
  (profile <- await (api_getProfile api profileId apiKey) ;;
   rewrites <-
     try_catch (await (api_getRewrites api profileId apiKey))
       (fun _ => ret (JArr [])) ;;
   if is_object profile
   then ret (Some {| f_profile := profile; f_rewrites := rewrites |})
   else throw "TypeError: Cannot create property 'rewrites'")
  (fun _ => ret None).

(** [array.join(sep)]. *)
Definition join_values (sep : string) (items : list JsVal) : string :=
join sep
  (map (fun x => match x with
                 | JUndefined | JNull => EmptyString
                 | _ => to_string x
                 end) items).

(** The comparisons of the loop over the boolean keys of a section. *)
Definition flagMismatches (what : string) (ks : list string) (s d : JsVal)
  : list string :=
flat_map
  (fun k =>
     if strict_eq (member_opt k s) (member_opt k d) then []
     else [ (what ++ " '" ++ k ++ "': Source=" ++ to_string (member_opt k s)
             ++ ", Dest=" ++ to_string (member_opt k d))%string ])
  ks.

(** [new Set((v || []).map((x) => x.id))]. *)
Definition idSet (v : JsVal) : Result (list JsVal) :=
items <-- as_array (js_or v (JArr [])) ;;
ids <-- map_result (member "id") items ;;
Ok (fold_left add_value ids []).

Definition set_has_value (x : JsVal) (s : list JsVal) : bool :=
existsb (strict_eq x) s.

Definition idSetMismatch (text : string) (s d : JsVal)
  : Result (list string) :=
sIds <-- idSet s ;;
dIds <-- idSet d ;;
match filter (fun x => negb (set_has_value x dIds)) sIds
      ++ filter (fun x => negb (set_has_value x sIds)) dIds with
| [] => Ok []
| diff => Ok [(text ++ join_values ", " diff)%string]
end.

(** [Object.fromEntries((v || []).map((x) => [x.id, x.active ?? dflt]))]. *)
Definition activeMap (dflt : bool) (v : JsVal) : Result (JsObj JsVal) :=
items <-- as_array (js_or v (JArr [])) ;;
pairs <-- map_result
            (fun x =>
               i <-- member "id" x ;;
               a <-- member "active" x ;;
               Ok (to_string i, js_nullish a (JBool dflt)))
            items ;;
Ok (JsObject.fromEntries pairs).

(** [JSON.stringify(o)] of an object, which is never [undefined]. *)
Definition stringify_object (o : JsObj JsVal) : string :=
match JSON_stringify (JObj o) with
| Some s => s
| None => EmptyString
end.

Definition activeMapMismatch (text : string) (s d : JsVal)
  : Result (list string) :=
sMap <-- activeMap false s ;;
dMap <-- activeMap false d ;;
if String.eqb (stringify_object sMap) (stringify_object dMap)
then Ok [] else Ok [text].

Definition verifySecurity (src dst : JsVal) : Result (list string) :=
let sSec := member_opt "security" src in
let dSec := member_opt "security" dst in
if truthy sSec && truthy dSec then
  tlds <-- idSetMismatch "Security TLDs mismatch. Diff: "
             (member_opt "tlds" sSec) (member_opt "tlds" dSec) ;;
  Ok (flagMismatches "Security" security_flags sSec dSec ++ tlds)
else Ok [].

Definition verifyPrivacy (src dst : JsVal) : Result (list string) :=
let sPriv := member_opt "privacy" src in
let dPriv := member_opt "privacy" dst in
if truthy sPriv && truthy dPriv then
  bl <-- idSetMismatch "Blocklists mismatch. Diff: "
           (member_opt "blocklists" sPriv) (member_opt "blocklists" dPriv) ;;
  nt <-- idSetMismatch "Native blocklists mismatch. Diff: "
            (member_opt "natives" sPriv) (member_opt "natives" dPriv) ;;
  Ok (flagMismatches "Privacy" privacy_flags sPriv dPriv ++ bl ++ nt)
else Ok [].

Definition verifyParentalControl (src dst : JsVal) : Result (list string) :=
let sPc := member_opt "parentalControl" src in
let dPc := member_opt "parentalControl" dst in
if truthy sPc && truthy dPc then
  srv <-- activeMapMismatch "Parental Services mismatch"
            (member_opt "services" sPc) (member_opt "services" dPc) ;;
  cat <-- activeMapMismatch "Parental Categories mismatch"
            (member_opt "categories" sPc) (member_opt "categories" dPc) ;;
  Ok (flagMismatches "Parental Control" parental_flags sPc dPc ++ srv ++ cat)
else Ok [].

Definition verifyList (listName : string) (src dst : JsVal)
  : Result (list string) :=
sL <-- activeMap true (member_opt listName src) ;;
dL <-- activeMap true (member_opt listName dst) ;;
let sCount := List.length (JsObject.keys sL) in
let dCount := List.length (JsObject.keys dL) in
if (sCount =? dCount)%nat then Ok []
else Ok [ (listName ++ " mismatch. Source count=" ++ string_of_nat sCount
           ++ ", Dest count=" ++ string_of_nat dCount)%string ].

Definition settings_keys : list string :=
[ "logs"; "blockPage"; "performance"; "web3"; "bav" ].

Definition verifySettings (src dst : JsVal) : list string :=
let sSet := member_opt "settings" src in
let dSet := member_opt "settings" dst in
if truthy sSet && truthy dSet then
  flat_map
    (fun k =>
       if option_string_eqb (JSON_stringify (member_opt k sSet))
            (JSON_stringify (member_opt k dSet))
       then [] else [("Settings '" ++ k ++ "' mismatch")%string])
    settings_keys
else if truthy sSet || truthy dSet then
  ["Settings mismatch: one profile has settings, the other does not"]
else [].

(** [cleanRw]: the set of the serialized name-content pairs. *)
Definition cleanRw (v : JsVal) : Result (list string) :=
items <-- as_array (js_or v (JArr [])) ;;
texts <-- map_result
            (fun r =>
               n <-- member "name" r ;;
               c <-- member "content" r ;;
               Ok (stringify_object [("name", n); ("content", c)]))
            items ;;
Ok (fold_left add_string texts []).

Definition verifyRewrites (src dst : Fetched) : Result (list string) :=
sRw <-- cleanRw (f_rewrites src) ;;
dRw <-- cleanRw (f_rewrites dst) ;;
if negb (List.length sRw =? List.length dRw)%nat
   || negb (forallb (fun x => set_has x dRw) sRw)
then Ok [ ("Rewrites mismatch. Source count="
           ++ string_of_nat (List.length sRw)
           ++ ", Dest count=" ++ string_of_nat (List.length dRw))%string ]
else Ok [].

(** The body of [verifyClone] after the two fetches. *)
Definition compareClone (src dst : Fetched) : Result (list string) :=
sec <-- verifySecurity (f_profile src) (f_profile dst) ;;
priv <-- verifyPrivacy (f_profile src) (f_profile dst) ;;
pc <-- verifyParentalControl (f_profile src) (f_profile dst) ;;
den <-- verifyList "denylist" (f_profile src) (f_profile dst) ;;
allow <-- verifyList "allowlist" (f_profile src) (f_profile dst) ;;
rw <-- verifyRewrites src dst ;;
Ok (sec ++ priv ++ pc ++ den ++ allow
    ++ verifySettings (f_profile src) (f_profile dst) ++ rw).

Definition skipped_source : string :=
"Verification skipped: could not fetch source profile".

Definition skipped_destination : string :=
"Verification skipped: could not fetch destination profile".

Definition verifyClone {W : Type} (api : NextDNSApi W)
  (srcKey dstKey srcProfileId : string) (destProfileId : JsVal)
  : M W (list string) :=
s <- fetchForVerify api srcProfileId srcKey ;;
match s with
| None => ret [skipped_source]
| Some src =>
    d <- fetchForVerify api (to_string destProfileId) dstKey ;;
    match d with
    | None => ret [skipped_destination]
    | Some dst => lift (compareClone src dst)
    end
end.

Definition getSkippedFields (sourceData : JsVal) : list string :=
flat_map
  (fun field =>
     if truthy (member_opt field sourceData)
     then [(field ++ ": Auto-generated by NextDNS for new profile")%string]
     else [])
  ["id"; "fingerprint"; "setup"]
++ (if truthy (member_opt "recreation" (member_opt "parentalControl" sourceData))
    then ["parentalControl.recreation: Not supported by API for write operations"]
    else []).

(** Step 1: [None] stands for the [return result] of the [catch]. *)
Definition fetchSource {W : Type} (api : NextDNSApi W)
  (options : CopyProfileOptions) : M W (option JsVal) :=
emit (StepStart "Fetch source profile") ;;;
try_catch
  (sourceData <-
     await (api_getProfile api (sourceProfileId options) (sourceApiKey options)) ;;
   nm <- lift (member "name" sourceData) ;;
   emit (StepComplete "Fetch source profile" true
           ("Fetched " ++ dquote ++ to_string nm ++ dquote)) ;;;
   ret (Some sourceData))
  (fun error =>
     emit (StepComplete "Fetch source profile" false error) ;;;
     ret None).

(** Step 2: [None] stands for the [return result] of the [catch]. *)
Definition createDestination {W : Type} (api : NextDNSApi W)
  (options : CopyProfileOptions) (payload : JsObj JsVal)
  : M W (option JsVal) :=
try_catch
  (newProfile <-
     await (api_createProfile api (JObj payload) (destApiKey options)) ;;
   newId <- lift (member "id" newProfile) ;;
   emit (StepComplete "Create new profile" true
           ("Created profile: " ++ to_string newId)) ;;;
   ret (Some newId))
  (fun error =>
     emit (StepComplete "Create new profile" false error) ;;;
     ret None).

(** Steps 3 and 4 and the final result. *)
Definition finishCopy {W : Type} (api : NextDNSApi W)
  (options : CopyProfileOptions) (sourceData : JsVal)
  (warnings : list string) (newId : JsVal) : M W CopyResult :=
emit (StepStart "Copy rewrites") ;;;
rewriteResult <-
  copyRewrites api (sourceApiKey options) (destApiKey options)
    (sourceProfileId options) newId ;;
emit (StepComplete "Copy rewrites" (sr_success rewriteResult)
        (sr_message rewriteResult)) ;;;
emit (StepStart "Verify clone") ;;;
mismatches <-
  verifyClone api (sourceApiKey options) (destApiKey options)
    (sourceProfileId options) newId ;;
emit (match mismatches with
      | [] => StepComplete "Verify clone" true "Profile verified successfully"
      | _ =>
          StepComplete "Verify clone" false
            (string_of_nat (List.length mismatches) ++ " discrepancies found")
      end) ;;;
ret {| cr_success := true;
       newProfileId := Some newId;
       verificationMismatches := mismatches;
       skippedFields := getSkippedFields sourceData;
       schemaWarnings := warnings |}.

Definition copyProfile {W : Type} (api : NextDNSApi W)
  (options : CopyProfileOptions) : M W CopyResult :=
let result :=
  {| cr_success := false; newProfileId := None; verificationMismatches := [];
     skippedFields := []; schemaWarnings := [] |} in
fetched <- fetchSource api options ;;
match fetched with
| None => ret result
| Some sourceData =>
    warnings <- lift (validateApiSchema sourceData) ;;
    let result :=
      {| cr_success := false; newProfileId := None;
         verificationMismatches := []; skippedFields := [];
         schemaWarnings := warnings |} in
    stop <-
      match warnings with
      | [] => ret false
      | _ =>
          emit (Warning warnings) ;;;
          if negb (force options) then
            emit (StepComplete "Schema validation" false
                    "Unknown fields detected. Use --force to proceed anyway.") ;;;
            ret true
          else ret false
      end ;;
    if (stop : bool) then ret result
    else
      emit (StepStart "Create new profile") ;;;
      payload <- lift (reconstructPayload sourceData) ;;
      created <- createDestination api options payload ;;
      match created with
      | None => ret result
      | Some newId => finishCopy api options sourceData warnings newId
      end
end.

(** *** Shape of the data returned by the vendor *)

(** An entry list: absent, or an array none of whose items is [null]. *)
Definition entry_list (v : JsVal) : bool :=
match js_or v (JArr []) with
| JArr l => forallb (fun x => negb (is_nullish x)) l
| _ => false
end.

(** Every entry list of a profile is one. *)
Definition well_shaped (data : JsVal) : bool :=
entry_list (member_opt "tlds" (member_opt "security" data))
&& entry_list (member_opt "blocklists" (member_opt "privacy" data))
&& entry_list (member_opt "natives" (member_opt "privacy" data))
&& entry_list (member_opt "services" (member_opt "parentalControl" data))
&& entry_list (member_opt "categories" (member_opt "parentalControl" data))
&& entry_list (member_opt "denylist" data)
&& entry_list (member_opt "allowlist" data).

(** *** A scripted client *)

Definition sample_rewrites : JsVal :=
JArr [ JObj [ ("id", JStr "r1"); ("name", JStr "nas.home");
              ("content", JStr "192.0.2.10"); ("type", JStr "A") ] ].

(** A client over a call counter.  The calls whose number is in [fails]
    throw; the others answer with the sample profile, its rewrites, or the
    new profile "new123". *)
Definition answer (A : Type) (fails : list nat) (a : A) (w : nat)
  : Result A * nat :=
if existsb (Nat.eqb w) fails then (Throw "HTTP 503", S w) else (Ok a, S w).

Definition scripted (fails : list nat) : NextDNSApi nat :=
{| api_getProfiles := fun _ w => answer fails three_profiles w;
   api_getProfile := fun _ _ w => answer fails SAMPLE_PROFILE_DATA w;
   api_createProfile := fun _ _ w =>
     answer fails (JObj [("id", JStr "new123")]) w;
   api_addDomain := fun _ _ _ _ _ w => answer fails tt w;
   api_updateDomainStatus := fun _ _ _ _ _ w => answer fails tt w;
   api_removeDomain := fun _ _ _ _ w => answer fails tt w;
   api_getRewrites := fun _ _ w => answer fails sample_rewrites w;
   api_addRewrite := fun _ _ _ w => answer fails tt w;
   api_putRewrites := fun _ _ _ w => answer fails tt w |}.

Definition copy_options : CopyProfileOptions :=
{| sourceApiKey := "src-key"; destApiKey := "dst-key";
   sourceProfileId := "abc123"; force := false |}.

(** *** Vocabulary of the pipeline claims *)

(** The source profile and the world after its fetch, when the fetch gave a
    profile. *)
Definition sourceFetched {W : Type} (api : NextDNSApi W)
  (options : CopyProfileOptions) (st : State W) : option (JsVal * W) :=
match api_getProfile api (sourceProfileId options) (sourceApiKey options)
        (world st) with
| (Ok data, w) => if is_nullish data then None else Some (data, w)
| (Throw _, _) => None
end.

(** The three terminal failures. *)
Definition FetchFails {W : Type} (api : NextDNSApi W)
  (options : CopyProfileOptions) (st : State W) : Prop :=
sourceFetched api options st = None.

Definition SchemaGate {W : Type} (api : NextDNSApi W)
  (options : CopyProfileOptions) (st : State W) : Prop :=
exists data w warnings,
  sourceFetched api options st = Some (data, w)
  /\ validateApiSchema data = Ok warnings
  /\ warnings <> []
  /\ force options = false.

Definition CreateFails {W : Type} (api : NextDNSApi W)
  (options : CopyProfileOptions) (st : State W) : Prop :=
exists data w warnings payload,
  sourceFetched api options st = Some (data, w)
  /\ validateApiSchema data = Ok warnings
  /\ (warnings = [] \/ force options = true)
  /\ reconstructPayload data = Ok payload
  /\ match api_createProfile api (JObj payload) (destApiKey options) w with
     | (Ok created, _) => is_nullish created = true
     | (Throw _, _) => True
     end.

(** What the schema step adds to the log when the pipeline goes on. *)
Definition gate_log (warnings : list string) : list Event :=
match warnings with
| [] => []
| _ => [Warning warnings]
end.

(* ------------------------------------------------------------------ *)
(** ** core/sync-lists.ts: execution                                   *)
(* ------------------------------------------------------------------ *)

Inductive SyncTarget := st_both | st_denylist | st_allowlist.

(** [dryRun] is optional: an absent flag is [false]. *)
Record SyncListsOptions := {
  so_apiKey : string;
  so_listType : SyncTarget;
  so_profileIds : option (list string);
  so_dryRun : bool
}.

Record SyncResult := {
  res_operation : SyncOperation;
  res_success : bool;
  res_error : option string
}.

(** The callbacks of the caller: each is absent, or a function that may act
    on the world and may throw. *)
Record SyncCallbacks (W : Type) : Type := {
  onProgress : option (SyncResult -> nat -> nat -> M W unit);
  onAnalysisComplete : option (SyncAnalysis -> M W unit)
}.

Record ExecResult := {
  addSuccess : nat;
  addFail : nat;
  updateSuccess : nat;
  updateFail : nat;
  exec_results : list SyncResult
}.

(** The loop of [rateLimitedRequest]: [attempts] turns are left and
    [lastError] is the error of the previous turn.  A thrown value is known
    by the text a catch site reads from it, so that the [undefined] thrown
    when no turn was made is the text "undefined".  The calls of [sleep]
    only delay; they are left out here as in the analysis. *)
Fixpoint retryLoop {W A : Type} (fn : M W A) (attempts : nat)
  (lastError : option string) : M W A :=
match attempts with
| 0 =>
    throw (match lastError with Some e => e | None => "undefined" end)
| S n =>
    try_catch fn
      (fun error =>
         if includes "rateLimit" error then retryLoop fn n (Some error)
         else throw error)
end.

Definition rateLimitedRequest {W A : Type} (fn : M W A) (maxRetries : nat)
  : M W A :=
retryLoop fn maxRetries None.

(** [operations.push(...)] for the lists the target selects. *)
Definition selectedOperations (listType : SyncTarget) (analysis : SyncAnalysis)
  : list SyncOperation :=
(match listType with
 | st_both | st_denylist =>
     la_toAdd (sa_denylist analysis) ++ la_toUpdate (sa_denylist analysis)
 | st_allowlist => []
 end)
++ (match listType with
    | st_both | st_allowlist =>
        la_toAdd (sa_allowlist analysis) ++ la_toUpdate (sa_allowlist analysis)
    | st_denylist => []
    end).

(** The request made for one operation, inside its [try]. *)
Definition requestOperation {W : Type} (api : NextDNSApi W) (apiKey : string)
  (op : SyncOperation) : M W unit :=
match type op with
| op_add =>
    rateLimitedRequest
      (await (api_addDomain api (profileId op) (domain op) (listType op)
                (shouldBeActive op) apiKey))
      3
| op_update =>
    rateLimitedRequest
      (await (api_updateDomainStatus api (profileId op) (domain op)
                (listType op) (shouldBeActive op) apiKey))
      3
end.

(** The result recorded for an operation whose request ended with [error]
    ([None] when it succeeded). *)
Definition resultOf (op : SyncOperation) (error : option string) : SyncResult :=
{| res_operation := op;
   res_success := match error with None => true | Some _ => false end;
   res_error := error |}.

(** The counters after the [try] and the [catch], and the pushed result. *)
Definition counted (acc : ExecResult) (op : SyncOperation)
  (error : option string) : ExecResult :=
let rs := exec_results acc ++ [resultOf op error] in
match error, type op with
| None, op_add =>
    {| addSuccess := S (addSuccess acc); addFail := addFail acc;
       updateSuccess := updateSuccess acc; updateFail := updateFail acc;
       exec_results := rs |}
| None, op_update =>
    {| addSuccess := addSuccess acc; addFail := addFail acc;
       updateSuccess := S (updateSuccess acc); updateFail := updateFail acc;
       exec_results := rs |}
| Some _, op_add =>
    {| addSuccess := addSuccess acc; addFail := S (addFail acc);
       updateSuccess := updateSuccess acc; updateFail := updateFail acc;
       exec_results := rs |}
| Some _, op_update =>
    {| addSuccess := addSuccess acc; addFail := addFail acc;
       updateSuccess := updateSuccess acc; updateFail := S (updateFail acc);
       exec_results := rs |}
end.

(** [cb?.(...)]. *)
Definition progress {W : Type} (cbs : SyncCallbacks W) (result : SyncResult)
  (completed total : nat) : M W unit :=
match onProgress cbs with
| Some f => f result completed total
| None => ret tt
end.

(** The loop of [executeSync] from index [i] on. *)
Fixpoint executeLoop {W : Type} (api : NextDNSApi W) (apiKey : string)
  (cbs : SyncCallbacks W) (total : nat) (operations : list SyncOperation)
  (i : nat) (acc : ExecResult) : M W ExecResult :=
match operations with
| [] => ret acc
| op :: rest =>
    error <-
      try_catch (requestOperation api apiKey op ;;; ret None)
        (fun error => ret (Some error)) ;;
    progress cbs (resultOf op error) (S i) total ;;;
    executeLoop api apiKey cbs total rest (S i) (counted acc op error)
end.

Definition no_results : ExecResult :=
{| addSuccess := 0; addFail := 0; updateSuccess := 0; updateFail := 0;
   exec_results := [] |}.

Definition executeSync {W : Type} (api : NextDNSApi W)
  (options : SyncListsOptions) (analysis : SyncAnalysis)
  (cbs : SyncCallbacks W) : M W ExecResult :=
if so_dryRun options then ret no_results
else
  let operations := selectedOperations (so_listType options) analysis in
  executeLoop api (so_apiKey options) cbs (List.length operations)
    operations 0 no_results.

Definition syncLists {W : Type} (api : NextDNSApi W)
  (options : SyncListsOptions) (cbs : SyncCallbacks W)
  : M W (SyncAnalysis * ExecResult) :=
r <- analyzeSync api
       {| ao_apiKey := so_apiKey options;
          ao_profileIds := so_profileIds options |} ;;
(match onAnalysisComplete cbs with
 | Some f => f (snd r)
 | None => ret tt
 end) ;;;
execResult <- executeSync api options (snd r) cbs ;;
ret (snd r, execResult).

(** *** Vocabulary of the execution properties *)

(** The state after [k] calls of [fn] in a row. *)
Fixpoint after_calls {W A : Type} (fn : M W A) (k : nat) (st : State W)
  : State W :=
match k with
| 0 => st
| S n => after_calls fn n (snd (fn st))
end.

(** The call was answered by a rate-limit error. *)
Definition rate_limited {A S : Type} (r : Result A * S) : bool :=
match fst r with
| Throw e => includes "rateLimit" e
| Ok _ => false
end.

(** The callback for progress is absent, or returns whenever called. *)
Definition progress_returns {W : Type} (cbs : SyncCallbacks W) : Prop :=
forall result completed total st,
  exists st', progress cbs result completed total st = (Ok tt, st').

Definition is_add (op : SyncOperation) : bool :=
match type op with op_add => true | op_update => false end.

(** The counter of the operations of kind [adds] that ended with outcome
    [ok], read off the result list. *)
Definition tally (adds ok : bool) (rs : list SyncResult) : nat :=
List.length
  (filter
     (fun r =>
        Bool.eqb (is_add (res_operation r)) adds && Bool.eqb (res_success r) ok)
     rs).

(** Two clients answer the reading calls alike. *)
Definition same_reads {W : Type} (api api' : NextDNSApi W) : Prop :=
api_getProfiles api = api_getProfiles api'
/\ api_getProfile api = api_getProfile api'.

Definition no_callbacks (W : Type) : SyncCallbacks W :=
{| onProgress := None; onAnalysisComplete := None |}.

(** A client over a call counter that answers the first [n] calls with a
    rate-limit error and every later call with success. *)
Definition throttled (n : nat) : NextDNSApi nat :=
let answer (A : Type) (a : A) (w : nat) : Result A * nat :=
  if (w <? n)%nat then (Throw "rateLimit exceeded", S w) else (Ok a, S w) in
{| api_getProfiles := fun _ w => answer _ three_profiles w;
   api_getProfile := fun _ _ w => answer _ sample_lists w;
   api_createProfile := fun _ _ w => answer _ (JObj []) w;
   api_addDomain := fun _ _ _ _ _ w => answer _ tt w;
   api_updateDomainStatus := fun _ _ _ _ _ w => answer _ tt w;
   api_removeDomain := fun _ _ _ _ w => answer _ tt w;
   api_getRewrites := fun _ _ w => answer _ (JArr []) w;
   api_addRewrite := fun _ _ _ w => answer _ tt w;
   api_putRewrites := fun _ _ _ w => answer _ tt w |}.

Definition sync_options (target : SyncTarget) (dry : bool)
  : SyncListsOptions :=
{| so_apiKey := "key"; so_listType := target; so_profileIds := None;
   so_dryRun := dry |}.

(** The error of the entry guard shared by [analyzeSync] and
    [diffProfiles]: [selected] are the profiles left after the filter. *)
Definition guard_message (what : string) (profileIds : option (list string))
  (selected : list Profile) : string :=
match profileIds, selected with
| Some (i :: ids), [] =>
    "None of the specified profiles found: " ++ join ", " (i :: ids)
| _, _ => "Need at least 2 profiles to " ++ what
end.

(** The number of profiles whose list holds [dom]. *)
Definition holderCount (dom : string) (lt : ListType)
  (allData : JsObj ProfileListData) : nat :=
votes (fun _ => true) dom lt allData.

(** The operations of a list that concern the domain [dom]. *)
Definition opsFor (dom : string) (ops : list SyncOperation)
  : list SyncOperation :=
filter (fun op => String.eqb (domain op) dom) ops.

(** Every flag of the list is a boolean, as its type says. *)
Definition booleans (l : JsObj JsVal) : bool :=
forallb (fun e => match snd e with JBool _ => true | _ => false end) l.

(** The plan for the denylists of the three profiles of the scenario. *)
Definition scenario_analysis : SyncAnalysis :=
let canon := getCanonicalDomains scenario_data denylist in
let ops := calculateSyncOperations scenario_data canon denylist in
{| sa_denylist :=
     {| canonical := canon; la_toAdd := toAdd ops;
        la_toUpdate := toUpdate ops |};
   sa_allowlist :=
     {| canonical := []; la_toAdd := []; la_toUpdate := [] |};
   totalUniqueInDenylist := List.length (JsObject.keys canon);
   totalUniqueInAllowlist := 0;
   estimatedTimeMinutes := QArith_base.Qmake 0 1 |}.

Definition one_profile : NextDNSApi nat :=
{| api_getProfiles := fun _ w => (Ok [ {| id := "p1"; name := "Home" |} ], S w);
   api_getProfile := fun _ _ w => (Ok sample_lists, S w);
   api_createProfile := fun _ _ w => (Ok (JObj []), S w);
   api_addDomain := fun _ _ _ _ _ w => (Ok tt, S w);
   api_updateDomainStatus := fun _ _ _ _ _ w => (Ok tt, S w);
   api_removeDomain := fun _ _ _ _ w => (Ok tt, S w);
   api_getRewrites := fun _ _ w => (Ok (JArr []), S w);
   api_addRewrite := fun _ _ _ w => (Ok tt, S w);
   api_putRewrites := fun _ _ _ w => (Ok tt, S w) |}.

(* ------------------------------------------------------------------ *)
(** ** core/manage-domain.ts: vocabulary of its properties             *)
(* ------------------------------------------------------------------ *)

(** The error [manageDomain] throws when no profile is left to work on. *)
Definition no_target_message (profileIds : option (list string)) : string :=
match profileIds with
| Some (i :: ids) =>
    "None of the specified profiles found: " ++ join ", " (i :: ids)
| _ => "No profiles found"
end.

(** The number of recorded results with the outcome [ok]. *)
Definition outcomes (ok : bool) (rs : list OperationResult) : nat :=
List.length (filter (fun r => Bool.eqb (or_success r) ok) rs).

(** The call [manageDomain] makes for a profile, and its answer. *)
Definition actionCall {W : Type} (api : NextDNSApi W)
  (options : ManageDomainOptions) (profile : Profile) (w : W)
  : Result unit * W :=
match md_action options with
| add =>
    api_addDomain api (id profile) (md_domain options) (md_listType options)
      true (md_apiKey options) w
| remove =>
    api_removeDomain api (id profile) (md_domain options)
      (md_listType options) (md_apiKey options) w
| enable =>
    api_updateDomainStatus api (id profile) (md_domain options)
      (md_listType options) true (md_apiKey options) w
| disable =>
    api_updateDomainStatus api (id profile) (md_domain options)
      (md_listType options) false (md_apiKey options) w
end.

(** A client over a call counter with no profile at all. *)
Definition no_profiles : NextDNSApi nat :=
{| api_getProfiles := fun _ w => (Ok [], S w);
   api_getProfile := fun _ _ w => (Ok (JObj []), S w);
   api_createProfile := fun _ _ w => (Ok (JObj []), S w);
   api_addDomain := fun _ _ _ _ _ w => (Ok tt, S w);
   api_updateDomainStatus := fun _ _ _ _ _ w => (Ok tt, S w);
   api_removeDomain := fun _ _ _ _ w => (Ok tt, S w);
   api_getRewrites := fun _ _ w => (Ok (JArr []), S w);
   api_addRewrite := fun _ _ _ w => (Ok tt, S w);
   api_putRewrites := fun _ _ _ w => (Ok tt, S w) |}.

(** A client whose [addDomain] answers that the domain was not found. *)
Definition addRefused : NextDNSApi nat :=
{| api_getProfiles := fun _ w => (Ok two_profiles, S w);
   api_getProfile := fun _ _ w => (Ok (JObj []), S w);
   api_createProfile := fun _ _ w => (Ok (JObj []), S w);
   api_addDomain := fun _ _ _ _ _ w => (Throw "profile not found", S w);
   api_updateDomainStatus := fun _ _ _ _ _ w => (Ok tt, S w);
   api_removeDomain := fun _ _ _ _ w => (Ok tt, S w);
   api_getRewrites := fun _ _ w => (Ok (JArr []), S w);
   api_addRewrite := fun _ _ _ w => (Ok tt, S w);
   api_putRewrites := fun _ _ _ w => (Ok tt, S w) |}.

(* ------------------------------------------------------------------ *)
(** ** core/copy-profile.ts: vocabulary of the payload properties      *)
(* ------------------------------------------------------------------ *)

(** The keys a payload can hold, and those copied from the source. *)
Definition section_keys : list string :=
[ "security"; "privacy"; "parentalControl"; "denylist"; "allowlist";
  "settings" ].

Definition payload_keys : list string := "name" :: section_keys.

(** The sections made of flags: their flags and the value a missing flag
    gets in the payload. *)
Definition flag_sections : list (string * (list string * bool)) :=
[ ("security", (security_flags, true));
  ("privacy", (privacy_flags, true));
  ("parentalControl", (parental_flags, false)) ].

(** The name given to the copy. *)
Definition copy_name (sourceData : JsVal) : string :=
to_string (js_or (member_opt "name" sourceData) (JStr "Cloned Profile"))
++ " (Copy)".

(** The two places below [settings] that [validateApiSchema] checks. *)
Definition below_settings (p : SchemaPath) : bool :=
match p with
| at_settings_logs | at_settings_performance => true
| _ => false
end.

(** What [if (src.k) payload.k = f(src.k)] leaves under [k] in a payload
    that did not hold [k]: the value built from a truthy [v], nothing
    otherwise. *)
Definition stored (f : JsVal -> Result JsVal) (v : JsVal)
  (got : option JsVal) : Prop :=
if truthy v then exists x, f v = Ok x /\ got = Some x else got = None.

(** *** A source of the declared type *)

(** A value that is equal to itself under [===]: not an object. *)
Definition comparable (v : JsVal) : bool := negb (is_object v).

(** The flags of a section are booleans, numbers or strings. *)
Definition flags_typed (flags : list string) (section : JsVal) : bool :=
negb (truthy section)
|| forallb
     (fun k => comparable (member_opt k section)
               && negb (is_nullish (member_opt k section)))
     flags.

(** The entries of a list have identifiers that are not objects. *)
Definition ids_typed (v : JsVal) : bool :=
match js_or v (JArr []) with
| JArr l => forallb (fun x => comparable (member_opt "id" x)) l
| _ => true
end.

(** Each of the three settings copied when truthy is truthy or absent. *)
Definition settings_typed (settings : JsVal) : bool :=
forallb
  (fun k => truthy (member_opt k settings)
            || is_undefined (member_opt k settings))
  ["logs"; "blockPage"; "performance"].

Definition typed_profile (sourceData : JsVal) : bool :=
flags_typed security_flags (member_opt "security" sourceData)
&& ids_typed (member_opt "tlds" (member_opt "security" sourceData))
&& flags_typed privacy_flags (member_opt "privacy" sourceData)
&& ids_typed (member_opt "blocklists" (member_opt "privacy" sourceData))
&& ids_typed (member_opt "natives" (member_opt "privacy" sourceData))
&& flags_typed parental_flags (member_opt "parentalControl" sourceData)
&& settings_typed (member_opt "settings" sourceData).

(** A source whose security section lacks the flag csam. *)
Definition flagless_profile : JsVal :=
JObj [ ("name", JStr "Test Profile");
       ("security", JObj [ ("nrd", JBool true) ]) ].

(** The sections made of flags with the name [verifyClone] reports them
    under. *)
Definition reported_sections : list (string * string * list string * bool) :=
[ ("security", "Security", security_flags, true);
  ("privacy", "Privacy", privacy_flags, true);
  ("parentalControl", "Parental Control", parental_flags, false) ].

(** The mismatch reported for a flag. *)
Definition flag_report (what k : string) (s d : JsVal) : string :=
what ++ " '" ++ k ++ "': Source=" ++ to_string s ++ ", Dest=" ++ to_string d.

Definition sample_rewrite_items : list JsVal :=
[ JObj [ ("id", JStr "r1"); ("name", JStr "nas.home");
         ("content", JStr "192.0.2.10"); ("type", JStr "A") ] ].

(** What the callbacks hear when a copy is refused at the schema gate. *)
Definition refusal_log (sourceData : JsVal) (warnings : list string)
  : list Event :=
[ StepStart "Fetch source profile";
  StepComplete "Fetch source profile" true
    ("Fetched " ++ dquote ++ to_string (member_opt "name" sourceData)
     ++ dquote);
  Warning warnings;
  StepComplete "Schema validation" false
    "Unknown fields detected. Use --force to proceed anyway." ].

(** A client over a call counter that serves the drifted profile. *)
Definition drifted : NextDNSApi nat :=
{| api_getProfiles := fun _ w => (Ok three_profiles, S w);
   api_getProfile := fun _ _ w => (Ok drifted_profile, S w);
   api_createProfile := fun _ _ w => (Ok (JObj [("id", JStr "new123")]), S w);
   api_addDomain := fun _ _ _ _ _ w => (Ok tt, S w);
   api_updateDomainStatus := fun _ _ _ _ _ w => (Ok tt, S w);
   api_removeDomain := fun _ _ _ _ w => (Ok tt, S w);
   api_getRewrites := fun _ _ w => (Ok (JArr []), S w);
   api_addRewrite := fun _ _ _ w => (Ok tt, S w);
   api_putRewrites := fun _ _ _ w => (Ok tt, S w) |}.

(** Every single [addRewrite] to the destination succeeds, or none does. *)
Definition posts_all {W : Type} (api : NextDNSApi W) (destId dstKey : string)
  : Prop :=
forall rewrite w, exists w', api_addRewrite api destId rewrite dstKey w = (Ok tt, w').

Definition posts_none {W : Type} (api : NextDNSApi W) (destId dstKey : string)
  : Prop :=
forall rewrite w,
  exists e w', api_addRewrite api destId rewrite dstKey w = (Throw e, w').

(** A client over a call counter whose bulk [putRewrites] is refused. *)
Definition putRefused : NextDNSApi nat :=
{| api_getProfiles := fun _ w => (Ok three_profiles, S w);
   api_getProfile := fun _ _ w => (Ok SAMPLE_PROFILE_DATA, S w);
   api_createProfile := fun _ _ w => (Ok (JObj [("id", JStr "new123")]), S w);
   api_addDomain := fun _ _ _ _ _ w => (Ok tt, S w);
   api_updateDomainStatus := fun _ _ _ _ _ w => (Ok tt, S w);
   api_removeDomain := fun _ _ _ _ w => (Ok tt, S w);
   api_getRewrites := fun _ _ w => (Ok (JArr sample_rewrite_items), S w);
   api_addRewrite := fun _ _ _ w => (Ok tt, S w);
   api_putRewrites := fun _ _ _ w => (Throw "HTTP 405", S w) |}.

(** A client whose rewrites endpoint does not exist. *)
Definition noRewrites : NextDNSApi nat :=
{| api_getProfiles := fun _ w => (Ok three_profiles, S w);
   api_getProfile := fun _ _ w => (Ok SAMPLE_PROFILE_DATA, S w);
   api_createProfile := fun _ _ w => (Ok (JObj [("id", JStr "new123")]), S w);
   api_addDomain := fun _ _ _ _ _ w => (Ok tt, S w);
   api_updateDomainStatus := fun _ _ _ _ _ w => (Ok tt, S w);
   api_removeDomain := fun _ _ _ _ w => (Ok tt, S w);
   api_getRewrites := fun _ _ w => (Throw "HTTP 404", S w);
   api_addRewrite := fun _ _ _ w => (Ok tt, S w);
   api_putRewrites := fun _ _ _ w => (Ok tt, S w) |}.

(* ------------------------------------------------------------------ *)
(** ** core/diff-profiles.ts: vocabulary of the table properties       *)
(* ------------------------------------------------------------------ *)

(** The domains the rows of a list comparison are about, in row order. *)
Definition row_domains (rws : list DiffRow) : list string :=
map (fun r => to_string (label r)) rws.

(** A profile lists the item: its [itemMap] has the item's key. *)
Definition lists_item (sn : SectionName) (field : string) (itemId : JsVal)
  (pdata : ProfileDiffData) : bool :=
JsObject.has (to_string itemId) (itemMap_of (items_of sn field pdata)).

(** The section a table belongs to, by its title. *)
Definition table_section (ttl : string) : DiffSection :=
if String.eqb ttl "Security Settings" then ds_security
else if String.eqb ttl "Privacy Settings" || String.eqb ttl "Blocklists"
        || String.eqb ttl "Native Tracking Protection" then ds_privacy
else if String.eqb ttl "Parental Control Settings"
        || String.eqb ttl "Blocked Services"
        || String.eqb ttl "Blocked Categories" then ds_parental
else if String.eqb ttl "General Settings" then ds_settings
else if String.eqb ttl "Denylist" || String.eqb ttl "Allowlist" then ds_lists
else ds_all.

(** What holds of every table [generateDiffTables] returns. *)
Definition table_ok (section : DiffSection) (diffOnly : bool) (t : DiffTable)
  : Prop :=
rows t <> []
/\ diffCount t = List.length (filter hasDiff (rows t))
/\ (diffOnly = true -> forallb hasDiff (rows t) = true)
/\ section_is section (table_section (title t)) = true.

(** Two profiles with different deny lists. *)
Definition listed_profile (nm : string) (deny : JsObj JsVal)
  : ProfileDiffData :=
{| pdd_name := nm; pdd_denylist := deny; pdd_allowlist := [];
   pdd_security := JObj []; pdd_privacy := JObj [];
   pdd_parentalControl := JObj []; pdd_settings := JObj [] |}.

Definition two_lists : JsObj ProfileDiffData :=
[ ("p1", listed_profile "Home" [("b.example", JBool true)]);
  ("p2", listed_profile "Office"
           [("c.example", JBool true); ("a.example", JBool false)]) ].

Definition two_lists_swapped : JsObj ProfileDiffData :=
[ ("p2", listed_profile "Office"
           [("c.example", JBool true); ("a.example", JBool false)]);
  ("p1", listed_profile "Home" [("b.example", JBool true)]) ].

(* ================================================================== *)
(** * Properties                                                       *)
(* ================================================================== *)

Unset Implicit Arguments.

Ltac str_cases :=
  repeat match goal with
         | |- context [String.eqb ?a ?b] =>
             destruct (String.eqb_spec a b); subst
         | H : context [String.eqb ?a ?b] |- _ =>
             destruct (String.eqb_spec a b); subst
         end;
  simpl in *; try congruence; try reflexivity.

Module JsObjectFacts.
Import JsObject.

Section Facts.
Variable V : Type.
Implicit Types (o : t V) (k : string) (v : V).

Lemma get_update k k' (f : V -> V) o :
  get k' (update k f o)
  = if String.eqb k' k then option_map f (get k o) else get k' o.
Proof.
  induction o as [|[k0 v0] r IH]; simpl.
  - destruct (String.eqb k' k); reflexivity.
  - destruct (String.eqb_spec k k0); subst; simpl.
    + str_cases.
    + rewrite IH. str_cases.
Qed.

Lemma get_insert_index n k v k' o :
  get k o = None ->
  get k' (insert_index n k v o) = if String.eqb k' k then Some v else get k' o.
Proof.
  induction o as [|[k0 v0] r IH]; simpl; intros H.
  - reflexivity.
  - destruct (String.eqb_spec k k0); [discriminate|].
    destruct (array_index k0) as [m|]; [destruct (m <? n)%N|]; simpl;
      try rewrite (IH H); str_cases.
Qed.

Lemma get_app_last k v k' o :
  get k' (o ++ [(k, v)])
  = match get k' o with
    | Some x => Some x
    | None => if String.eqb k' k then Some v else None
    end.
Proof.
  induction o as [|[k0 v0] r IH]; simpl.
  - reflexivity.
  - rewrite IH. str_cases.
Qed.

Lemma get_set k v k' o :
  get k' (set k v o) = if String.eqb k' k then Some v else get k' o.
Proof.
  unfold set, has. destruct (get k o) eqn:G.
  - rewrite get_update, G. reflexivity.
  - destruct (array_index k).
    + apply get_insert_index, G.
    + rewrite get_app_last. destruct (String.eqb_spec k' k); subst.
      * rewrite G. reflexivity.
      * destruct (get k' o); reflexivity.
Qed.

Lemma get_None_keys k o : get k o = None <-> ~ In k (keys o).
Proof.
  induction o as [|[k0 v0] r IH]; simpl.
  - tauto.
  - destruct (String.eqb_spec k k0); subst.
    + split; [discriminate | intros H; exfalso; apply H; now left].
    + rewrite IH. split; [intros H [E|E]; [congruence | tauto] | tauto].
Qed.

Lemma has_keys k o : has k o = true <-> In k (keys o).
Proof.
  unfold has. destruct (get k o) eqn:G.
  - split; [intros _ | reflexivity].
    destruct (in_dec string_dec k (keys o)) as [i|n]; [exact i|].
    apply get_None_keys in n. congruence.
  - split; [discriminate|]. intros i. apply get_None_keys in G. tauto.
Qed.

Lemma get_In k v o : get k o = Some v -> In (k, v) o.
Proof.
  induction o as [|[k0 v0] r IH]; simpl; [discriminate|].
  destruct (String.eqb_spec k k0); subst.
  - intros E; injection E as ->. now left.
  - intros E. right. now apply IH.
Qed.

Lemma In_get k v o : wf o -> In (k, v) o -> get k o = Some v.
Proof.
  unfold wf. induction o as [|[k0 v0] r IH]; simpl; [tauto|].
  intros N [E|E].
  - injection E as -> ->. now rewrite String.eqb_refl.
  - inversion N as [|? ? Hn Hr]; subst.
    destruct (String.eqb_spec k k0); subst.
    + exfalso. apply Hn. change (In (fst (k0, v)) (map fst r)).
      now apply in_map.
    + now apply IH.
Qed.

Lemma keys_update k (f : V -> V) o : keys (update k f o) = keys o.
Proof.
  induction o as [|[k0 v0] r IH]; simpl; [reflexivity|].
  destruct (String.eqb k k0); simpl; [reflexivity | now rewrite IH].
Qed.

Lemma keys_insert_index n k v o :
  Permutation (keys (insert_index n k v o)) (k :: keys o).
Proof.
  induction o as [|[k0 v0] r IH]; simpl; [reflexivity|].
  destruct (array_index k0) as [m|]; [destruct (m <? n)%N|]; simpl;
    try reflexivity.
  rewrite IH. apply perm_swap.
Qed.

Lemma keys_set k v o :
  Permutation (keys (set k v o)) (if has k o then keys o else k :: keys o).
Proof.
  unfold set. destruct (has k o).
  - now rewrite keys_update.
  - destruct (array_index k).
    + apply keys_insert_index.
    + unfold keys. rewrite map_app. simpl.
      symmetry. apply Permutation_cons_append.
Qed.

Lemma wf_set k v o : wf o -> wf (set k v o).
Proof.
  unfold wf. intros N.
  eapply Permutation_NoDup; [symmetry; apply keys_set|].
  destruct (has k o) eqn:H; [exact N|].
  constructor; [|exact N].
  intros i. apply has_keys in i. congruence.
Qed.

Lemma wf_update k (f : V -> V) o : wf o -> wf (update k f o).
Proof. unfold wf. now rewrite keys_update. Qed.

Lemma wf_empty : wf (@empty V).
Proof. constructor. Qed.

End Facts.

(** Filling a dictionary from the entries of another one. *)
Lemma get_fold_set (A B : Type) (f : A -> B) (es : t A) :
  wf es ->
  forall (c : t B) (d : string),
    get d (fold_left (fun c e => set (fst e) (f (snd e)) c) es c)
    = match get d es with
      | Some x => Some (f x)
      | None => get d c
      end.
Proof.
  unfold wf. induction es as [|[k x] r IH]; simpl; intros N c d.
  - reflexivity.
  - inversion N as [|? ? Hn Hr]; subst.
    rewrite (IH Hr), get_set.
    destruct (String.eqb_spec d k); subst.
    + apply get_None_keys in Hn. now rewrite Hn.
    + reflexivity.
Qed.

End JsObjectFacts.

(* ------------------------------------------------------------------ *)
(** ** The consensus engine                                            *)
(* ------------------------------------------------------------------ *)

Module SyncFacts.
Import JsObject JsObjectFacts.

Definition bump (a : JsVal) (c : Counts) : Counts :=
if truthy a
then {| enabled := S (enabled c); disabled := disabled c |}
else {| enabled := enabled c; disabled := S (disabled c) |}.

Definition zero : Counts := {| enabled := 0; disabled := 0 |}.

Definition dflt (c : option Counts) : Counts :=
match c with Some c => c | None => zero end.

(** Entries of a flat entry list that are for [d] and satisfy [pred]. *)
Definition hits (pred : JsVal -> bool) (d : string)
  (es : list (string * JsVal)) : nat :=
List.length (filter (fun e => String.eqb (fst e) d && pred (snd e)) es).

Definition any (_ : JsVal) : bool := true.
Definition falsy (v : JsVal) : bool := negb (truthy v).

Lemma get_countDomain ds e d :
  get d (countDomain ds e)
  = if String.eqb d (fst e) then Some (bump (snd e) (dflt (get (fst e) ds)))
    else get d ds.
Proof.
  unfold countDomain, has. rewrite get_update.
  destruct (get (fst e) ds) eqn:G.
  - rewrite G. reflexivity.
  - rewrite !get_set, String.eqb_refl. simpl.
    destruct (String.eqb d (fst e)); reflexivity.
Qed.

Lemma hits_any_zero pred d es : hits any d es = 0 -> hits pred d es = 0.
Proof.
  unfold hits, any. induction es as [|[k a] r IH]; simpl; [reflexivity|].
  destruct (String.eqb k d); simpl; [discriminate|]. exact IH.
Qed.

Lemma hits_cons pred d k a r :
  hits pred d ((k, a) :: r)
  = (if String.eqb k d && pred a then 1 else 0) + hits pred d r.
Proof.
  unfold hits. simpl. destruct (String.eqb k d && pred a); reflexivity.
Qed.

Lemma get_fold_countDomain es : forall ds d,
  get d (fold_left countDomain es ds)
  = match hits any d es with
    | 0 => get d ds
    | S _ =>
        Some {| enabled := enabled (dflt (get d ds)) + hits truthy d es;
                disabled := disabled (dflt (get d ds)) + hits falsy d es |}
    end.
Proof.
  induction es as [|[k a] r IH]; intros ds d; simpl fold_left.
  - reflexivity.
  - rewrite IH, get_countDomain. simpl fst; simpl snd.
    rewrite !(hits_cons _ d k a r). unfold any at 2, falsy at 2.
    rewrite (String.eqb_sym k d).
    destruct (String.eqb_spec d k); subst; simpl andb.
    + destruct (hits any k r) eqn:Hr.
      * rewrite (hits_any_zero truthy _ _ Hr), (hits_any_zero falsy _ _ Hr).
        simpl. unfold bump. destruct (truthy a); simpl; f_equal; f_equal; lia.
      * simpl. unfold bump. destruct (truthy a); simpl; f_equal; f_equal; lia.
    + simpl. reflexivity.
Qed.

Lemma fold_left_nested (A B C : Type) (f : A -> C -> A) (g : B -> list C) l :
  forall a,
    fold_left (fun acc x => fold_left f (g x) acc) l a
    = fold_left f (flat_map g l) a.
Proof.
  induction l as [|x r IH]; intros a; simpl; [reflexivity|].
  now rewrite fold_left_app, IH.
Qed.

Lemma hits_wf pred d (l : JsObj JsVal) :
  wf l ->
  hits pred d l
  = match get d l with
    | Some v => if pred v then 1 else 0
    | None => 0
    end.
Proof.
  unfold wf. induction l as [|[k a] r IH]; intros N; [reflexivity|].
  inversion N as [|? ? Hn Hr]; subst.
  rewrite hits_cons. simpl get. rewrite (String.eqb_sym k d).
  destruct (String.eqb_spec d k); subst; simpl andb.
  - rewrite (IH Hr). apply get_None_keys in Hn. rewrite Hn. lia.
  - now rewrite (IH Hr).
Qed.

Lemma hits_flat_map pred d (g : ProfileListData -> JsObj JsVal) ps :
  Forall (fun p => wf (g p)) ps ->
  hits pred d (flat_map g ps)
  = List.length
      (filter (fun p => match get d (g p) with
                        | Some v => pred v
                        | None => false
                        end) ps).
Proof.
  induction 1 as [|p r Hp Hr IH]; [reflexivity|].
  simpl flat_map. unfold hits in *. rewrite filter_app, length_app, IH.
  fold (hits pred d (g p)). rewrite (hits_wf _ _ _ Hp). simpl filter.
  destruct (get d (g p)) as [v|]; [destruct (pred v)|]; reflexivity.
Qed.

Lemma wf_countDomain ds e : wf ds -> wf (countDomain ds e).
Proof.
  intros H. unfold countDomain. apply wf_update.
  destruct (has (fst e) ds); [exact H | now apply wf_set].
Qed.

Lemma wf_fold_countDomain es : forall ds,
  wf ds -> wf (fold_left countDomain es ds).
Proof.
  induction es as [|e r IH]; intros ds H; simpl; [exact H|].
  apply IH, wf_countDomain, H.
Qed.

Lemma domainStates_flat allData lt :
  domainStates_of allData lt
  = fold_left countDomain
      (flat_map (list_of lt) (values allData)) empty.
Proof. unfold domainStates_of, entries. apply fold_left_nested. Qed.

(** The canonical flag of every domain, in one equation. *)
Lemma get_getCanonicalDomains allData lt dom :
  Forall (fun pdata => wf (list_of lt pdata)) (values allData) ->
  get dom (getCanonicalDomains allData lt)
  = match votes any dom lt allData with
    | 0 => None
    | S _ => Some (Nat.leb (disabledCount dom lt allData)
                           (enabledCount dom lt allData))
    end.
Proof.
  intros W. unfold getCanonicalDomains, entries.
  rewrite (get_fold_set _ _ (fun c => Nat.leb (disabled c) (enabled c))).
  2:{ rewrite domainStates_flat. apply wf_fold_countDomain, wf_empty. }
  rewrite domainStates_flat, get_fold_countDomain.
  rewrite !(hits_flat_map _ _ _ _ W). fold (votes any dom lt allData).
  destruct (votes any dom lt allData); reflexivity.
Qed.

Lemma votes_any_pos dom lt allData :
  votes any dom lt allData <> 0
  <-> exists pid pdata,
        In (pid, pdata) allData /\ In dom (keys (list_of lt pdata)).
Proof.
  unfold votes, values. induction allData as [|[pid p] r IH]; simpl.
  - split; [congruence | intros (? & ? & [] & _)].
  - destruct (get dom (list_of lt p)) eqn:G; simpl.
    + split; [intros _ | discriminate].
      exists pid, p. split; [now left|].
      apply has_keys. unfold has. now rewrite G.
    + rewrite IH. split.
      * intros (q & pd & Hin & Hk). exists q, pd. split; [now right | exact Hk].
      * intros (q & pd & [E|Hin] & Hk).
        -- injection E as -> ->. apply get_None_keys in G. tauto.
        -- exists q, pd. tauto.
Qed.


(** *** Planning *)

Lemma fold_planProfile lt dom should es : forall acc,
  fold_left (planProfile lt dom should) es acc
  = {| toAdd := toAdd acc ++ flat_map (addsOf lt dom should) es;
       toUpdate := toUpdate acc ++ flat_map (updatesOf lt dom should) es |}.
Proof.
  induction es as [|e r IH]; intros acc; simpl.
  - rewrite !app_nil_r. now destruct acc.
  - rewrite IH. unfold planProfile, addsOf, updatesOf.
    destruct (is_undefined (prop_of dom (list_of lt (snd e)))); simpl.
    + now rewrite <- app_assoc.
    + destruct (strict_eq_bool (prop_of dom (list_of lt (snd e))) should);
        simpl; [reflexivity | now rewrite <- app_assoc].
Qed.

Lemma calculateSyncOperations_flat allData canonical lt :
  calculateSyncOperations allData canonical lt
  = {| toAdd :=
         flat_map (fun d => flat_map (addsOf lt (fst d) (snd d)) allData)
           canonical;
       toUpdate :=
         flat_map (fun d => flat_map (updatesOf lt (fst d) (snd d)) allData)
           canonical |}.
Proof.
  unfold calculateSyncOperations, entries.
  change (flat_map (fun d => flat_map (addsOf lt (fst d) (snd d)) allData)
            canonical)
    with (toAdd {| toAdd := []; toUpdate := [] |}
          ++ flat_map (fun d => flat_map (addsOf lt (fst d) (snd d)) allData)
               canonical).
  change (flat_map (fun d => flat_map (updatesOf lt (fst d) (snd d)) allData)
            canonical)
    with (toUpdate {| toAdd := []; toUpdate := [] |}
          ++ flat_map (fun d => flat_map (updatesOf lt (fst d) (snd d)) allData)
               canonical).
  generalize {| toAdd := []; toUpdate := [] |}.
  induction canonical as [|d r IH]; intros acc; simpl.
  - rewrite !app_nil_r. now destruct acc.
  - rewrite fold_planProfile, IH. simpl. now rewrite <- !app_assoc.
Qed.

Lemma In_toAdd allData canonical lt op :
  In op (toAdd (calculateSyncOperations allData canonical lt))
  <-> exists d e,
        In d canonical /\ In e allData
        /\ is_undefined (prop_of (fst d) (list_of lt (snd e))) = true
        /\ op = operation op_add lt (fst d) (snd d) e.
Proof.
  rewrite calculateSyncOperations_flat. simpl. rewrite in_flat_map. split.
  - intros (d & Hd & H). apply in_flat_map in H as (e & He & H).
    unfold addsOf in H.
    destruct (is_undefined (prop_of (fst d) (list_of lt (snd e)))) eqn:U;
      [|contradiction].
    destruct H as [<-|[]]. now exists d, e.
  - intros (d & e & Hd & He & U & ->). exists d. split; [exact Hd|].
    apply in_flat_map. exists e. split; [exact He|].
    unfold addsOf. rewrite U. now left.
Qed.

Lemma In_toUpdate allData canonical lt op :
  In op (toUpdate (calculateSyncOperations allData canonical lt))
  <-> exists d e,
        In d canonical /\ In e allData
        /\ is_undefined (prop_of (fst d) (list_of lt (snd e))) = false
        /\ strict_eq_bool (prop_of (fst d) (list_of lt (snd e))) (snd d) = false
        /\ op = operation op_update lt (fst d) (snd d) e.
Proof.
  rewrite calculateSyncOperations_flat. simpl. rewrite in_flat_map. split.
  - intros (d & Hd & H). apply in_flat_map in H as (e & He & H).
    unfold updatesOf in H.
    destruct (is_undefined (prop_of (fst d) (list_of lt (snd e)))) eqn:U;
      [contradiction|].
    destruct (strict_eq_bool (prop_of (fst d) (list_of lt (snd e))) (snd d))
      eqn:S; [contradiction|].
    destruct H as [<-|[]]. now exists d, e.
  - intros (d & e & Hd & He & U & S & ->). exists d. split; [exact Hd|].
    apply in_flat_map. exists e. split; [exact He|].
    unfold updatesOf. rewrite U, S. now left.
Qed.

Lemma wf_In_unique (V : Type) (o : t V) k v1 v2 :
  wf o -> In (k, v1) o -> In (k, v2) o -> v1 = v2.
Proof.
  intros W H1 H2. apply In_get in H1; [|exact W].
  apply In_get in H2; [|exact W]. congruence.
Qed.


(** *** Enumeration order of the canonical map *)

Definition mem (k : string) (ks : list string) : bool :=
existsb (String.eqb k) ks.

Definition addkey (ks : list string) (k : string) : list string :=
if mem k ks then ks else ks ++ [k].

Lemma has_mem (V : Type) k (o : t V) : has k o = mem k (keys o).
Proof.
  unfold has, mem. induction o as [|[k0 v0] r IH]; simpl; [reflexivity|].
  destruct (String.eqb k k0); simpl; [reflexivity | exact IH].
Qed.

Lemma keys_set_plain (V : Type) k (v : V) o :
  array_index k = None -> keys (set k v o) = addkey (keys o) k.
Proof.
  intros A. unfold set, addkey. rewrite <- has_mem.
  destruct (has k o); [apply keys_update|].
  rewrite A. unfold keys. now rewrite map_app.
Qed.

Lemma keys_countDomain ds e :
  array_index (fst e) = None ->
  keys (countDomain ds e) = addkey (keys ds) (fst e).
Proof.
  intros A. unfold countDomain. rewrite keys_update.
  unfold addkey. rewrite <- has_mem. destruct (has (fst e) ds) eqn:H.
  - reflexivity.
  - rewrite keys_set_plain by exact A. unfold addkey.
    now rewrite <- has_mem, H.
Qed.

Lemma keys_fold_countDomain es : forall ds,
  Forall (fun k => array_index k = None) (map fst es) ->
  keys (fold_left countDomain es ds) = fold_left addkey (map fst es) (keys ds).
Proof.
  induction es as [|e r IH]; intros ds F; simpl; [reflexivity|].
  inversion F; subst. rewrite IH by assumption.
  now rewrite keys_countDomain.
Qed.

Lemma keys_fold_set (A B : Type) (f : A -> B) (es : t A) : forall (c : t B),
  Forall (fun k => array_index k = None) (keys es) ->
  keys (fold_left (fun c e => set (fst e) (f (snd e)) c) es c)
  = fold_left addkey (keys es) (keys c).
Proof.
  induction es as [|e r IH]; intros c F; simpl; [reflexivity|].
  inversion F; subst. rewrite IH by assumption.
  now rewrite keys_set_plain.
Qed.

Lemma mem_app k l1 l2 : mem k (l1 ++ l2) = mem k l1 || mem k l2.
Proof. unfold mem. apply existsb_app. Qed.

Lemma filter_filter_and (A : Type) (f g : A -> bool) l :
  filter f (filter g l) = filter (fun x => g x && f x) l.
Proof.
  induction l as [|x r IH]; simpl; [reflexivity|].
  destruct (g x); simpl; [destruct (f x)|]; now rewrite IH.
Qed.

Lemma fold_addkey l : forall ks,
  fold_left addkey l ks
  = ks ++ filter (fun y => negb (mem y ks)) (first_seen l).
Proof.
  induction l as [|x r IH]; intros ks; simpl.
  - now rewrite app_nil_r.
  - rewrite IH. unfold addkey. destruct (mem x ks) eqn:M; simpl.
    + f_equal. rewrite filter_filter_and. apply filter_ext. intros y.
      destruct (String.eqb_spec y x); subst; simpl; [now rewrite M|reflexivity].
    + rewrite <- app_assoc. simpl. f_equal. f_equal.
      rewrite filter_filter_and. apply filter_ext. intros y.
      rewrite mem_app. simpl. rewrite orb_false_r, negb_orb.
      apply andb_comm.
Qed.

Lemma first_seen_In x l : In x (first_seen l) -> In x l.
Proof.
  induction l as [|y r IH]; simpl; [tauto|].
  intros [E|H]; [now left|]. apply filter_In in H. right. now apply IH.
Qed.

Lemma filter_other x l :
  ~ In x l -> filter (fun y => negb (String.eqb y x)) l = l.
Proof.
  induction l as [|y r IH]; simpl; intros H; [reflexivity|].
  destruct (String.eqb_spec y x); subst; simpl.
  - exfalso. apply H. now left.
  - f_equal. apply IH. intros H'. apply H. now right.
Qed.

Lemma first_seen_NoDup l : NoDup l -> first_seen l = l.
Proof.
  induction 1 as [|x r Hn Hr IH]; simpl; [reflexivity|].
  rewrite IH. f_equal. now apply filter_other.
Qed.

End SyncFacts.

(* ------------------------------------------------------------------ *)
(** ** Claims about the consensus engine                               *)
(* ------------------------------------------------------------------ *)

Lemma keys_flat_lists lt (ps : list ProfileListData) :
  map fst (flat_map (list_of lt) ps)
  = flat_map (fun p => JsObject.keys (list_of lt p)) ps.
Proof.
  induction ps as [|p r IH]; simpl; [reflexivity|].
  now rewrite map_app, IH.
Qed.

Lemma filter_all (A : Type) (l : list A) : filter (fun _ => true) l = l.
Proof. induction l as [|x r IH]; simpl; [reflexivity | now rewrite IH]. Qed.

Lemma keys_domainStates allData lt :
  Forall (fun k => JsObject.array_index k = None)
    (flat_map (fun p => JsObject.keys (list_of lt p)) (JsObject.values allData)) ->
  JsObject.keys (domainStates_of allData lt)
  = first_seen
      (flat_map (fun p => JsObject.keys (list_of lt p)) (JsObject.values allData)).
Proof.
  intros F. rewrite SyncFacts.domainStates_flat.
  rewrite SyncFacts.keys_fold_countDomain by (now rewrite keys_flat_lists).
  rewrite SyncFacts.fold_addkey, keys_flat_lists. simpl. apply filter_all.
Qed.



(** C2. For each (domain, canonical flag) and each profile,
    [calculateSyncOperations] pushes an add with the canonical flag as target
    when the profile's list lacks the domain, an update when it holds the
    domain with the other flag, and nothing aimed at that pair when the flag
    already agrees; when every profile agrees with the canonical map on every
    domain, [toAdd] and [toUpdate] are both empty. *)
Theorem calculateSyncOperations_plan
  (allData : JsObj ProfileListData) (canonical : JsObj bool) (lt : ListType) :
  JsObject.wf allData -> JsObject.wf canonical ->
  (forall dom should pid pdata,
      In (dom, should) canonical -> In (pid, pdata) allData ->
      (JsObject.get dom (list_of lt pdata) = None ->
       In (operation op_add lt dom should (pid, pdata))
          (toAdd (calculateSyncOperations allData canonical lt))
       /\ forall op,
            In op (toUpdate (calculateSyncOperations allData canonical lt)) ->
            ~ aimed_at pid dom op)
      /\ (JsObject.get dom (list_of lt pdata) = Some (JBool (negb should)) ->
          In (operation op_update lt dom should (pid, pdata))
             (toUpdate (calculateSyncOperations allData canonical lt))
          /\ forall op,
               In op (toAdd (calculateSyncOperations allData canonical lt)) ->
               ~ aimed_at pid dom op)
      /\ (JsObject.get dom (list_of lt pdata) = Some (JBool should) ->
          forall op,
            In op (toAdd (calculateSyncOperations allData canonical lt)
                   ++ toUpdate (calculateSyncOperations allData canonical lt)) ->
            ~ aimed_at pid dom op))
  /\ ((forall dom should pid pdata,
          In (dom, should) canonical -> In (pid, pdata) allData ->
          JsObject.get dom (list_of lt pdata) = Some (JBool should)) ->
      toAdd (calculateSyncOperations allData canonical lt) = []
      /\ toUpdate (calculateSyncOperations allData canonical lt) = []).
Proof.
  intros Wd Wc.
  assert (same : forall d e pid dom pdata should,
             In d canonical -> In e allData ->
             In (dom, should) canonical -> In (pid, pdata) allData ->
             aimed_at pid dom (operation op_add lt (fst d) (snd d) e)
             \/ aimed_at pid dom (operation op_update lt (fst d) (snd d) e) ->
             d = (dom, should) /\ e = (pid, pdata)).
  { intros [d1 d2] [e1 e2] pid dom pdata should Hd He Hc Hp H.
    assert (E : e1 = pid /\ d1 = dom) by (destruct H as [H|H]; exact H).
    destruct E as [-> ->]. split; f_equal.
    - exact (SyncFacts.wf_In_unique _ _ _ _ _ Wc Hd Hc).
    - exact (SyncFacts.wf_In_unique _ _ _ _ _ Wd He Hp). }
  split.
  - intros dom should pid pdata Hc Hp.
    split; [intros H; split | split; [intros H; split | intros H]].
    + apply SyncFacts.In_toAdd. exists (dom, should), (pid, pdata).
      simpl. unfold prop_of. rewrite H. auto.
    + intros op Hop A. apply SyncFacts.In_toUpdate in Hop
        as (d & e & Hd & He & U & _ & ->).
      destruct (same d e pid dom pdata should Hd He Hc Hp (or_intror A))
        as [-> ->].
      simpl in U. unfold prop_of in U. rewrite H in U. discriminate.
    + apply SyncFacts.In_toUpdate. exists (dom, should), (pid, pdata).
      simpl. unfold prop_of. rewrite H. simpl.
      repeat split; auto. now destruct should.
    + intros op Hop A. apply SyncFacts.In_toAdd in Hop
        as (d & e & Hd & He & U & ->).
      destruct (same d e pid dom pdata should Hd He Hc Hp (or_introl A))
        as [-> ->].
      simpl in U. unfold prop_of in U. rewrite H in U. discriminate.
    + intros op Hop A. apply in_app_or in Hop as [Hop|Hop].
      * apply SyncFacts.In_toAdd in Hop as (d & e & Hd & He & U & ->).
        destruct (same d e pid dom pdata should Hd He Hc Hp (or_introl A))
          as [-> ->].
        simpl in U. unfold prop_of in U. rewrite H in U. discriminate.
      * apply SyncFacts.In_toUpdate in Hop as (d & e & Hd & He & _ & S & ->).
        destruct (same d e pid dom pdata should Hd He Hc Hp (or_intror A))
          as [-> ->].
        simpl in S. unfold prop_of in S. rewrite H in S. simpl in S.
        now rewrite Bool.eqb_reflx in S.
  - intros M. split.
    + destruct (toAdd (calculateSyncOperations allData canonical lt))
        as [|op r] eqn:E; [reflexivity|].
      assert (Hop : In op (toAdd (calculateSyncOperations allData canonical lt)))
        by (rewrite E; now left).
      apply SyncFacts.In_toAdd in Hop as ([dom should] & [pid pdata] & Hd & He & U & _).
      simpl in U. unfold prop_of in U. rewrite (M _ _ _ _ Hd He) in U.
      discriminate.
    + destruct (toUpdate (calculateSyncOperations allData canonical lt))
        as [|op r] eqn:E; [reflexivity|].
      assert (Hop : In op (toUpdate (calculateSyncOperations allData canonical lt)))
        by (rewrite E; now left).
      apply SyncFacts.In_toUpdate in Hop
        as ([dom should] & [pid pdata] & Hd & He & _ & S & _).
      simpl in S. unfold prop_of in S. rewrite (M _ _ _ _ Hd He) in S.
      simpl in S. now rewrite Bool.eqb_reflx in S.
Qed.

(** On the three-profile scenario P1 receives the add of "c.com"; on two
    profiles that agree the plan is empty. *)
Lemma calculateSyncOperations_plan_witness :
  In (operation op_add denylist "c.com" true ("P1", scenario_P1))
     (toAdd (calculateSyncOperations scenario_data
               (getCanonicalDomains scenario_data denylist) denylist))
  /\ toAdd (calculateSyncOperations synced_data
              (getCanonicalDomains synced_data denylist) denylist) = []
  /\ toUpdate (calculateSyncOperations synced_data
                 (getCanonicalDomains synced_data denylist) denylist) = [].
Proof.
  split.
  - assert (Wd : JsObject.wf scenario_data).
    { repeat constructor; simpl; intuition discriminate. }
    assert (Wc : JsObject.wf (getCanonicalDomains scenario_data denylist)).
    { repeat constructor; simpl; intuition discriminate. }
    destruct (calculateSyncOperations_plan scenario_data _ denylist Wd Wc)
      as [H _].
    apply (H "c.com" true "P1" scenario_P1).
    + simpl. tauto.
    + simpl. tauto.
    + reflexivity.
  - assert (Wd : JsObject.wf synced_data).
    { repeat constructor; simpl; intuition discriminate. }
    assert (Wc : JsObject.wf (getCanonicalDomains synced_data denylist)).
    { repeat constructor; simpl; intuition discriminate. }
    destruct (calculateSyncOperations_plan synced_data _ denylist Wd Wc)
      as [_ H].
    apply H. intros dom should pid pdata Hc Hp.
    cbv in Hc. destruct Hc as [E|[]]. injection E as <- <-.
    destruct Hp as [E|[E|[]]]; injection E as <- <-; reflexivity.
Defined.


(** Profiles stored under numeric ids are enumerated in numeric order, not
    in the order they were stored. *)
Example numeric_profile_ids_reordered :
  JsObject.keys
    (JsObject.set "111111" scenario_P2
       (JsObject.set "222222" scenario_P1 JsObject.empty))
  = ["111111"; "222222"].
Proof. reflexivity. Qed.



(* ------------------------------------------------------------------ *)
(** ** Claims about the domain manager                                 *)
(* ------------------------------------------------------------------ *)

Section ManageDomainFacts.
Variable W : Type.
Variable api : NextDNSApi W.
Variable options : ManageDomainOptions.

Lemma applyAction_returns profile st :
  exists o st', applyAction api options profile st = (Ok o, st').
Proof.
  unfold applyAction, addDomainToList, updateDomainStatus,
    removeDomainFromList, try_catch, bind, await, ret.
  destruct (md_action options).
  - destruct (api_addDomain _ _ _ _ _ _ _) as [[u|e] w]; eauto.
  - destruct (api_removeDomain _ _ _ _ _ _) as [[u|e] w]; eauto.
    destruct (not_found_message e); eauto.
  - destruct (api_updateDomainStatus _ _ _ _ _ _ _) as [[u|e] w]; eauto.
    destruct (not_found_message e); eauto.
  - destruct (api_updateDomainStatus _ _ _ _ _ _ _) as [[u|e] w]; eauto.
    destruct (not_found_message e); eauto.
Qed.

Lemma manageProfile_step acc profile st o st' :
  applyAction api options profile st = (Ok o, st') ->
  manageProfile api options acc profile st
  = (Ok (recorded acc profile o),
     {| world := world st';
        log := log st'
               ++ [Progress {| or_profileId := id profile;
                               or_profileName := name profile;
                               or_success := success o;
                               or_error := error o |}] |}).
Proof.
  intros H. unfold manageProfile, bind, emit, ret. rewrite H. reflexivity.
Qed.

Lemma forEach_manageProfile profiles : forall acc st,
  exists r st',
    forEach (manageProfile api options) profiles acc st = (Ok r, st')
    /\ map or_profileId (results r)
       = map or_profileId (results acc) ++ map id profiles
    /\ successCount r + failCount r
       = successCount acc + failCount acc + List.length profiles.
Proof.
  induction profiles as [|p ps IH]; intros acc st; simpl.
  - exists acc, st. rewrite app_nil_r. repeat split. lia.
  - destruct (applyAction_returns p st) as (o & st1 & Ho).
    unfold bind at 1. rewrite (manageProfile_step acc _ _ _ _ Ho).
    destruct (IH (recorded acc p o)
                {| world := world st1;
                   log := log st1
                          ++ [Progress {| or_profileId := id p;
                                          or_profileName := name p;
                                          or_success := success o;
                                          or_error := error o |}] |})
      as (r & st' & E & Hid & Hc).
    exists r, st'. split; [exact E|]. split.
    + rewrite Hid. simpl. rewrite map_app, <- app_assoc. reflexivity.
    + rewrite Hc. simpl. destruct (success o); lia.
Qed.


End ManageDomainFacts.


(* ------------------------------------------------------------------ *)
(** ** Claims about fetch failures in sync analysis and diff           *)
(* ------------------------------------------------------------------ *)

Section FetchFacts.
Variable W : Type.
Variable api : NextDNSApi W.

Lemma forEach_app (A S : Type) (body : S -> A -> M W S) l1 : forall l2 acc st,
  forEach body (l1 ++ l2) acc st
  = match forEach body l1 acc st with
    | (Ok a, st1) => forEach body l2 a st1
    | (Throw e, st1) => (Throw e, st1)
    end.
Proof.
  induction l1 as [|x r IH]; intros l2 acc st; simpl.
  - reflexivity.
  - unfold bind. destruct (body acc x st) as [[a|e] st1]; [apply IH | reflexivity].
Qed.

Lemma fetchOne_throws apiKey allData profile st e w :
  api_getProfile api (id profile) apiKey (world st) = (Throw e, w) ->
  fetchOne api apiKey allData profile st
  = (Throw e, {| world := w; log := log st |}).
Proof.
  intros H. unfold fetchOne, bind, await. rewrite H. reflexivity.
Qed.

Lemma getProfileListData_returns apiKey profileId st :
  exists r st', getProfileListData api apiKey profileId st = (Ok r, st').
Proof.
  unfold getProfileListData, try_catch, bind, await, lift, emit, ret.
  destruct (api_getProfile api profileId apiKey (world st)) as [[data|e] w].
  - destruct (profileListData data); eauto.
  - eauto.
Qed.

Lemma getProfileListData_failure apiKey profileId st e w :
  api_getProfile api profileId apiKey (world st) = (Throw e, w) ->
  getProfileListData api apiKey profileId st
  = (Ok None,
     {| world := w;
        log := log st
               ++ [ConsoleError ("Error fetching profile " ++ profileId
                                 ++ ": " ++ e)] |}).
Proof.
  intros H. unfold getProfileListData, try_catch, bind, await, emit, ret.
  rewrite H. reflexivity.
Qed.

Lemma collect_lists_returns apiKey profiles : forall allData st,
  exists r st',
    forEach
      (fun allData profile =>
         data <- getProfileListData api apiKey (id profile) ;;
         match data with
         | Some d => ret (JsObject.set (id profile) d allData)
         | None => ret allData
         end)
      profiles allData st
    = (Ok r, st').
Proof.
  induction profiles as [|p ps IH]; intros allData st; simpl.
  - unfold ret. eauto.
  - unfold bind at 1. unfold bind at 1.
    destruct (getProfileListData_returns apiKey (id p) st) as (r & st1 & E).
    rewrite E. destruct r; unfold ret at 1; apply IH.
Qed.


End FetchFacts.



(* ------------------------------------------------------------------ *)
(** ** Claims about schema validation and the payload                  *)
(* ------------------------------------------------------------------ *)

Lemma member_defined k v :
  is_nullish v = false -> member k v = Ok (member_opt k v).
Proof. destruct v; simpl; intros H; try discriminate; reflexivity. Qed.

Lemma truthy_defined v : truthy v = true -> is_nullish v = false.
Proof. destruct v; simpl; intros H; try discriminate; reflexivity. Qed.

Lemma falsy_no_unknown v known skipped :
  truthy v = false -> unknown_keys v known skipped = [].
Proof. destruct v; simpl; intros H; try discriminate; reflexivity. Qed.

Lemma falsy_member_opt k v : truthy v = false -> member_opt k v = JUndefined.
Proof. destruct v; simpl; intros H; try discriminate; reflexivity. Qed.

(** The warning contributed by one path. *)
Definition warning_at (sourceData : JsVal) (p : SchemaPath) : list string :=
match offending p sourceData with
| [] => []
| unknown => [warning_text (path_name p) unknown]
end.

Lemma checkFields_app warnings data known skipped path :
  checkFields warnings data known skipped path
  = warnings
    ++ match unknown_keys data known skipped with
       | [] => []
       | unknown => [warning_text path unknown]
       end.
Proof.
  unfold checkFields. destruct (unknown_keys data known skipped).
  - now rewrite app_nil_r.
  - reflexivity.
Qed.

Lemma checked_when_truthy warnings data known skipped path :
  (if truthy data then checkFields warnings data known skipped path
   else warnings)
  = warnings
    ++ match unknown_keys data known skipped with
       | [] => []
       | unknown => [warning_text path unknown]
       end.
Proof.
  destruct (truthy data) eqn:T.
  - apply checkFields_app.
  - rewrite (falsy_no_unknown _ _ _ T). now rewrite app_nil_r.
Qed.

Lemma validateApiSchema_paths sourceData :
  is_nullish sourceData = false ->
  validateApiSchema sourceData
  = Ok (flat_map (warning_at sourceData) checked_paths).
Proof.
  intros N. unfold validateApiSchema.
  rewrite !(member_defined _ _ N). simpl bind_result.
  rewrite !checked_when_truthy.
  rewrite (checkFields_app [] sourceData KNOWN_root SKIPPED_root "root").
  unfold checked_paths, warning_at, offending. simpl flat_map.
  simpl section_at. simpl known_at. simpl skipped_at. simpl path_name.
  destruct (truthy (member_opt "settings" sourceData)) eqn:T.
  - rewrite !(member_defined _ _ (truthy_defined _ T)). simpl bind_result.
    rewrite !checked_when_truthy, checkFields_app.
    rewrite app_nil_r, <- !app_assoc. reflexivity.
  - rewrite (falsy_no_unknown _ _ _ T).
    rewrite (falsy_member_opt "logs" _ T), (falsy_member_opt "performance" _ T).
    simpl. rewrite !app_nil_r, <- !app_assoc. reflexivity.
Qed.

Definition path_eqb (p q : SchemaPath) : bool :=
match p, q with
| at_root, at_root | at_security, at_security | at_privacy, at_privacy
| at_parentalControl, at_parentalControl | at_settings, at_settings
| at_settings_logs, at_settings_logs
| at_settings_performance, at_settings_performance => true
| _, _ => false
end.

Lemma about_warning p q unknown :
  about p (warning_text (path_name q) unknown) = path_eqb p q.
Proof.
  destruct p, q; cbn; try reflexivity;
    now destruct (join ", " unknown).
Qed.

Lemma filter_warning_at p q sourceData :
  filter (about p) (warning_at sourceData q)
  = if path_eqb p q then warning_at sourceData q else [].
Proof.
  unfold warning_at. destruct (offending q sourceData) as [|k r].
  - now destruct (path_eqb p q).
  - simpl. rewrite about_warning. now destruct (path_eqb p q).
Qed.

Lemma filter_about p sourceData :
  filter (about p) (flat_map (warning_at sourceData) checked_paths)
  = warning_at sourceData p.
Proof.
  unfold checked_paths. simpl flat_map. rewrite !filter_app.
  rewrite !filter_warning_at.
  destruct p; simpl; rewrite ?app_nil_r; reflexivity.
Qed.

Lemma includes_prefix a b : String.prefix a b = true -> includes a b = true.
Proof.
  intros H. destruct b as [|c b]; cbn [includes]; [exact H|].
  now rewrite H.
Qed.

Lemma prefix_app a b : String.prefix a (a ++ b) = true.
Proof.
  induction a as [|c a IH]; [now destruct b|].
  cbn. destruct (ascii_dec c c); [exact IH | congruence].
Qed.

Lemma includes_app_r k a b : includes k b = true -> includes k (a ++ b) = true.
Proof.
  induction a as [|c a IH]; intros H; [exact H|].
  cbn [String.append includes]. rewrite (IH H). apply orb_true_r.
Qed.

Lemma includes_app_l k b : includes k (k ++ b)%string = true.
Proof. apply includes_prefix, prefix_app. Qed.

Lemma append_empty_r s : (s ++ EmptyString)%string = s.
Proof. induction s as [|c s IH]; cbn; [reflexivity | now rewrite IH]. Qed.

Lemma includes_join k sep l : In k l -> includes k (join sep l) = true.
Proof.
  induction l as [|x r IH]; [intros []|].
  intros [->|H].
  - destruct r; cbn [join].
    + rewrite <- (append_empty_r k) at 2. apply includes_app_l.
    + apply includes_app_l.
  - destruct r as [|y r']; [destruct H|].
    cbn [join]. apply includes_app_r, includes_app_r. apply IH, H.
Qed.



(** Two unknown keys at the same place share one warning; the sample profile
    of the test suite gives none. *)
Example validateApiSchema_examples :
  validateApiSchema SAMPLE_PROFILE_DATA = Ok []
  /\ validateApiSchema drifted_profile
     = Ok ["Unknown field(s) at 'security': newThreatProtection"]
  /\ validateApiSchema twice_drifted_profile
     = Ok ["Unknown field(s) at 'root': newFeature, otherFeature"].
Proof. repeat split; reflexivity. Qed.

(** *** The payload *)

Lemma copy_if_truthy_other k f src target target' key :
  copy_if_truthy k f src target = Ok target' ->
  String.eqb key k = false ->
  JsObject.get key target' = JsObject.get key target.
Proof.
  unfold copy_if_truthy. intros H E.
  destruct (truthy (member_opt k src)); [|injection H as <-; reflexivity].
  destruct (f (member_opt k src)) as [x|e]; simpl in H; [|discriminate].
  injection H as <-. now rewrite JsObjectFacts.get_set, E.
Qed.

Lemma copy_if_truthy_same k f src target target' v :
  copy_if_truthy k f src target = Ok target' ->
  JsObject.get k target' = Some v ->
  JsObject.get k target = Some v \/ f (member_opt k src) = Ok v.
Proof.
  unfold copy_if_truthy. intros H G.
  destruct (truthy (member_opt k src)); [|injection H as <-; now left].
  destruct (f (member_opt k src)) as [x|e]; simpl in H; [|discriminate].
  injection H as <-. rewrite JsObjectFacts.get_set, String.eqb_refl in G.
  right. congruence.
Qed.

(** The stages [reconstructPayload] goes through. *)
Ltac payload_stages H :=
  unfold reconstructPayload in H;
  repeat match type of H with
         | bind_result ?r _ = Ok _ =>
             let x := fresh "stage" in
             let E := fresh "E" in
             destruct r as [x|?] eqn:E; simpl in H; [|discriminate]
         end.

(* ------------------------------------------------------------------ *)
(** ** The clone pipeline on well-shaped data                          *)
(* ------------------------------------------------------------------ *)

Lemma map_result_returns (A B : Type) (f : A -> Result B) (l : list A) :
  Forall (fun x => exists y, f x = Ok y) l ->
  exists ys, map_result f l = Ok ys.
Proof.
  induction 1 as [|x r [y Hy] _ [ys IH]]; simpl.
  - now exists [].
  - rewrite Hy, IH. now exists (y :: ys).
Qed.

Lemma entry_list_array v :
  entry_list v = true ->
  exists l,
    as_array (js_or v (JArr [])) = Ok l
    /\ Forall (fun x => is_nullish x = false) l.
Proof.
  unfold entry_list. destruct (js_or v (JArr [])); try discriminate.
  intros H. exists items. split; [reflexivity|].
  apply Forall_forall. intros x Hx.
  rewrite forallb_forall in H. specialize (H x Hx).
  now destruct (is_nullish x).
Qed.

Lemma entry_list_truthy v :
  entry_list v = true -> truthy v = true ->
  exists l, as_array v = Ok l /\ Forall (fun x => is_nullish x = false) l.
Proof.
  intros E T. destruct (entry_list_array v E) as (l & A & F).
  unfold js_or in A. rewrite T in A. now exists l.
Qed.

Lemma members_return (C : Type) (g : JsVal -> JsVal -> C) (k1 k2 : string) l :
  Forall (fun x => is_nullish x = false) l ->
  exists ys,
    map_result
      (fun x => a <-- member k1 x ;; b <-- member k2 x ;; Ok (g a b)) l
    = Ok ys.
Proof.
  intros F. apply map_result_returns.
  apply Forall_forall. intros x Hx.
  rewrite Forall_forall in F.
  rewrite !(member_defined _ _ (F x Hx)). simpl. eauto.
Qed.

Lemma idsOnly_returns v :
  entry_list v = true -> truthy v = true -> exists r, idsOnly v = Ok r.
Proof.
  intros E T. destruct (entry_list_truthy v E T) as (l & A & F).
  unfold idsOnly. rewrite A. simpl.
  destruct (map_result_returns _ _
              (fun t => i <-- member "id" t ;; Ok (JObj [("id", i)])) l)
    as [ys Hys].
  { apply Forall_forall. intros x Hx. rewrite Forall_forall in F.
    rewrite (member_defined _ _ (F x Hx)). simpl. eauto. }
  rewrite Hys. simpl. eauto.
Qed.

Lemma idsWithActive_returns dflt v :
  entry_list v = true -> truthy v = true ->
  exists r, idsWithActive dflt v = Ok r.
Proof.
  intros E T. destruct (entry_list_truthy v E T) as (l & A & F).
  unfold idsWithActive. rewrite A. simpl.
  destruct (members_return _
              (fun i a => JObj [("id", i); ("active", js_nullish a (JBool dflt))])
              "id" "active" l F) as [ys Hys].
  rewrite Hys. simpl. eauto.
Qed.

Lemma copy_if_truthy_returns k f src target :
  (truthy (member_opt k src) = true -> exists r, f (member_opt k src) = Ok r) ->
  exists t, copy_if_truthy k f src target = Ok t.
Proof.
  unfold copy_if_truthy. intros H.
  destruct (truthy (member_opt k src)); [|eauto].
  destruct (H eq_refl) as [r ->]. simpl. eauto.
Qed.

Lemma well_shaped_parts data :
  well_shaped data = true ->
  entry_list (member_opt "tlds" (member_opt "security" data)) = true
  /\ entry_list (member_opt "blocklists" (member_opt "privacy" data)) = true
  /\ entry_list (member_opt "natives" (member_opt "privacy" data)) = true
  /\ entry_list (member_opt "services" (member_opt "parentalControl" data)) = true
  /\ entry_list (member_opt "categories" (member_opt "parentalControl" data)) = true
  /\ entry_list (member_opt "denylist" data) = true
  /\ entry_list (member_opt "allowlist" data) = true.
Proof.
  unfold well_shaped. rewrite !andb_true_iff. tauto.
Qed.

Lemma reconstructPayload_returns data :
  is_nullish data = false -> well_shaped data = true ->
  exists payload, reconstructPayload data = Ok payload.
Proof.
  intros N S.
  destruct (well_shaped_parts data S) as (T & B & Na & Se & C & D & A).
  unfold reconstructPayload. rewrite (member_defined _ _ N). simpl.
  destruct (copy_if_truthy_returns "security" reconstructSecurity data
              (JsObject.set "name"
                 (JStr (to_string (js_or (member_opt "name" data)
                                     (JStr "Cloned Profile")) ++ " (Copy)"))
                 JsObject.empty)) as [p1 ->].
  { intros _. unfold reconstructSecurity.
    destruct (copy_if_truthy_returns "tlds" idsOnly (member_opt "security" data)
                (defaulted (member_opt "security" data) (JBool true)
                   security_flags)) as [o ->];
      [intros Tr; now apply idsOnly_returns | simpl; eauto]. }
  simpl.
  destruct (copy_if_truthy_returns "privacy" reconstructPrivacy data p1)
    as [p2 ->].
  { intros _. unfold reconstructPrivacy.
    destruct (copy_if_truthy_returns "blocklists" idsOnly
                (member_opt "privacy" data)
                (defaulted (member_opt "privacy" data) (JBool true)
                   privacy_flags)) as [o ->];
      [intros Tr; now apply idsOnly_returns|]. simpl.
    destruct (copy_if_truthy_returns "natives" idsOnly
                (member_opt "privacy" data) o) as [o' ->];
      [intros Tr; now apply idsOnly_returns | simpl; eauto]. }
  simpl.
  destruct (copy_if_truthy_returns "parentalControl"
              reconstructParentalControl data p2) as [p3 ->].
  { intros _. unfold reconstructParentalControl.
    destruct (copy_if_truthy_returns "services" (idsWithActive false)
                (member_opt "parentalControl" data)
                (defaulted (member_opt "parentalControl" data) (JBool false)
                   parental_flags)) as [o ->];
      [intros Tr; now apply idsWithActive_returns|]. simpl.
    destruct (copy_if_truthy_returns "categories" (idsWithActive false)
                (member_opt "parentalControl" data) o) as [o' ->];
      [intros Tr; now apply idsWithActive_returns | simpl; eauto]. }
  simpl.
  destruct (copy_if_truthy_returns "denylist" (idsWithActive true) data p3)
    as [p4 ->]; [intros Tr; now apply idsWithActive_returns|]. simpl.
  destruct (copy_if_truthy_returns "allowlist" (idsWithActive true) data p4)
    as [p5 ->]; [intros Tr; now apply idsWithActive_returns|]. simpl.
  apply copy_if_truthy_returns. intros _. unfold reconstructSettings. eauto.
Qed.

Lemma idSet_returns v : entry_list v = true -> exists s, idSet v = Ok s.
Proof.
  intros E. destruct (entry_list_array v E) as (l & A & F).
  unfold idSet. rewrite A. simpl.
  destruct (map_result_returns _ _ (member "id") l) as [ys ->].
  { apply Forall_forall. intros x Hx. rewrite Forall_forall in F.
    rewrite (member_defined _ _ (F x Hx)). eauto. }
  simpl. eauto.
Qed.

Lemma idSetMismatch_returns text s d :
  entry_list s = true -> entry_list d = true ->
  exists ms, idSetMismatch text s d = Ok ms.
Proof.
  intros Es Ed. unfold idSetMismatch.
  destruct (idSet_returns s Es) as [a ->].
  destruct (idSet_returns d Ed) as [b ->]. simpl.
  destruct (filter _ a ++ filter _ b); eauto.
Qed.

Lemma activeMap_returns dflt v :
  entry_list v = true -> exists m, activeMap dflt v = Ok m.
Proof.
  intros E. destruct (entry_list_array v E) as (l & A & F).
  unfold activeMap. rewrite A. simpl.
  destruct (members_return _
              (fun i a => (to_string i, js_nullish a (JBool dflt)))
              "id" "active" l F) as [ys Hys].
  rewrite Hys. simpl. eauto.
Qed.

Lemma activeMapMismatch_returns text s d :
  entry_list s = true -> entry_list d = true ->
  exists ms, activeMapMismatch text s d = Ok ms.
Proof.
  intros Es Ed. unfold activeMapMismatch.
  destruct (activeMap_returns false s Es) as [a ->].
  destruct (activeMap_returns false d Ed) as [b ->]. simpl.
  destruct (String.eqb _ _); eauto.
Qed.

Lemma verifyList_returns listName src dst :
  entry_list (member_opt listName src) = true ->
  entry_list (member_opt listName dst) = true ->
  exists ms, verifyList listName src dst = Ok ms.
Proof.
  intros Es Ed. unfold verifyList.
  destruct (activeMap_returns true _ Es) as [a ->].
  destruct (activeMap_returns true _ Ed) as [b ->]. simpl.
  destruct (_ =? _)%nat; eauto.
Qed.

Lemma cleanRw_returns v : entry_list v = true -> exists s, cleanRw v = Ok s.
Proof.
  intros E. destruct (entry_list_array v E) as (l & A & F).
  unfold cleanRw. rewrite A. simpl.
  destruct (members_return _
              (fun n c => stringify_object [("name", n); ("content", c)])
              "name" "content" l F) as [ys Hys].
  rewrite Hys. simpl. eauto.
Qed.

Lemma compareClone_returns src dst :
  well_shaped (f_profile src) = true -> well_shaped (f_profile dst) = true ->
  entry_list (f_rewrites src) = true -> entry_list (f_rewrites dst) = true ->
  exists ms, compareClone src dst = Ok ms.
Proof.
  intros Ss Sd Rs Rd.
  destruct (well_shaped_parts _ Ss) as (T & B & Na & Se & C & D & A).
  destruct (well_shaped_parts _ Sd) as (T' & B' & Na' & Se' & C' & D' & A').
  unfold compareClone.
  assert (Hsec : exists ms, verifySecurity (f_profile src) (f_profile dst) = Ok ms).
  { unfold verifySecurity. destruct (_ && _); [|eauto].
    destruct (idSetMismatch_returns "Security TLDs mismatch. Diff: " _ _ T T')
      as [ms ->]. simpl. eauto. }
  destruct Hsec as [sec ->]. simpl.
  assert (Hpriv : exists ms, verifyPrivacy (f_profile src) (f_profile dst) = Ok ms).
  { unfold verifyPrivacy. destruct (_ && _); [|eauto].
    destruct (idSetMismatch_returns "Blocklists mismatch. Diff: " _ _ B B')
      as [ms ->]. simpl.
    destruct (idSetMismatch_returns "Native blocklists mismatch. Diff: "
                _ _ Na Na') as [ms' ->]. simpl. eauto. }
  destruct Hpriv as [priv ->]. simpl.
  assert (Hpc : exists ms,
             verifyParentalControl (f_profile src) (f_profile dst) = Ok ms).
  { unfold verifyParentalControl. destruct (_ && _); [|eauto].
    destruct (activeMapMismatch_returns "Parental Services mismatch" _ _ Se Se')
      as [ms ->]. simpl.
    destruct (activeMapMismatch_returns "Parental Categories mismatch"
                _ _ C C') as [ms' ->]. simpl. eauto. }
  destruct Hpc as [pc ->]. simpl.
  destruct (verifyList_returns "denylist" _ _ D D') as [den ->]. simpl.
  destruct (verifyList_returns "allowlist" _ _ A A') as [allow ->]. simpl.
  unfold verifyRewrites.
  destruct (cleanRw_returns _ Rs) as [a ->].
  destruct (cleanRw_returns _ Rd) as [b ->]. simpl.
  destruct (_ || _); simpl; eauto.
Qed.

Lemma cleanRewrites_returns l :
  Forall (fun x => is_nullish x = false) l ->
  exists ys, cleanRewrites l = Ok ys.
Proof.
  intros F. unfold cleanRewrites.
  exact (members_return _ (fun n c => JObj [("name", n); ("content", c)])
           "name" "content" l F).
Qed.

Section CopyFacts.
Variable W : Type.
Variable api : NextDNSApi W.

(** What the vendor returns has the shape of [types.ts]: the entry lists of
    a profile, and the list of rewrites, are arrays of objects. *)
Hypothesis profiles_well_shaped :
  forall pid key w data w',
    api_getProfile api pid key w = (Ok data, w') -> well_shaped data = true.

Hypothesis rewrites_well_shaped :
  forall pid key w rewrites w',
    api_getRewrites api pid key w = (Ok rewrites, w') ->
    entry_list rewrites = true.

Lemma fetchForVerify_returns pid key st :
  exists r st',
    fetchForVerify api pid key st = (Ok r, st')
    /\ forall f, r = Some f ->
                 well_shaped (f_profile f) = true
                 /\ entry_list (f_rewrites f) = true.
Proof.
  unfold fetchForVerify, try_catch, bind, await, ret, throw.
  destruct (api_getProfile api pid key (world st)) as [[data|e] w] eqn:P.
  - simpl. destruct (api_getRewrites api pid key w) as [[rw|e] w'] eqn:R.
    + destruct (is_object data); do 2 eexists; (split; [reflexivity|]);
        intros f E; [|discriminate].
      injection E as <-. simpl. split.
      * exact (profiles_well_shaped _ _ _ _ _ P).
      * exact (rewrites_well_shaped _ _ _ _ _ R).
    + simpl. destruct (is_object data); do 2 eexists; (split; [reflexivity|]);
        intros f E; [|discriminate].
      injection E as <-. simpl. split.
      * exact (profiles_well_shaped _ _ _ _ _ P).
      * reflexivity.
  - do 2 eexists. split; [reflexivity | discriminate].
Qed.

Lemma verifyClone_returns srcKey dstKey srcId destId st :
  exists ms st', verifyClone api srcKey dstKey srcId destId st = (Ok ms, st').
Proof.
  unfold verifyClone. unfold bind at 1.
  destruct (fetchForVerify_returns srcId srcKey st) as (r & st1 & -> & Hs).
  destruct r as [src|]; [|unfold ret; eauto].
  unfold bind.
  destruct (fetchForVerify_returns (to_string destId) dstKey st1)
    as (r & st2 & -> & Hd).
  destruct r as [dst|]; [|unfold ret; eauto].
  destruct (Hs src eq_refl) as [S1 R1]. destruct (Hd dst eq_refl) as [S2 R2].
  destruct (compareClone_returns src dst S1 S2 R1 R2) as [ms E].
  unfold lift. rewrite E. eauto.
Qed.

Lemma forEach_addRewrite_returns destId dstKey clean : forall count st,
  exists n st',
    forEach
      (fun count rewrite =>
         try_catch
           (await (api_addRewrite api destId rewrite dstKey) ;;; ret (S count))
           (fun _ => ret count))
      clean count st
    = (Ok n, st').
Proof.
  induction clean as [|r rs IH]; intros count st; simpl.
  - unfold ret. eauto.
  - unfold bind at 1. unfold try_catch, bind, await, ret.
    destruct (api_addRewrite api destId r dstKey (world st)) as [[u|e] w];
      apply IH.
Qed.

Lemma copyRewrites_returns srcKey dstKey srcId destId st :
  exists r st', copyRewrites api srcKey dstKey srcId destId st = (Ok r, st').
Proof.
  unfold copyRewrites, fetchRewrites. unfold bind at 1.
  unfold try_catch at 1. unfold bind at 1. unfold await at 1.
  destruct (api_getRewrites api srcId srcKey (world st)) as [[rw|e] w] eqn:R.
  - unfold ret at 1.
    destruct (negb (truthy rw) || strict_eq (js_length rw) (JNum 0)) eqn:Z.
    + unfold ret. eauto.
    + apply orb_false_iff in Z as [T _]. apply negb_false_iff in T.
      destruct (entry_list_truthy rw (rewrites_well_shaped _ _ _ _ _ R) T)
        as (l & A & F).
      destruct (cleanRewrites_returns l F) as [clean C].
      unfold bind at 1. unfold lift at 1. rewrite A.
      unfold bind at 1. unfold lift at 1. rewrite C.
      unfold try_catch at 1. unfold bind at 1. unfold await at 1.
      cbn [world log].
      destruct (api_putRewrites api (to_string destId) (JArr clean) dstKey w)
        as [[u|e] w1].
      * unfold ret. eauto.
      * unfold bind at 1.
        destruct (forEach_addRewrite_returns (to_string destId) dstKey clean 0
                    {| world := w1; log := log st |}) as (n & st' & ->).
        unfold ret. eauto.
  - destruct (includes "404" e); unfold ret; eauto.
Qed.

Lemma finishCopy_succeeds options sourceData warnings newId st :
  exists mismatches st' st1 st2,
    finishCopy api options sourceData warnings newId st
    = (Ok {| cr_success := true;
             newProfileId := Some newId;
             verificationMismatches := mismatches;
             skippedFields := getSkippedFields sourceData;
             schemaWarnings := warnings |}, st')
    /\ verifyClone api (sourceApiKey options) (destApiKey options)
         (sourceProfileId options) newId st1 = (Ok mismatches, st2).
Proof.
  unfold finishCopy. unfold bind at 1. unfold emit at 1.
  unfold bind at 1.
  destruct (copyRewrites_returns (sourceApiKey options) (destApiKey options)
              (sourceProfileId options) newId
              {| world := world st; log := log st ++ [StepStart "Copy rewrites"] |})
    as (rr & st1 & ->).
  unfold bind at 1. unfold emit at 1.
  unfold bind at 1. unfold emit at 1.
  unfold bind at 1.
  match goal with
  | |- context [verifyClone api ?a ?b ?c ?d ?s] =>
      destruct (verifyClone_returns a b c d s) as (ms & st2 & E)
  end.
  rewrite E. unfold bind, emit, ret.
  exists ms. do 3 eexists. split; [reflexivity | exact E].
Qed.

End CopyFacts.

(** C8. Whatever the source object holds, a payload returned by
    [reconstructPayload] has no [id], no [fingerprint] and no [setup] key,
    and its [parentalControl], when present, has no [recreation] key; and a
    payload is returned for every source object whose entry lists are
    arrays without [null] items. *)
Theorem reconstructPayload_omits (sourceData : JsVal) :
  (is_nullish sourceData = false -> well_shaped sourceData = true ->
   exists payload, reconstructPayload sourceData = Ok payload)
  /\ forall payload,
       reconstructPayload sourceData = Ok payload ->
       JsObject.get "id" payload = None
       /\ JsObject.get "fingerprint" payload = None
       /\ JsObject.get "setup" payload = None
       /\ (forall pc,
             JsObject.get "parentalControl" payload = Some pc ->
             exists o, pc = JObj o /\ JsObject.get "recreation" o = None).
Proof.
  split; [apply reconstructPayload_returns|].
  intros payload H. payload_stages H.
  assert (other : forall key,
             String.eqb key "name" = false ->
             String.eqb key "security" = false ->
             String.eqb key "privacy" = false ->
             String.eqb key "parentalControl" = false ->
             String.eqb key "denylist" = false ->
             String.eqb key "allowlist" = false ->
             String.eqb key "settings" = false ->
             JsObject.get key payload = None).
  { intros key K1 K2 K3 K4 K5 K6 K7.
    rewrite (copy_if_truthy_other _ _ _ _ _ key H K7).
    rewrite (copy_if_truthy_other _ _ _ _ _ key E4 K6).
    rewrite (copy_if_truthy_other _ _ _ _ _ key E3 K5).
    rewrite (copy_if_truthy_other _ _ _ _ _ key E2 K4).
    rewrite (copy_if_truthy_other _ _ _ _ _ key E1 K3).
    rewrite (copy_if_truthy_other _ _ _ _ _ key E0 K2).
    rewrite JsObjectFacts.get_set, K1. reflexivity. }
  repeat split; try (apply other; reflexivity).
  intros pc G.
  rewrite (copy_if_truthy_other _ _ _ _ _ "parentalControl" H eq_refl) in G.
  rewrite (copy_if_truthy_other _ _ _ _ _ "parentalControl" E4 eq_refl) in G.
  rewrite (copy_if_truthy_other _ _ _ _ _ "parentalControl" E3 eq_refl) in G.
  apply (copy_if_truthy_same _ _ _ _ _ _ E2) in G. destruct G as [G|G].
  - rewrite (copy_if_truthy_other _ _ _ _ _ "parentalControl" E1 eq_refl) in G.
    rewrite (copy_if_truthy_other _ _ _ _ _ "parentalControl" E0 eq_refl) in G.
    rewrite JsObjectFacts.get_set in G. discriminate.
  - unfold reconstructParentalControl in G.
    destruct (copy_if_truthy "services" (idsWithActive false)
                (member_opt "parentalControl" sourceData)
                (defaulted (member_opt "parentalControl" sourceData)
                   (JBool false) parental_flags)) as [o1|] eqn:S1;
      simpl in G; [|discriminate].
    destruct (copy_if_truthy "categories" (idsWithActive false)
                (member_opt "parentalControl" sourceData) o1) as [o2|] eqn:S2;
      simpl in G; [|discriminate].
    injection G as <-. exists o2. split; [reflexivity|].
    rewrite (copy_if_truthy_other _ _ _ _ _ "recreation" S2 eq_refl).
    rewrite (copy_if_truthy_other _ _ _ _ _ "recreation" S1 eq_refl).
    reflexivity.
Qed.

(** The sample profile carries all four fields; its payload has none. *)
Lemma reconstructPayload_omits_witness :
  exists payload,
    reconstructPayload SAMPLE_PROFILE_DATA = Ok payload
    /\ JsObject.get "id" payload = None
    /\ JsObject.get "fingerprint" payload = None
    /\ JsObject.get "setup" payload = None
    /\ (forall pc,
          JsObject.get "parentalControl" payload = Some pc ->
          exists o, pc = JObj o /\ JsObject.get "recreation" o = None).
Proof.
  destruct (reconstructPayload SAMPLE_PROFILE_DATA) as [payload|] eqn:E;
    [|discriminate E].
  exists payload. split; [reflexivity|].
  exact (proj2 (reconstructPayload_omits SAMPLE_PROFILE_DATA) payload E).
Defined.

(* ------------------------------------------------------------------ *)
(** ** Claims about the clone pipeline                                 *)
(* ------------------------------------------------------------------ *)

Section CopyClaims.
Variable W : Type.
Variable api : NextDNSApi W.

Lemma fetchSource_result options st :
  exists lg,
    fetchSource api options st
    = (Ok (option_map fst (sourceFetched api options st)),
       {| world := snd (api_getProfile api (sourceProfileId options)
                          (sourceApiKey options) (world st));
          log := lg |}).
Proof.
  unfold fetchSource, sourceFetched, bind, try_catch, emit, await, lift, ret.
  cbn [world log].
  destruct (api_getProfile api (sourceProfileId options)
              (sourceApiKey options) (world st)) as [[data|e] w].
  - destruct data; simpl; eauto.
  - simpl. eauto.
Qed.

Lemma createDestination_result options payload st :
  exists lg,
    createDestination api options payload st
    = (Ok (match api_createProfile api (JObj payload) (destApiKey options)
                   (world st) with
           | (Ok created, _) =>
               if is_nullish created then None
               else Some (member_opt "id" created)
           | (Throw _, _) => None
           end),
       {| world := snd (api_createProfile api (JObj payload)
                          (destApiKey options) (world st));
          log := lg |}).
Proof.
  unfold createDestination, bind, try_catch, emit, await, lift, ret.
  destruct (api_createProfile api (JObj payload) (destApiKey options)
              (world st)) as [[created|e] w].
  - destruct created; simpl; eauto.
  - simpl. eauto.
Qed.

(** What the vendor returns has the shape of [types.ts]. *)
Hypothesis profiles_well_shaped :
  forall pid key w data w',
    api_getProfile api pid key w = (Ok data, w') -> well_shaped data = true.

Hypothesis rewrites_well_shaped :
  forall pid key w rewrites w',
    api_getRewrites api pid key w = (Ok rewrites, w') ->
    entry_list rewrites = true.


End CopyClaims.

Lemma scripted_profiles_shaped fails :
  forall pid key w data w',
    api_getProfile (scripted fails) pid key w = (Ok data, w') ->
    well_shaped data = true.
Proof.
  intros pid key w data w'. simpl. unfold answer.
  destruct (existsb (Nat.eqb w) fails); intros H; [discriminate|].
  injection H as <- _. reflexivity.
Qed.

Lemma scripted_rewrites_shaped fails :
  forall pid key w rewrites w',
    api_getRewrites (scripted fails) pid key w = (Ok rewrites, w') ->
    entry_list rewrites = true.
Proof.
  intros pid key w data w'. simpl. unfold answer.
  destruct (existsb (Nat.eqb w) fails); intros H; [discriminate|].
  injection H as <- _. reflexivity.
Qed.


(** A run in which the bulk PUT of the rewrites and the POST that follows
    both fail: the failure is reported by the step callback, a mismatch is
    recorded, and the result is still a success. *)
Example copyProfile_degrades_gracefully :
  fst (copyProfile (scripted [3; 4]) copy_options (start 0))
  = Ok {| cr_success := true;
          newProfileId := Some (JStr "new123");
          verificationMismatches := [];
          skippedFields := getSkippedFields SAMPLE_PROFILE_DATA;
          schemaWarnings := [] |}
  /\ In (StepComplete "Copy rewrites" false "Copied 0/1 rewrites (POST method)")
        (log (snd (copyProfile (scripted [3; 4]) copy_options (start 0)))).
Proof. split; [reflexivity | simpl; tauto]. Qed.

Section VerificationSkipped.
Variable W : Type.
Variable api : NextDNSApi W.

Lemma fetchForVerify_failure pid key st e w :
  api_getProfile api pid key (world st) = (Throw e, w) ->
  fetchForVerify api pid key st = (Ok None, {| world := w; log := log st |}).
Proof.
  intros H. unfold fetchForVerify, try_catch, bind, await, ret. now rewrite H.
Qed.

(** The state in which [finishCopy] starts the verification. *)
Definition verify_start (rr : StepResult) (st1 : State W) : State W :=
{| world := world st1;
   log := (log st1
           ++ [StepComplete "Copy rewrites" (sr_success rr) (sr_message rr)])
          ++ [StepStart "Verify clone"] |}.

Lemma finishCopy_unfold options sourceData warnings newId st rr st1 :
  copyRewrites api (sourceApiKey options) (destApiKey options)
    (sourceProfileId options) newId
    {| world := world st; log := log st ++ [StepStart "Copy rewrites"] |}
  = (Ok rr, st1) ->
  forall mismatches st2,
    verifyClone api (sourceApiKey options) (destApiKey options)
      (sourceProfileId options) newId (verify_start rr st1)
    = (Ok mismatches, st2) ->
    exists st',
      finishCopy api options sourceData warnings newId st
      = (Ok {| cr_success := true;
               newProfileId := Some newId;
               verificationMismatches := mismatches;
               skippedFields := getSkippedFields sourceData;
               schemaWarnings := warnings |}, st').
Proof.
  intros C ms st2 V. unfold finishCopy.
  unfold bind at 1. unfold emit at 1. unfold bind at 1. rewrite C.
  unfold bind at 1. unfold emit at 1. unfold bind at 1. unfold emit at 1.
  cbn [world log]. unfold bind at 1. unfold verify_start in V. rewrite V.
  unfold bind, emit, ret. eauto.
Qed.

(** C10. When, during the verification step, the re-fetch of the source
    profile or that of the destination profile fails, no comparison is made:
    the result has [success] true and its mismatch list is the one entry
    saying that the verification was skipped for that profile. *)
Theorem verification_skipped_on_fetch_failure :
  (forall options sourceData warnings newId st rr st1 e w,
      copyRewrites api (sourceApiKey options) (destApiKey options)
        (sourceProfileId options) newId
        {| world := world st; log := log st ++ [StepStart "Copy rewrites"] |}
      = (Ok rr, st1) ->
      api_getProfile api (sourceProfileId options) (sourceApiKey options)
        (world st1) = (Throw e, w) ->
      exists st',
        finishCopy api options sourceData warnings newId st
        = (Ok {| cr_success := true;
                 newProfileId := Some newId;
                 verificationMismatches := [skipped_source];
                 skippedFields := getSkippedFields sourceData;
                 schemaWarnings := warnings |}, st'))
  /\ (forall options sourceData warnings newId st rr st1 src st2 e w,
        copyRewrites api (sourceApiKey options) (destApiKey options)
          (sourceProfileId options) newId
          {| world := world st; log := log st ++ [StepStart "Copy rewrites"] |}
        = (Ok rr, st1) ->
        fetchForVerify api (sourceProfileId options) (sourceApiKey options)
          (verify_start rr st1) = (Ok (Some src), st2) ->
        api_getProfile api (to_string newId) (destApiKey options) (world st2)
        = (Throw e, w) ->
        exists st',
          finishCopy api options sourceData warnings newId st
          = (Ok {| cr_success := true;
                   newProfileId := Some newId;
                   verificationMismatches := [skipped_destination];
                   skippedFields := getSkippedFields sourceData;
                   schemaWarnings := warnings |}, st'))
  /\ (forall options st data st1 warnings payload newId st2,
        fetchSource api options st = (Ok (Some data), st1) ->
        validateApiSchema data = Ok warnings ->
        warnings = [] \/ force options = true ->
        reconstructPayload data = Ok payload ->
        createDestination api options payload
          {| world := world st1;
             log := log st1 ++ gate_log warnings
                    ++ [StepStart "Create new profile"] |}
        = (Ok (Some newId), st2) ->
        copyProfile api options st
        = finishCopy api options data warnings newId st2).
Proof.
  split; [|split].
  - intros options sourceData warnings newId st rr st1 e w C F.
    apply (finishCopy_unfold options sourceData warnings newId st rr st1 C
             [skipped_source] {| world := w; log := log (verify_start rr st1) |}).
    unfold verifyClone. unfold bind at 1.
    rewrite (fetchForVerify_failure _ _ (verify_start rr st1) e w F).
    reflexivity.
  - intros options sourceData warnings newId st rr st1 src st2 e w C S F.
    apply (finishCopy_unfold options sourceData warnings newId st rr st1 C
             [skipped_destination] {| world := w; log := log st2 |}).
    unfold verifyClone. unfold bind at 1. rewrite S.
    unfold bind at 1.
    rewrite (fetchForVerify_failure _ _ st2 e w F). reflexivity.
  - intros options st data st1 warnings payload newId st2 F V G RP C.
    unfold copyProfile. unfold bind at 1. rewrite F.
    unfold bind at 1. unfold lift at 1. rewrite V.
    destruct st1 as [w1 lg1]. cbn [world log] in C.
    destruct G as [->|Hf].
    + unfold bind at 1. unfold ret at 1. cbv iota.
      unfold bind at 1. unfold emit at 1. cbn [world log].
      unfold bind at 1. unfold lift at 1. rewrite RP.
      unfold bind at 1. cbn [gate_log app] in C. rewrite C. reflexivity.
    + destruct warnings as [|x r].
      * unfold bind at 1. unfold ret at 1. cbv iota.
        unfold bind at 1. unfold emit at 1. cbn [world log].
        unfold bind at 1. unfold lift at 1. rewrite RP.
        unfold bind at 1. cbn [gate_log app] in C. rewrite C. reflexivity.
      * unfold bind at 1. unfold bind at 1. unfold emit at 1.
        cbn [world log]. rewrite Hf. cbn [negb]. unfold ret at 1. cbv iota.
        unfold bind at 1. unfold emit at 1. cbn [world log].
        unfold bind at 1. unfold lift at 1. rewrite RP.
        unfold bind at 1. cbn [gate_log] in C.
        rewrite <- app_assoc. rewrite C. reflexivity.
Qed.

End VerificationSkipped.

(** The fifth call of the pipeline is the re-fetch of the source profile:
    when it fails the result is a success with the one advisory entry. *)
Lemma verification_skipped_witness :
  exists st',
    finishCopy (scripted [4]) copy_options SAMPLE_PROFILE_DATA []
      (JStr "new123") {| world := 2; log := [] |}
    = (Ok {| cr_success := true;
             newProfileId := Some (JStr "new123");
             verificationMismatches := [skipped_source];
             skippedFields := getSkippedFields SAMPLE_PROFILE_DATA;
             schemaWarnings := [] |}, st').
Proof.
  destruct (verification_skipped_on_fetch_failure nat (scripted [4]))
    as [H _].
  apply (H copy_options SAMPLE_PROFILE_DATA [] (JStr "new123")
           {| world := 2; log := [] |}
           {| sr_success := true;
              sr_message := "Copied 1 rewrites (PUT method)" |}
           {| world := 4; log := [StepStart "Copy rewrites"] |}
           "HTTP 503" 5); reflexivity.
Defined.

Example copyProfile_skips_verification :
  fst (copyProfile (scripted [4]) copy_options (start 0))
  = Ok {| cr_success := true;
          newProfileId := Some (JStr "new123");
          verificationMismatches := [skipped_source];
          skippedFields := getSkippedFields SAMPLE_PROFILE_DATA;
          schemaWarnings := [] |}
  /\ fst (copyProfile (scripted [6]) copy_options (start 0))
     = Ok {| cr_success := true;
             newProfileId := Some (JStr "new123");
             verificationMismatches := [skipped_destination];
             skippedFields := getSkippedFields SAMPLE_PROFILE_DATA;
             schemaWarnings := [] |}.
Proof. split; reflexivity. Qed.

(* ------------------------------------------------------------------ *)
(** ** Claims about the diff engine                                    *)
(* ------------------------------------------------------------------ *)

Module StringOrder.

Lemma compare_agrees a : forall b,
  OrdersEx.String_as_OT.compare a b = String.compare a b.
Proof.
  induction a as [|x a IH]; destruct b as [|y b]; simpl; try reflexivity.
Qed.

Lemma lt_trans a b c :
  String.compare a b = Lt -> String.compare b c = Lt -> String.compare a c = Lt.
Proof.
  rewrite <- !compare_agrees.
  apply (@RelationClasses.StrictOrder_Transitive _ _
           OrdersEx.String_as_OT.lt_strorder).
Qed.

Lemma compare_refl a : String.compare a a = Eq.
Proof.
  induction a as [|x a IH]; simpl; [reflexivity|].
  unfold Ascii.compare. now rewrite N.compare_refl.
Qed.

Lemma leb_cases a b :
  String.leb a b = true <-> a = b \/ String.compare a b = Lt.
Proof.
  unfold String.leb. destruct (String.compare a b) eqn:C.
  - apply String.compare_eq_iff in C. tauto.
  - tauto.
  - split; [discriminate | intros [->|H]; [|discriminate]].
    rewrite compare_refl in C. discriminate.
Qed.

Lemma leb_trans a b c :
  String.leb a b = true -> String.leb b c = true -> String.leb a c = true.
Proof.
  rewrite !leb_cases. intros [->|H1] [->|H2]; auto.
  right. eapply lt_trans; eassumption.
Qed.

Lemma ltb_false_leb a b : String.ltb a b = false <-> String.leb b a = true.
Proof.
  unfold String.ltb, String.leb. rewrite (String.compare_antisym b a).
  destruct (String.compare a b); simpl; split; congruence.
Qed.

Lemma ltb_true_leb a b : String.ltb a b = true -> String.leb a b = true.
Proof.
  unfold String.ltb, String.leb. destruct (String.compare a b); congruence.
Qed.

Definition le (a b : string) : Prop := String.leb a b = true.

Lemma insert_perm x l : Permutation (insert_string x l) (x :: l).
Proof.
  induction l as [|y r IH]; simpl; [reflexivity|].
  destruct (String.ltb y x); [|reflexivity].
  rewrite IH. apply perm_swap.
Qed.

Lemma sort_perm l : Permutation (sort_strings l) l.
Proof.
  induction l as [|x r IH]; simpl; [reflexivity|].
  rewrite insert_perm. now constructor.
Qed.

Lemma insert_sorted x l :
  StronglySorted le l -> StronglySorted le (insert_string x l).
Proof.
  induction 1 as [|y r Hr IH Hy]; simpl.
  - repeat constructor.
  - destruct (String.ltb y x) eqn:L.
    + constructor; [exact IH|].
      apply Forall_forall. intros z Hz.
      apply (Permutation_in _ (insert_perm x r)) in Hz. destruct Hz as [<-|Hz].
      * now apply ltb_true_leb.
      * rewrite Forall_forall in Hy. now apply Hy.
    + apply ltb_false_leb in L. constructor; [now constructor|].
      constructor; [exact L|].
      apply Forall_forall. intros z Hz. rewrite Forall_forall in Hy.
      exact (leb_trans _ _ _ L (Hy z Hz)).
Qed.

Lemma sort_sorted l : StronglySorted le (sort_strings l).
Proof.
  induction l as [|x r IH]; simpl; [constructor | now apply insert_sorted].
Qed.

Lemma sorted_unique l1 : forall l2,
  StronglySorted le l1 -> StronglySorted le l2 -> Permutation l1 l2 ->
  l1 = l2.
Proof.
  induction l1 as [|a r1 IH]; intros l2 S1 S2 P.
  - apply Permutation_nil in P. now subst.
  - destruct l2 as [|b r2]; [apply Permutation_sym, Permutation_nil in P; discriminate|].
    inversion S1 as [|? ? Sr1 Ha]; subst. inversion S2 as [|? ? Sr2 Hb]; subst.
    assert (a = b).
    { assert (Ia : In a (b :: r2)) by (apply (Permutation_in _ P); now left).
      assert (Ib : In b (a :: r1))
        by (apply (Permutation_in _ (Permutation_sym P)); now left).
      destruct Ia as [E|Ia]; [now subst|].
      destruct Ib as [E|Ib]; [now subst|].
      rewrite Forall_forall in Ha, Hb.
      apply String.leb_antisym; [apply Ha, Ib | apply Hb, Ia]. }
    subst b. f_equal. apply IH; try assumption.
    now apply Permutation_cons_inv in P.
Qed.

Lemma sort_permutation l l' :
  Permutation l l' -> sort_strings l = sort_strings l'.
Proof.
  intros P. apply sorted_unique; try apply sort_sorted.
  rewrite !sort_perm. exact P.
Qed.

End StringOrder.

Lemma every_equals_first_iff (A : Type) (eqb : A -> A -> bool) (xs : list A) :
  (forall x y, eqb x y = true <-> x = y) ->
  every_equals_first eqb xs = true
  <-> forall x y, In x xs -> In y xs -> x = y.
Proof.
  intros E. destruct xs as [|x0 r]; simpl.
  - split; [intros _ x y [] | reflexivity].
  - change (eqb x0 x0 && forallb (fun v => eqb v x0) r)
      with (forallb (fun v => eqb v x0) (x0 :: r)).
    rewrite forallb_forall. split.
    + intros H x y Hx Hy.
      apply H in Hx. apply H in Hy. apply E in Hx. apply E in Hy. congruence.
    + intros H v Hv. apply E. apply H; [exact Hv | now left].
Qed.

Lemma option_string_eqb_eq a b : option_string_eqb a b = true <-> a = b.
Proof.
  destruct a as [x|], b as [y|]; simpl; try (split; congruence).
  rewrite String.eqb_eq. split; congruence.
Qed.

Lemma option_bool_eqb_eq a b : option_bool_eqb a b = true <-> a = b.
Proof.
  destruct a as [[]|], b as [[]|]; simpl; split; congruence.
Qed.

Lemma map_result_Forall2 (A B : Type) (f : A -> Result B) l : forall ys,
  map_result f l = Ok ys -> Forall2 (fun x y => f x = Ok y) l ys.
Proof.
  induction l as [|x r IH]; simpl; intros ys H.
  - injection H as <-. constructor.
  - destruct (f x) as [y|] eqn:F; [|discriminate].
    destruct (map_result f r) as [ys'|]; [|discriminate].
    injection H as <-. constructor; [exact F | now apply IH].
Qed.

Lemma Forall2_In_l (A B : Type) (R : A -> B -> Prop) l ys x :
  Forall2 R l ys -> In x l -> exists y, In y ys /\ R x y.
Proof.
  induction 1 as [|a b l' ys' H _ IH]; simpl; [tauto|].
  intros [->|Hx]; [eauto|].
  destruct (IH Hx) as (y & Hy & Hr). eauto.
Qed.

Lemma Forall2_In_r (A B : Type) (R : A -> B -> Prop) l ys y :
  Forall2 R l ys -> In y ys -> exists x, In x l /\ R x y.
Proof.
  induction 1 as [|a b l' ys' H _ IH]; simpl; [tauto|].
  intros [->|Hy]; [eauto|].
  destruct (IH Hy) as (x & Hx & Hr). eauto.
Qed.

Lemma settingRow_hasDiff allData lbl read row :
  settingRow allData lbl read = Ok row ->
  label row = JStr lbl
  /\ (hasDiff row = false
      <-> forall e1 e2,
            In e1 allData -> In e2 allData ->
            normalizeListForComparison (read (snd e1))
            = normalizeListForComparison (read (snd e2))).
Proof.
  unfold settingRow, JsObject.entries.
  destruct (map_result _ allData) as [cv|] eqn:M; simpl; [|discriminate].
  intros H. injection H as <-. simpl. split; [reflexivity|].
  apply map_result_Forall2 in M.
  rewrite negb_false_iff.
  rewrite (every_equals_first_iff _ _ cv option_string_eqb_eq). split.
  - intros H e1 e2 H1 H2.
    destruct (Forall2_In_l _ _ _ _ _ _ M H1) as (y1 & Y1 & ->).
    destruct (Forall2_In_l _ _ _ _ _ _ M H2) as (y2 & Y2 & ->).
    f_equal. now apply H.
  - intros H x y Hx Hy.
    destruct (Forall2_In_r _ _ _ _ _ _ M Hx) as (e1 & H1 & E1).
    destruct (Forall2_In_r _ _ _ _ _ _ M Hy) as (e2 & H2 & E2).
    specialize (H e1 e2 H1 H2). congruence.
Qed.

Lemma filter_keeps_all (A : Type) (f : A -> bool) l :
  existsb f l = false -> filter (fun x => negb (f x)) l = l.
Proof.
  induction l as [|x r IH]; simpl; [reflexivity|].
  destruct (f x); simpl; [discriminate|]. intros H. now rewrite IH.
Qed.

Lemma domainRow_hasDiff allData lt dom :
  hasDiff (domainRow allData lt dom) = false
  <-> (forall e, In e allData ->
                 is_null_state (domainState lt dom (snd e)) = false)
      /\ (forall e1 e2, In e1 allData -> In e2 allData ->
                        domainState lt dom (snd e1)
                        = domainState lt dom (snd e2)).
Proof.
  unfold domainRow, JsObject.entries. cbn [hasDiff].
  rewrite map_map. cbn [snd].
  set (states := map (fun e => snd (domainCell (prop_of dom (diff_list_of lt (snd e)))))
                   allData).
  assert (S : forall s, In s states
                        <-> exists e, In e allData /\ domainState lt dom (snd e) = s).
  { intros s. unfold states. rewrite in_map_iff. unfold domainState.
    split; intros (e & A & B); exists e; tauto. }
  rewrite orb_false_iff. split.
  - intros [N D].
    assert (K : filter (fun s => negb (is_null_state s)) states = states).
    { now apply filter_keeps_all. }
    rewrite K in D. split.
    + intros e He.
      destruct (is_null_state (domainState lt dom (snd e))) eqn:Z; [|reflexivity].
      assert (X : existsb is_null_state states = true).
      { apply existsb_exists. exists (domainState lt dom (snd e)).
        split; [apply S; eauto | exact Z]. }
      congruence.
    + intros e1 e2 H1 H2.
      apply andb_false_iff in D. destruct D as [D|D].
      * apply negb_false_iff, Nat.eqb_eq in D.
        assert (I : In (domainState lt dom (snd e1)) states)
          by (apply S; eauto).
        destruct states; [destruct I | discriminate].
      * apply negb_false_iff in D.
        apply (proj1 (every_equals_first_iff _ _ states option_bool_eqb_eq) D);
          apply S; eauto.
  - intros [N D].
    assert (X : existsb is_null_state states = false).
    { destruct (existsb is_null_state states) eqn:Z; [|reflexivity].
      apply existsb_exists in Z as (s & Hs & Z).
      apply S in Hs as (e & He & <-). rewrite (N e He) in Z. discriminate. }
    split; [exact X|].
    assert (K : filter (fun s => negb (is_null_state s)) states = states).
    { now apply filter_keeps_all. }
    rewrite K. apply andb_false_iff. right. apply negb_false_iff.
    apply (proj2 (every_equals_first_iff _ _ states option_bool_eqb_eq)).
    intros x y Hx Hy. apply S in Hx as (e1 & H1 & <-).
    apply S in Hy as (e2 & H2 & <-). now apply D.
Qed.

Lemma js_sort_strings ss :
  js_sort (map JStr ss) = map JStr (sort_strings ss).
Proof.
  induction ss as [|x r IH]; simpl; [reflexivity|].
  rewrite IH. generalize (sort_strings r). intros l.
  induction l as [|y l' IHl]; simpl; [reflexivity|].
  destruct (String.ltb y x); simpl; [now rewrite IHl | reflexivity].
Qed.

Lemma ids_of_entries l :
  forallb id_entry l = true ->
  map_result idOrString l = Ok (map JStr (map entry_id l)).
Proof.
  induction l as [|v r IH]; simpl; [reflexivity|].
  rewrite andb_true_iff. intros [Hv Hr]. rewrite (IH Hr).
  destruct v as [| | | | |?|o]; try discriminate.
  unfold idOrString, id_entry, entry_id in *. simpl.
  destruct (prop_of "id" o) as [| | | |s| |]; try discriminate.
  unfold js_or. simpl. rewrite Hv. reflexivity.
Qed.

Lemma strings_are_texts l :
  forallb is_string l = true -> l = map JStr (map text_of l).
Proof.
  induction l as [|v r IH]; simpl; [reflexivity|].
  rewrite andb_true_iff. intros [Hv Hr]. rewrite <- (IH Hr).
  destruct v; try discriminate. reflexivity.
Qed.

Lemma normalize_entries l :
  forallb id_entry l = true ->
  normalizeListForComparison (JArr l)
  = Ok (JSON_stringify (JArr (map JStr (sort_strings (map entry_id l))))).
Proof.
  intros H. destruct l as [|v r]; [reflexivity|].
  unfold normalizeListForComparison.
  rewrite (ids_of_entries _ H). cbn [bind_result].
  rewrite js_sort_strings.
  simpl in H. apply andb_true_iff in H as [Hv _].
  destruct v; try discriminate. reflexivity.
Qed.

Lemma normalize_strings l :
  forallb is_string l = true ->
  normalizeListForComparison (JArr l)
  = Ok (JSON_stringify (JArr (map JStr (sort_strings (map text_of l))))).
Proof.
  intros H. destruct l as [|v r]; [reflexivity|].
  rewrite (strings_are_texts _ H) at 1. rewrite <- js_sort_strings.
  rewrite <- (strings_are_texts _ H).
  simpl in H. apply andb_true_iff in H as [Hv _].
  destruct v; try discriminate. reflexivity.
Qed.

Lemma forallb_permutation (A : Type) (f : A -> bool) l l' :
  Permutation l l' -> forallb f l = true -> forallb f l' = true.
Proof.
  intros P. rewrite !forallb_forall. intros H x Hx.
  apply H. exact (Permutation_in _ (Permutation_sym P) Hx).
Qed.

Lemma normalize_permutation l l' :
  Permutation l l' ->
  forallb id_entry l = true \/ forallb is_string l = true ->
  normalizeListForComparison (JArr l) = normalizeListForComparison (JArr l').
Proof.
  intros P [H|H].
  - rewrite (normalize_entries _ H).
    rewrite (normalize_entries _ (forallb_permutation _ _ _ _ P H)).
    now rewrite (StringOrder.sort_permutation _ _ (Permutation_map entry_id P)).
  - rewrite (normalize_strings _ H).
    rewrite (normalize_strings _ (forallb_permutation _ _ _ _ P H)).
    now rewrite (StringOrder.sort_permutation _ _ (Permutation_map text_of P)).
Qed.

Lemma normalize_permuted_value v v' :
  permuted_value v v' ->
  normalizeListForComparison v = normalizeListForComparison v'.
Proof.
  intros [->|(l & l' & -> & -> & P & U)]; [reflexivity|].
  now apply normalize_permutation.
Qed.

Lemma map_result_pointwise (A A' B : Type) (f : A -> Result B)
  (g : A' -> Result B) l l' :
  Forall2 (fun x x' => f x = g x') l l' -> map_result f l = map_result g l'.
Proof.
  induction 1 as [|x x' r r' E _ IH]; simpl; [reflexivity|].
  now rewrite E, IH.
Qed.

Lemma map_result_ext (A B : Type) (f g : A -> Result B) l :
  (forall x, In x l -> f x = g x) -> map_result f l = map_result g l.
Proof.
  induction l as [|x r IH]; simpl; intros H; [reflexivity|].
  rewrite (H x (or_introl eq_refl)), IH; [reflexivity|].
  intros y Hy. apply H. now right.
Qed.

(** The flag of one row, or the exception. *)
Lemma settingRow_flag allData lbl read :
  (row <-- settingRow allData lbl read ;; Ok (hasDiff row))
  = (cv <-- map_result (fun e => normalizeListForComparison (read (snd e)))
              allData ;;
     Ok (negb (every_equals_first option_string_eqb cv))).
Proof.
  unfold settingRow, JsObject.entries.
  now destruct (map_result _ allData).
Qed.

Lemma flags_of_map_result (A : Type) (f : A -> Result DiffRow) l :
  flags_of (map_result f l)
  = map_result (fun x => row <-- f x ;; Ok (hasDiff row)) l.
Proof.
  unfold flags_of. induction l as [|x r IH]; simpl; [reflexivity|].
  destruct (f x) as [row|m]; simpl; [|reflexivity].
  rewrite <- IH. now destruct (map_result f r).
Qed.

Lemma compareSettings_permuted sn fields allData allData' :
  permuted_fields sn fields allData allData' ->
  flags_of (compareSettings allData sn fields)
  = flags_of (compareSettings allData' sn fields).
Proof.
  intros P. unfold compareSettings. rewrite !flags_of_map_result.
  apply map_result_ext. intros field Hf. rewrite !settingRow_flag.
  f_equal. apply map_result_pointwise.
  unfold permuted_fields in P.
  induction P as [|e e' r r' H _ IH]; constructor; [|exact IH].
  apply normalize_permuted_value. exact (H field Hf).
Qed.

Lemma compareSettings_rows allData sn fields rows :
  compareSettings allData sn fields = Ok rows ->
  Forall2
    (fun field row =>
       label row = JStr field
       /\ (hasDiff row = false <-> same_key allData (field_of sn field)))
    fields rows.
Proof.
  unfold compareSettings. intros H. apply map_result_Forall2 in H.
  induction H as [|field row fs rs H _ IH]; constructor; [|exact IH].
  exact (settingRow_hasDiff _ _ _ _ H).
Qed.

Lemma compareNestedSettings_rows allData sn fields rows :
  compareNestedSettings allData sn fields = Ok rows ->
  Forall
    (fun row =>
       exists field, In field fields
         /\ ((label row = JStr field
              /\ (hasDiff row = false <-> same_key allData (field_of sn field)))
             \/ exists subfield,
                  label row = JStr (field ++ "." ++ subfield)
                  /\ (hasDiff row = false
                      <-> same_key allData (subfield_of sn field subfield))))
    rows.
Proof.
  unfold compareNestedSettings, JsObject.entries.
  destruct allData as [|first rest] eqn:Ea; [discriminate|]. rewrite <- Ea.
  destruct (map_result _ fields) as [groups|] eqn:G; simpl; [|discriminate].
  intros H. injection H as <-.
  apply map_result_Forall2 in G.
  apply Forall_forall. intros row Hrow.
  apply in_concat in Hrow as (g & Hg & Hrow).
  destruct (Forall2_In_r _ _ _ _ _ _ G Hg) as (field & Hf & Hgrp).
  exists field. split; [exact Hf|].
  destruct (member_opt field (section_of sn (snd first))) as [| | | | | |fv].
  7: { right. apply map_result_Forall2 in Hgrp.
       destruct (Forall2_In_r _ _ _ _ _ _ Hgrp Hrow) as (sub & _ & Hr).
       exists sub. exact (settingRow_hasDiff _ _ _ _ Hr). }
  all: left;
    destruct (settingRow allData field _) as [r|] eqn:Hr; [|discriminate];
    simpl in Hgrp; injection Hgrp as <-;
    destruct Hrow as [<-|[]];
    exact (settingRow_hasDiff _ _ _ _ Hr).
Qed.

Lemma compareDenylistAllowlist_rows allData lt :
  Forall
    (fun row =>
       exists dom, label row = JStr dom
         /\ (hasDiff row = false <-> same_state allData lt dom))
    (compareDenylistAllowlist allData lt).
Proof.
  unfold compareDenylistAllowlist.
  destruct (allDomains_of allData lt) as [|d ds]; [constructor|].
  apply Forall_forall. intros row Hrow.
  apply in_map_iff in Hrow as (dom & <- & _).
  exists dom. split; [reflexivity|]. apply domainRow_hasDiff.
Qed.




(** The flags of the witness, evaluated: the row has no difference in
    either order. *)
Example reordered_vendor_tags_agree :
  flags_of (compareSettings (reordered vendor_tags) sn_security ["csam"])
  = Ok [false]
  /\ flags_of
       (compareSettings (reordered (rev vendor_tags)) sn_security ["csam"])
     = Ok [false].
Proof. split; vm_compute; reflexivity. Qed.

(* ------------------------------------------------------------------ *)
(** ** Executing a sync plan                                           *)
(* ------------------------------------------------------------------ *)

Lemma retryLoop_last_call (W A : Type) (fn : M W A) (n : nat) :
  forall (lastError : option string) (st : State W),
  exists k, k < S n
    /\ (forall j, j < k -> rate_limited (fn (after_calls fn j st)) = true)
    /\ (S k < S n -> rate_limited (fn (after_calls fn k st)) = false)
    /\ retryLoop fn (S n) lastError st = fn (after_calls fn k st).
Proof.
  induction n as [|n IH]; intros lastError st.
  - exists 0. split; [lia|]. split; [intros j Hj; lia|]. split; [lia|].
    simpl. unfold try_catch, throw.
    destruct (fn st) as [[a|e] st'] eqn:E; [reflexivity|].
    destruct (includes "rateLimit" e); reflexivity.
  - destruct (fn st) as [[a|e] st'] eqn:E.
    + exists 0. split; [lia|]. split; [intros j Hj; lia|].
      split; [intros _; unfold rate_limited; simpl; now rewrite E|].
      simpl. unfold try_catch. now rewrite E.
    + destruct (includes "rateLimit" e) eqn:R.
      * destruct (IH (Some e) st') as (k & Hk & Hbefore & Hlast & Hrun).
        exists (S k). split; [lia|]. split; [|split].
        -- intros [|j] Hj.
           ++ unfold rate_limited. simpl. now rewrite E.
           ++ simpl. rewrite E. simpl. apply Hbefore. lia.
        -- intros Hlt. simpl. rewrite E. simpl. apply Hlast. lia.
        -- change (after_calls fn (S k) st)
             with (after_calls fn k (snd (fn st))).
           rewrite E. cbn [snd]. rewrite <- Hrun.
           cbn [retryLoop]. unfold try_catch at 1. rewrite E, R. reflexivity.
      * exists 0. split; [lia|]. split; [intros j Hj; lia|].
        split; [intros _; unfold rate_limited; simpl; now rewrite E|].
        cbn [retryLoop after_calls]. unfold try_catch at 1.
        rewrite E, R. reflexivity.
Qed.

(** [rateLimitedRequest] calls [fn] at least once and at most [maxRetries]
    times; every call but the last was answered by a rate-limit error, it
    stops at the first call that is not, and its own outcome, value or
    error, is the outcome of its last call.  With no attempt allowed it
    throws [undefined] without calling [fn]. *)
Theorem rateLimitedRequest_last_call (W A : Type) (fn : M W A)
  (maxRetries : nat) (st : State W) :
  (maxRetries = 0 ->
   rateLimitedRequest fn maxRetries st = (Throw "undefined", st))
  /\ (0 < maxRetries ->
      exists k, k < maxRetries
        /\ (forall j, j < k -> rate_limited (fn (after_calls fn j st)) = true)
        /\ (S k < maxRetries ->
            rate_limited (fn (after_calls fn k st)) = false)
        /\ rateLimitedRequest fn maxRetries st = fn (after_calls fn k st)).
Proof.
  split.
  - intros ->. reflexivity.
  - intros H. destruct maxRetries as [|n]; [lia|].
    apply retryLoop_last_call.
Qed.

(** Two throttled answers, then success: the third call is the last. *)
Lemma rateLimitedRequest_last_call_witness :
  rateLimitedRequest
    (await (api_addDomain (throttled 2) "p1" "ads.example" denylist true "key"))
    3 (start 0)
  = (Ok tt, {| world := 3; log := [] |}).
Proof.
  destruct (proj2 (rateLimitedRequest_last_call nat unit
                     (await (api_addDomain (throttled 2) "p1" "ads.example"
                               denylist true "key"))
                     3 (start 0)))
    as (k & Hk & Hbefore & Hlast & Hrun); [lia|].
  rewrite Hrun.
  destruct k as [|[|[|k]]]; [| |reflexivity|lia].
  - specialize (Hlast ltac:(lia)). discriminate Hlast.
  - specialize (Hlast ltac:(lia)). discriminate Hlast.
Defined.

Section ExecuteSyncFacts.
Variable W : Type.
Variable api : NextDNSApi W.
Variable cbs : SyncCallbacks W.
Hypothesis callback_returns : progress_returns cbs.

Lemma request_caught apiKey op st :
  exists error st',
    try_catch (requestOperation api apiKey op ;;; ret None)
      (fun error => ret (Some error)) st
    = (Ok error, st').
Proof.
  unfold try_catch, bind, ret.
  destruct (requestOperation api apiKey op st) as [[u|e] st']; eauto.
Qed.

Definition tallied (r : ExecResult) : Prop :=
addSuccess r = tally true true (exec_results r)
/\ addFail r = tally true false (exec_results r)
/\ updateSuccess r = tally false true (exec_results r)
/\ updateFail r = tally false false (exec_results r).

Lemma tally_app adds ok rs x :
  tally adds ok (rs ++ [x])
  = tally adds ok rs
    + (if Bool.eqb (is_add (res_operation x)) adds
          && Bool.eqb (res_success x) ok then 1 else 0).
Proof.
  unfold tally. rewrite filter_app, length_app. simpl.
  destruct (_ && _); reflexivity.
Qed.

Lemma counted_tallied acc op error :
  tallied acc -> tallied (counted acc op error).
Proof.
  intros (H1 & H2 & H3 & H4). unfold tallied, counted.
  destruct error as [e|]; destruct (type op) eqn:T; cbn [addSuccess addFail
    updateSuccess updateFail exec_results];
    rewrite !tally_app; unfold is_add, resultOf; cbn [res_operation
      res_success]; rewrite T; cbn; rewrite H1, H2, H3, H4; repeat split; lia.
Qed.

Lemma counted_results acc op error :
  exec_results (counted acc op error)
  = exec_results acc ++ [resultOf op error].
Proof. unfold counted. destruct error, (type op); reflexivity. Qed.

Lemma executeLoop_accounts apiKey total operations : forall i acc st,
  tallied acc ->
  exists r st',
    executeLoop api apiKey cbs total operations i acc st = (Ok r, st')
    /\ map res_operation (exec_results r)
       = map res_operation (exec_results acc) ++ operations
    /\ tallied r.
Proof.
  induction operations as [|op rest IH]; intros i acc st T.
  - exists acc, st. simpl. rewrite app_nil_r.
    split; [reflexivity|]. split; [reflexivity|exact T].
  - cbn [executeLoop]. unfold bind at 1.
    destruct (request_caught apiKey op st) as (error & st1 & ->).
    unfold bind at 1.
    destruct (callback_returns (resultOf op error) (S i) total st1)
      as (st2 & ->).
    destruct (IH (S i) (counted acc op error) st2 (counted_tallied _ _ _ T))
      as (r & st' & E & M & T').
    exists r, st'. split; [exact E|]. split; [|exact T'].
    rewrite M, counted_results, map_app, <- app_assoc. reflexivity.
Qed.

End ExecuteSyncFacts.

(** When the progress callback returns whenever called (or is absent),
    [executeSync] outside a dry run never throws, whatever the client
    answers: it records one result per selected operation, in the order of
    the plan, and its four counters are the numbers of recorded results of
    each kind and outcome. *)
Theorem executeSync_accounts (W : Type) (api : NextDNSApi W)
  (cbs : SyncCallbacks W) (options : SyncListsOptions)
  (analysis : SyncAnalysis) (st : State W) :
  progress_returns cbs ->
  so_dryRun options = false ->
  exists r st',
    executeSync api options analysis cbs st = (Ok r, st')
    /\ map res_operation (exec_results r)
       = selectedOperations (so_listType options) analysis
    /\ addSuccess r = tally true true (exec_results r)
    /\ addFail r = tally true false (exec_results r)
    /\ updateSuccess r = tally false true (exec_results r)
    /\ updateFail r = tally false false (exec_results r).
Proof.
  intros C D. unfold executeSync. rewrite D.
  destruct (executeLoop_accounts W api cbs C (so_apiKey options)
              (List.length (selectedOperations (so_listType options) analysis))
              (selectedOperations (so_listType options) analysis)
              0 no_results st)
    as (r & st' & E & M & T).
  { repeat split. }
  exists r, st'. split; [exact E|]. split; [exact M|]. exact T.
Qed.

Lemma executeSync_accounts_witness :
  exists r st',
    executeSync (throttled 1) (sync_options st_both false) scenario_analysis
      (no_callbacks nat) (start 0)
    = (Ok r, st')
    /\ map res_operation (exec_results r)
       = selectedOperations st_both scenario_analysis
    /\ addSuccess r = tally true true (exec_results r)
    /\ addFail r = tally true false (exec_results r)
    /\ updateSuccess r = tally false true (exec_results r)
    /\ updateFail r = tally false false (exec_results r).
Proof.
  apply (executeSync_accounts nat (throttled 1) (no_callbacks nat)
           (sync_options st_both false) scenario_analysis (start 0)).
  - intros result completed total st. exists st. reflexivity.
  - reflexivity.
Defined.

Lemma analyzeSync_same_reads (W : Type) (api api' : NextDNSApi W) options :
  same_reads api api' -> analyzeSync api options = analyzeSync api' options.
Proof.
  intros [H1 H2]. unfold analyzeSync, getProfileListData.
  rewrite H1, H2. reflexivity.
Qed.

(** A dry run of [syncLists] depends on the client through [getProfiles] and
    [getProfile] alone: whatever [addDomain], [updateDomainStatus] and the
    other endpoints would do, the outcome and the final state are the same,
    and the execution part of a returned result is empty. *)
Theorem syncLists_dry_run (W : Type) (api api' : NextDNSApi W)
  (cbs : SyncCallbacks W) (options : SyncListsOptions) (st : State W) :
  so_dryRun options = true ->
  same_reads api api' ->
  syncLists api options cbs st = syncLists api' options cbs st
  /\ (forall r st',
        syncLists api options cbs st = (Ok r, st') -> snd r = no_results).
Proof.
  intros D R. unfold syncLists, executeSync. rewrite D.
  rewrite (analyzeSync_same_reads W api api' _ R). split; [reflexivity|].
  intros r st'. unfold bind, ret.
  destruct (analyzeSync api' _ st) as [[a|e] st1]; [|discriminate].
  destruct (match onAnalysisComplete cbs with
            | Some f => f (snd a)
            | None => fun s => (Ok tt, s)
            end st1) as [[u|e] st2]; [|discriminate].
  intros H. injection H as <- _. reflexivity.
Qed.

(** A dry run against a client whose writing endpoints always fail gives
    what it gives against one whose writing endpoints succeed. *)
Lemma syncLists_dry_run_witness :
  syncLists failingP2 (sync_options st_both true) (no_callbacks nat) (start 0)
  = syncLists
      {| api_getProfiles := api_getProfiles failingP2;
         api_getProfile := api_getProfile failingP2;
         api_createProfile := fun _ _ w => (Throw "HTTP 500", w);
         api_addDomain := fun _ _ _ _ _ w => (Throw "HTTP 500", w);
         api_updateDomainStatus := fun _ _ _ _ _ w => (Throw "HTTP 500", w);
         api_removeDomain := fun _ _ _ _ w => (Throw "HTTP 500", w);
         api_getRewrites := fun _ _ w => (Throw "HTTP 500", w);
         api_addRewrite := fun _ _ _ w => (Throw "HTTP 500", w);
         api_putRewrites := fun _ _ _ w => (Throw "HTTP 500", w) |}
      (sync_options st_both true) (no_callbacks nat) (start 0).
Proof.
  apply (syncLists_dry_run nat failingP2 _ (no_callbacks nat)
           (sync_options st_both true) (start 0)).
  - reflexivity.
  - split; reflexivity.
Defined.

(** With fewer than two target profiles [analyzeSync] and [diffProfiles]
    stop right after [getProfiles], before the data of any profile is
    fetched: with the error that none of the requested profiles exists when
    ids were given and none matched, with the error that two profiles are
    needed otherwise. *)
Theorem too_few_profiles (W : Type) (api : NextDNSApi W) :
  (forall options st all w0,
      api_getProfiles api (ao_apiKey options) (world st) = (Ok all, w0) ->
      List.length (requested (ao_profileIds options) all) < 2 ->
      analyzeSync api options st
      = (Throw (guard_message "sync" (ao_profileIds options)
                  (requested (ao_profileIds options) all)),
         {| world := w0; log := log st |}))
  /\ (forall options st all w0,
        api_getProfiles api (do_apiKey options) (world st) = (Ok all, w0) ->
        List.length (requested (do_profileIds options) all) < 2 ->
        diffProfiles api options st
        = (Throw (guard_message "compare" (do_profileIds options)
                    (requested (do_profileIds options) all)),
           {| world := w0; log := log st |})).
Proof.
  split; intros options st all w0 G H.
  - unfold analyzeSync. unfold bind at 1. unfold await at 1. rewrite G.
    unfold requested, guard_message in *. unfold bind, throw, ret.
    destruct (ao_profileIds options) as [[|i r]|].
    + apply Nat.ltb_lt in H. now rewrite H.
    + destruct (selectProfiles (i :: r) all) as [|p ps] eqn:S; [reflexivity|].
      apply Nat.ltb_lt in H. now rewrite H.
    + apply Nat.ltb_lt in H. now rewrite H.
  - unfold diffProfiles. unfold bind at 1. unfold await at 1. rewrite G.
    unfold requested, guard_message in *. unfold bind, throw, ret.
    destruct (do_profileIds options) as [[|i r]|].
    + apply Nat.ltb_lt in H. now rewrite H.
    + destruct (selectProfiles (i :: r) all) as [|p ps] eqn:S; [reflexivity|].
      apply Nat.ltb_lt in H. now rewrite H.
    + apply Nat.ltb_lt in H. now rewrite H.
Qed.

(** An account with a single profile: the analysis stops after the first
    call. *)
Lemma too_few_profiles_witness :
  analyzeSync one_profile analyze_all (start 0)
  = (Throw "Need at least 2 profiles to sync", {| world := 1; log := [] |}).
Proof.
  apply (proj1 (too_few_profiles nat one_profile) analyze_all (start 0)
           [ {| id := "p1"; name := "Home" |} ] 1).
  - reflexivity.
  - simpl. lia.
Defined.

(* ------------------------------------------------------------------ *)
(** ** What majority voting costs                                      *)
(* ------------------------------------------------------------------ *)

Lemma filter_flat_map (A B : Type) (p : B -> bool) (f : A -> list B) l :
  filter p (flat_map f l) = flat_map (fun x => filter p (f x)) l.
Proof.
  induction l as [|x r IH]; simpl; [reflexivity|].
  now rewrite filter_app, IH.
Qed.

Lemma flat_map_nil (A B : Type) (f : A -> list B) l :
  (forall x, In x l -> f x = []) -> flat_map f l = [].
Proof.
  induction l as [|x r IH]; simpl; intros H; [reflexivity|].
  rewrite (H x (or_introl eq_refl)), IH; [reflexivity|].
  intros y Hy. apply H. now right.
Qed.

(** The one entry of a dictionary stored under a key. *)
Lemma flat_map_at_key (V B : Type) (g : string * V -> list B) dom
  (o : JsObj V) :
  JsObject.wf o ->
  flat_map (fun d => if String.eqb (fst d) dom then g d else []) o
  = match JsObject.get dom o with
    | Some v => g (dom, v)
    | None => []
    end.
Proof.
  unfold JsObject.wf. induction o as [|[k v] r IH]; simpl; intros N;
    [reflexivity|].
  inversion N as [|? ? Hk Hr]; subst.
  rewrite (String.eqb_sym dom k).
  destruct (String.eqb_spec k dom) as [->|ne].
  - rewrite flat_map_nil; [apply app_nil_r|].
    intros [k' v'] Hin. simpl.
    destruct (String.eqb_spec k' dom) as [->|]; [|reflexivity].
    exfalso. apply Hk. change dom with (fst (dom, v')). now apply in_map.
  - simpl. now apply IH.
Qed.

Lemma filter_none (A : Type) (p : A -> bool) l :
  (forall x, In x l -> p x = false) -> filter p l = [].
Proof.
  induction l as [|x r IH]; simpl; intros H; [reflexivity|].
  rewrite (H x (or_introl eq_refl)). apply IH. intros y Hy. apply H. now right.
Qed.

Lemma length_flat_map_count (A B : Type) (p : A -> bool) (f : A -> list B) l :
  (forall x, In x l -> List.length (f x) = if p x then 1 else 0) ->
  List.length (flat_map f l) = List.length (filter p l).
Proof.
  induction l as [|x r IH]; simpl; intros H; [reflexivity|].
  rewrite length_app, (H x (or_introl eq_refl)), IH.
  - destruct (p x); reflexivity.
  - intros y Hy. apply H. now right.
Qed.

Lemma wf_fold_set (A B : Type) (f : A -> B) (es : JsObj A) :
  forall c : JsObj B,
    JsObject.wf c ->
    JsObject.wf
      (fold_left (fun c e => JsObject.set (fst e) (f (snd e)) c) es c).
Proof.
  induction es as [|e r IH]; simpl; intros c Hc; [exact Hc|].
  apply IH. now apply JsObjectFacts.wf_set.
Qed.

Lemma wf_getCanonicalDomains allData lt :
  JsObject.wf (getCanonicalDomains allData lt).
Proof.
  unfold getCanonicalDomains, JsObject.entries.
  apply (wf_fold_set _ _ (fun c => Nat.leb (disabled c) (enabled c))).
  apply JsObjectFacts.wf_empty.
Qed.

Lemma booleans_get l dom v :
  booleans l = true -> JsObject.get dom l = Some v -> exists b, v = JBool b.
Proof.
  intros B G. apply JsObjectFacts.get_In in G.
  unfold booleans in B. rewrite forallb_forall in B.
  specialize (B _ G). simpl in B. destruct v; try discriminate. eauto.
Qed.

Lemma votes_count (pred : JsVal -> bool) dom lt (allData : JsObj ProfileListData) :
  votes pred dom lt allData
  = List.length
      (filter
         (fun e : string * ProfileListData =>
            match JsObject.get dom (list_of lt (snd e)) with
            | Some v => pred v
            | None => false
            end)
         allData).
Proof.
  unfold votes, JsObject.values.
  induction allData as [|e r IH]; simpl; [reflexivity|].
  destruct (JsObject.get dom (list_of lt (snd e))) as [v|]; simpl.
  - destruct (pred v); simpl; now rewrite IH.
  - exact IH.
Qed.

Lemma filter_ext_length (A : Type) (p q : A -> bool) l :
  (forall x, In x l -> p x = q x) ->
  List.length (filter p l) = List.length (filter q l).
Proof.
  induction l as [|x r IH]; simpl; intros H; [reflexivity|].
  rewrite (H x (or_introl eq_refl)).
  destruct (q x); simpl; rewrite IH; auto; intros y Hy; apply H; now right.
Qed.

Lemma filter_complement_length (A : Type) (p : A -> bool) l :
  List.length (filter (fun x => negb (p x)) l)
  = List.length l - List.length (filter p l).
Proof.
  induction l as [|x r IH]; [reflexivity|].
  pose proof (filter_length_le p r) as L.
  cbn [filter List.length]. destruct (p x); cbn [negb List.length]; lia.
Qed.

Section Majority.
Variable allData : JsObj ProfileListData.
Variable lt : ListType.
Hypothesis lists_wf :
  Forall (fun pdata => JsObject.wf (list_of lt pdata)) (JsObject.values allData).
Hypothesis lists_boolean :
  Forall (fun pdata => booleans (list_of lt pdata) = true)
    (JsObject.values allData).

Lemma entry_boolean e dom v :
  In e allData -> JsObject.get dom (list_of lt (snd e)) = Some v ->
  exists b, v = JBool b.
Proof.
  intros He G. rewrite Forall_forall in lists_boolean.
  apply (booleans_get (list_of lt (snd e)) dom v); [|exact G].
  apply lists_boolean. unfold JsObject.values. now apply in_map.
Qed.

Lemma updates_at dom should :
  List.length (flat_map (updatesOf lt dom should) allData)
  = if should then disabledCount dom lt allData
    else enabledCount dom lt allData.
Proof.
  rewrite (length_flat_map_count _ _
             (fun e : string * ProfileListData =>
                match JsObject.get dom (list_of lt (snd e)) with
                | Some v => if should then negb (truthy v) else truthy v
                | None => false
                end)).
  - unfold disabledCount, enabledCount. rewrite !votes_count.
    destruct should; reflexivity.
  - intros e He. unfold updatesOf, prop_of.
    destruct (JsObject.get dom (list_of lt (snd e))) as [v|] eqn:G;
      [|reflexivity].
    destruct (entry_boolean e dom v He G) as [b ->].
    destruct b, should; reflexivity.
Qed.

Lemma adds_at dom should :
  List.length (flat_map (addsOf lt dom should) allData)
  = List.length allData - holderCount dom lt allData.
Proof.
  rewrite (length_flat_map_count _ _
             (fun e : string * ProfileListData =>
                negb match JsObject.get dom (list_of lt (snd e)) with
                     | Some v => true
                     | None => false
                     end)).
  - rewrite filter_complement_length. unfold holderCount.
    now rewrite votes_count.
  - intros e He. unfold addsOf, prop_of.
    destruct (JsObject.get dom (list_of lt (snd e))) as [v|] eqn:G;
      [|reflexivity].
    destruct (entry_boolean e dom v He G) as [b ->]. reflexivity.
Qed.

Lemma ops_at_domain (kind : ListType -> string -> bool ->
                            string * ProfileListData -> list SyncOperation)
  dom (canonical : JsObj bool) :
  (forall d should e op, In op (kind lt d should e) -> domain op = d) ->
  JsObject.wf canonical ->
  opsFor dom
    (flat_map (fun d => flat_map (kind lt (fst d) (snd d)) allData) canonical)
  = match JsObject.get dom canonical with
    | Some should => flat_map (kind lt dom should) allData
    | None => []
    end.
Proof.
  intros K Wc. unfold opsFor. rewrite filter_flat_map.
  transitivity
    (flat_map
       (fun d : string * bool =>
          if String.eqb (fst d) dom
          then flat_map (kind lt (fst d) (snd d)) allData else [])
       canonical).
  2:{ rewrite (flat_map_at_key bool SyncOperation
                 (fun d => flat_map (kind lt (fst d) (snd d)) allData)
                 dom canonical Wc).
      destruct (JsObject.get dom canonical); reflexivity. }
  apply flat_map_ext. intros [d should]. cbn [fst snd].
  destruct (String.eqb_spec d dom) as [->|ne].
  - apply forallb_filter_id. apply forallb_forall. intros op Hop.
    apply in_flat_map in Hop as (e & _ & Hop).
    rewrite (K _ _ _ _ Hop). apply String.eqb_refl.
  - rewrite filter_flat_map. apply flat_map_nil. intros e _.
    apply filter_none. intros op Hop. rewrite (K _ _ _ _ Hop).
    now apply String.eqb_neq.
Qed.

End Majority.

Lemma votes_split dom lt allData :
  enabledCount dom lt allData + disabledCount dom lt allData
  = holderCount dom lt allData.
Proof.
  unfold enabledCount, disabledCount, holderCount, votes, JsObject.values.
  induction allData as [|e r IH]; simpl; [reflexivity|].
  destruct (JsObject.get dom (list_of lt (snd e))) as [v|]; [|exact IH].
  destruct (truthy v); simpl; lia.
Qed.

Lemma updatesOf_domain lt d should e op :
  In op (updatesOf lt d should e) -> domain op = d.
Proof.
  unfold updatesOf.
  destruct (is_undefined _); [intros []|].
  destruct (negb _); [|intros []]. intros [<-|[]]. reflexivity.
Qed.

Lemma addsOf_domain lt d should e op :
  In op (addsOf lt d should e) -> domain op = d.
Proof.
  unfold addsOf. destruct (is_undefined _); [|intros []].
  intros [<-|[]]. reflexivity.
Qed.



(* ------------------------------------------------------------------ *)
(** ** The domain manager: targets, tallies and errors                 *)
(* ------------------------------------------------------------------ *)

Section ManageDomainTargets.
Variable W : Type.
Variable api : NextDNSApi W.
Variable options : ManageDomainOptions.

Lemma outcomes_app ok rs x :
  outcomes ok (rs ++ [x])
  = outcomes ok rs + (if Bool.eqb (or_success x) ok then 1 else 0).
Proof.
  unfold outcomes. rewrite filter_app, length_app. simpl.
  destruct (Bool.eqb (or_success x) ok); reflexivity.
Qed.

Lemma forEach_manageProfile_tally profiles : forall acc st,
  successCount acc = outcomes true (results acc) ->
  failCount acc = outcomes false (results acc) ->
  exists r st',
    forEach (manageProfile api options) profiles acc st = (Ok r, st')
    /\ map or_profileId (results r)
       = map or_profileId (results acc) ++ map id profiles
    /\ successCount r = outcomes true (results r)
    /\ failCount r = outcomes false (results r).
Proof.
  induction profiles as [|p ps IH]; intros acc st Hs Hf; simpl.
  - exists acc, st. rewrite app_nil_r. now repeat split.
  - destruct (applyAction_returns W api options p st) as (o & st1 & Ho).
    unfold bind at 1.
    rewrite (manageProfile_step W api options acc _ _ _ _ Ho).
    destruct (IH (recorded acc p o)
                {| world := world st1;
                   log := log st1
                          ++ [Progress {| or_profileId := id p;
                                          or_profileName := name p;
                                          or_success := success o;
                                          or_error := error o |}] |})
      as (r & st' & E & Hid & Hs' & Hf').
    + unfold recorded. cbn [successCount results]. rewrite outcomes_app.
      cbn [or_success]. rewrite Hs. destruct (success o); simpl; lia.
    + unfold recorded. cbn [failCount results]. rewrite outcomes_app.
      cbn [or_success]. rewrite Hf. destruct (success o); simpl; lia.
    + exists r, st'. split; [exact E|]. split; [|now split].
      rewrite Hid. simpl. rewrite map_app, <- app_assoc. reflexivity.
Qed.

End ManageDomainTargets.

(** [manageDomain] works on the profiles of the account whose id was
    requested, in the order of the account, or on all of them when no id
    was given.  When none is left it throws after the one call of
    [getProfiles], and no domain is touched.  Otherwise it never throws: it
    records one result per target profile, and its two counters are the
    numbers of recorded successes and failures. *)
Theorem manageDomain_targets (W : Type) (api : NextDNSApi W)
  (options : ManageDomainOptions) (st : State W) (all : list Profile) (w0 : W) :
  api_getProfiles api (md_apiKey options) (world st) = (Ok all, w0) ->
  (requested (md_profileIds options) all = [] ->
   manageDomain api options st
   = (Throw (no_target_message (md_profileIds options)),
      {| world := w0; log := log st |}))
  /\ (requested (md_profileIds options) all <> [] ->
      exists r st',
        manageDomain api options st = (Ok r, st')
        /\ map or_profileId (results r)
           = map id (requested (md_profileIds options) all)
        /\ successCount r = outcomes true (results r)
        /\ failCount r = outcomes false (results r)).
Proof.
  intros G. unfold manageDomain, requested, no_target_message.
  split.
  - intros E. unfold bind at 1.
    destruct (md_profileIds options) as [[|i ids]|].
    + unfold await. rewrite G, E. reflexivity.
    + unfold bind at 1. unfold await at 1. rewrite G, E. reflexivity.
    + unfold await. rewrite G, E. reflexivity.
  - intros N.
    assert (run : forall targets,
               targets <> [] ->
               exists r st',
                 match targets with
                 | [] => throw "No profiles found"
                 | _ :: _ =>
                     forEach (manageProfile api options) targets
                       {| results := []; successCount := 0; failCount := 0 |}
                 end {| world := w0; log := log st |} = (Ok r, st')
                 /\ map or_profileId (results r) = map id targets
                 /\ successCount r = outcomes true (results r)
                 /\ failCount r = outcomes false (results r)).
    { intros targets Ht. destruct targets as [|p ps]; [congruence|].
      apply (forEach_manageProfile_tally W api options (p :: ps)
               {| results := []; successCount := 0; failCount := 0 |});
        reflexivity. }
    unfold bind at 1.
    destruct (md_profileIds options) as [[|i ids]|].
    + unfold await. rewrite G. apply run, N.
    + unfold bind at 1. unfold await at 1. rewrite G.
      destruct (selectProfiles (i :: ids) all) as [|p ps] eqn:S;
        [congruence|].
      unfold ret. exact (run (p :: ps) N).
    + unfold await. rewrite G. apply run, N.
Qed.

(** An account without profiles: the manager stops after [getProfiles]. *)
Lemma manageDomain_targets_witness :
  manageDomain no_profiles (manage_options add) (start 0)
  = (Throw "No profiles found", {| world := 1; log := [] |}).
Proof.
  apply (proj1 (manageDomain_targets nat no_profiles (manage_options add)
                  (start 0) [] 1 eq_refl)).
  reflexivity.
Defined.

(** An error of the remote call is reported as it came: for [add] whatever
    the message says, also when it says that something was not found, and
    for the other actions when the message is not a not-found one.  The
    profile is then recorded as failed with that message. *)
Theorem manageDomain_reports_error (W : Type) (api : NextDNSApi W)
  (options : ManageDomainOptions) (acc : ManageResult) (profile : Profile)
  (st : State W) (message : string) (w' : W) :
  actionCall api options profile (world st) = (Throw message, w') ->
  md_action options = add \/ not_found_message message = false ->
  manageProfile api options acc profile st
  = (Ok (recorded acc profile {| success := false; error := Some message |}),
     {| world := w';
        log := log st
               ++ [Progress {| or_profileId := id profile;
                               or_profileName := name profile;
                               or_success := false;
                               or_error := Some message |}] |}).
Proof.
  intros C H.
  apply (manageProfile_step W api options acc profile st
           {| success := false; error := Some message |}
           {| world := w'; log := log st |}).
  unfold actionCall in C.
  unfold applyAction, addDomainToList, updateDomainStatus,
    removeDomainFromList, try_catch, bind, await, ret.
  destruct (md_action options); rewrite C;
    destruct H as [H|H]; try discriminate H; try rewrite H; reflexivity.
Qed.

(** [add] answered with "profile not found": a failure with that message. *)
Lemma manageDomain_reports_error_witness :
  fst (manageProfile addRefused (manage_options add)
         {| results := []; successCount := 0; failCount := 0 |}
         {| id := "p1"; name := "Home" |} (start 1))
  = Ok {| results := [ {| or_profileId := "p1"; or_profileName := "Home";
                          or_success := false;
                          or_error := Some "profile not found" |} ];
          successCount := 0; failCount := 1 |}.
Proof.
  rewrite (manageDomain_reports_error nat addRefused (manage_options add)
             {| results := []; successCount := 0; failCount := 0 |}
             {| id := "p1"; name := "Home" |} (start 1)
             "profile not found" 2 eq_refl (or_introl eq_refl)).
  reflexivity.
Defined.

(* ------------------------------------------------------------------ *)
(** ** What the payload of a copy holds                                *)
(* ------------------------------------------------------------------ *)

Lemma copy_if_truthy_stored k f src target target' :
  copy_if_truthy k f src target = Ok target' ->
  JsObject.get k target = None ->
  stored f (member_opt k src) (JsObject.get k target').
Proof.
  unfold copy_if_truthy, stored. intros H G.
  destruct (truthy (member_opt k src)); [|injection H as <-; exact G].
  destruct (f (member_opt k src)) as [x|e]; simpl in H; [|discriminate].
  injection H as <-. exists x.
  now rewrite JsObjectFacts.get_set, String.eqb_refl.
Qed.

(** Going back through the stages that do not write the key. *)
Ltac skip_stages key :=
  repeat match goal with
         | S : copy_if_truthy ?k _ _ _ = Ok ?t
           |- context [JsObject.get key ?t] =>
             rewrite (copy_if_truthy_other _ _ _ _ _ key S eq_refl)
         end.

Ltac stage_of key :=
  skip_stages key;
  match goal with
  | S : copy_if_truthy key _ _ _ = Ok ?t
    |- stored _ _ (JsObject.get key ?t) =>
      apply (copy_if_truthy_stored _ _ _ _ _ S); skip_stages key
  end.

(** Every key of the payload, by stages. *)
Lemma payload_sections sourceData payload :
  reconstructPayload sourceData = Ok payload ->
  JsObject.get "name" payload = Some (JStr (copy_name sourceData))
  /\ stored reconstructSecurity (member_opt "security" sourceData)
       (JsObject.get "security" payload)
  /\ stored reconstructPrivacy (member_opt "privacy" sourceData)
       (JsObject.get "privacy" payload)
  /\ stored reconstructParentalControl
       (member_opt "parentalControl" sourceData)
       (JsObject.get "parentalControl" payload)
  /\ stored (idsWithActive true) (member_opt "denylist" sourceData)
       (JsObject.get "denylist" payload)
  /\ stored (idsWithActive true) (member_opt "allowlist" sourceData)
       (JsObject.get "allowlist" payload)
  /\ stored reconstructSettings (member_opt "settings" sourceData)
       (JsObject.get "settings" payload)
  /\ (forall key, In key payload_keys \/ JsObject.get key payload = None).
Proof.
  intros H. payload_stages H.
  assert (N : stage = member_opt "name" sourceData).
  { destruct sourceData; simpl in E; try discriminate; now injection E as <-. }
  subst stage.
  assert (G0 : forall key,
             JsObject.get key
               (JsObject.set "name"
                  (JStr (to_string (js_or (member_opt "name" sourceData)
                                      (JStr "Cloned Profile")) ++ " (Copy)"))
                  JsObject.empty)
             = if String.eqb key "name" then Some (JStr (copy_name sourceData))
               else None).
  { intros key. now rewrite JsObjectFacts.get_set. }
  split; [skip_stages "name"; now rewrite G0|].
  split; [stage_of "security"; now rewrite G0|].
  split; [stage_of "privacy"; now rewrite G0|].
  split; [stage_of "parentalControl"; now rewrite G0|].
  split; [stage_of "denylist"; now rewrite G0|].
  split; [stage_of "allowlist"; now rewrite G0|].
  split; [stage_of "settings"; now rewrite G0|].
  intros key.
  destruct (in_dec string_dec key payload_keys) as [i|n]; [now left|right].
  assert (K : forall k, In k payload_keys -> String.eqb key k = false).
  { intros k Hk. apply String.eqb_neq. intros ->. contradiction. }
  rewrite (copy_if_truthy_other _ _ _ _ _ key H) by (apply K; simpl; tauto).
  rewrite (copy_if_truthy_other _ _ _ _ _ key E4) by (apply K; simpl; tauto).
  rewrite (copy_if_truthy_other _ _ _ _ _ key E3) by (apply K; simpl; tauto).
  rewrite (copy_if_truthy_other _ _ _ _ _ key E2) by (apply K; simpl; tauto).
  rewrite (copy_if_truthy_other _ _ _ _ _ key E1) by (apply K; simpl; tauto).
  rewrite (copy_if_truthy_other _ _ _ _ _ key E0) by (apply K; simpl; tauto).
  rewrite G0, K by (simpl; tauto). reflexivity.
Qed.

Lemma stored_has f v got :
  stored f v got ->
  match got with Some _ => true | None => false end = truthy v.
Proof.
  unfold stored. destruct (truthy v).
  - intros (x & _ & ->). reflexivity.
  - intros ->. reflexivity.
Qed.

(** The payload holds a name, the name of the source followed by " (Copy)"
    or "Cloned Profile (Copy)" when the source has no name; it holds the six
    sections security, privacy, parentalControl, denylist, allowlist and
    settings, each exactly when the source holds a truthy value for it; and
    it holds nothing else: no rewrites, and no key the tool does not know. *)
Theorem reconstructPayload_carries (sourceData : JsVal)
  (payload : JsObj JsVal) :
  reconstructPayload sourceData = Ok payload ->
  prop_of "name" payload = JStr (copy_name sourceData)
  /\ (forall key, JsObject.has key payload = true -> In key payload_keys)
  /\ (forall key,
        In key section_keys ->
        JsObject.has key payload = truthy (member_opt key sourceData)).
Proof.
  intros H.
  destruct (payload_sections sourceData payload H)
    as (Hn & Hs & Hp & Hc & Hd & Ha & Ht & Ho).
  split; [unfold prop_of; now rewrite Hn|]. split.
  - intros key Hk. destruct (Ho key) as [i|G]; [exact i|].
    unfold JsObject.has in Hk. rewrite G in Hk. discriminate.
  - intros key Hk. unfold JsObject.has. simpl in Hk.
    destruct Hk as [<-|[<-|[<-|[<-|[<-|[<-|[]]]]]]];
      eapply stored_has; eassumption.
Qed.

(** The sample profile: its copy is named after it and has no rewrites. *)
Lemma reconstructPayload_carries_witness :
  exists payload,
    reconstructPayload SAMPLE_PROFILE_DATA = Ok payload
    /\ prop_of "name" payload = JStr "Test Profile (Copy)"
    /\ JsObject.has "rewrites" payload = false.
Proof.
  destruct (reconstructPayload SAMPLE_PROFILE_DATA) as [payload|] eqn:E;
    [|discriminate E].
  exists payload. split; [reflexivity|].
  destruct (reconstructPayload_carries SAMPLE_PROFILE_DATA payload E)
    as (Hn & Hk & _).
  split; [exact Hn|].
  destruct (JsObject.has "rewrites" payload) eqn:R; [|reflexivity].
  apply Hk in R. simpl in R. intuition discriminate.
Defined.

Lemma get_defaulted src dflt ks k :
  JsObject.get k (defaulted src dflt ks)
  = if existsb (String.eqb k) ks
    then Some (js_nullish (member_opt k src) dflt) else None.
Proof.
  unfold defaulted. induction ks as [|a r IH]; simpl; [reflexivity|].
  destruct (String.eqb_spec k a) as [->|ne]; simpl; [reflexivity | exact IH].
Qed.

Lemma existsb_eqb_In k ks : existsb (String.eqb k) ks = true <-> In k ks.
Proof.
  rewrite existsb_exists. split.
  - intros (x & Hx & E). apply String.eqb_eq in E. now subst.
  - intros H. exists k. split; [exact H | apply String.eqb_refl].
Qed.

Lemma existsb_eqb_not_In k ks : ~ In k ks -> existsb (String.eqb k) ks = false.
Proof.
  intros N. destruct (existsb (String.eqb k) ks) eqn:E; [|reflexivity].
  apply existsb_eqb_In in E. contradiction.
Qed.

(** The members of a section built from flags and entry lists: every flag,
    defaulted; each list when the source holds it; nothing else. *)
Definition flag_section (flags : list string) (dflt : bool)
  (lists : list (string * (JsVal -> Result JsVal))) (sec : JsVal)
  (o : JsObj JsVal) : Prop :=
(forall k, In k flags ->
           JsObject.get k o = Some (js_nullish (member_opt k sec) (JBool dflt)))
/\ (forall l, In l lists ->
              stored (snd l) (member_opt (fst l) sec) (JsObject.get (fst l) o))
/\ (forall k, In k (map fst lists ++ flags) \/ JsObject.get k o = None).

Lemma flags_start flags dflt sec :
  flag_section flags dflt [] sec (defaulted sec (JBool dflt) flags).
Proof.
  split; [|split].
  - intros k Hk. rewrite get_defaulted.
    now rewrite (proj2 (existsb_eqb_In k flags) Hk).
  - intros l [].
  - intros k. simpl. destruct (in_dec string_dec k flags) as [i|n];
      [now left | right].
    rewrite get_defaulted. now rewrite existsb_eqb_not_In.
Qed.

Lemma flags_step flags dflt lists sec o k f o' :
  flag_section flags dflt lists sec o ->
  ~ In k (map fst lists ++ flags) ->
  copy_if_truthy k f sec o = Ok o' ->
  flag_section flags dflt (lists ++ [(k, f)]) sec o'.
Proof.
  intros (F & L & O) N C.
  assert (fresh : forall k', In k' (map fst lists ++ flags) ->
                             String.eqb k' k = false).
  { intros k' H'. apply String.eqb_neq. intros ->. contradiction. }
  split; [|split].
  - intros k' Hk'.
    rewrite (copy_if_truthy_other _ _ _ _ _ k' C)
      by (apply fresh, in_or_app; now right).
    now apply F.
  - intros l Hl. apply in_app_or in Hl as [Hl|[<-|[]]].
    + rewrite (copy_if_truthy_other _ _ _ _ _ (fst l) C).
      * now apply L.
      * apply fresh, in_or_app. left. now apply in_map.
    + cbn [fst snd]. apply (copy_if_truthy_stored _ _ _ _ _ C).
      destruct (O k) as [i|G]; [contradiction | exact G].
  - intros k'. rewrite map_app. simpl.
    destruct (String.eqb_spec k' k) as [->|ne].
    + left. apply in_or_app. left. apply in_or_app. right. now left.
    + destruct (O k') as [i|G].
      * left. apply in_app_or in i as [i|i]; apply in_or_app;
          [left; apply in_or_app; now left | now right].
      * right. rewrite (copy_if_truthy_other _ _ _ _ _ k' C); [exact G|].
        now apply String.eqb_neq.
Qed.

Ltac fresh_key := simpl; intuition discriminate.

Lemma reconstructSecurity_holds sec x :
  reconstructSecurity sec = Ok x ->
  exists o,
    x = JObj o
    /\ flag_section security_flags true [("tlds", idsOnly)] sec o.
Proof.
  unfold reconstructSecurity. intros H.
  destruct (copy_if_truthy "tlds" idsOnly sec _) as [o|] eqn:S; simpl in H;
    [|discriminate].
  injection H as <-. exists o. split; [reflexivity|].
  apply (flags_step security_flags true [] sec _ "tlds" idsOnly o
           (flags_start _ _ _)); [fresh_key | exact S].
Qed.

Lemma reconstructPrivacy_holds priv x :
  reconstructPrivacy priv = Ok x ->
  exists o,
    x = JObj o
    /\ flag_section privacy_flags true
         [("blocklists", idsOnly); ("natives", idsOnly)] priv o.
Proof.
  unfold reconstructPrivacy. intros H.
  destruct (copy_if_truthy "blocklists" idsOnly priv _) as [o1|] eqn:S1;
    simpl in H; [|discriminate].
  destruct (copy_if_truthy "natives" idsOnly priv o1) as [o2|] eqn:S2;
    simpl in H; [|discriminate].
  injection H as <-. exists o2. split; [reflexivity|].
  assert (F1 : flag_section privacy_flags true [("blocklists", idsOnly)]
                 priv o1).
  { apply (flags_step privacy_flags true [] priv _ "blocklists" idsOnly o1
             (flags_start _ _ _)); [fresh_key | exact S1]. }
  apply (flags_step privacy_flags true [("blocklists", idsOnly)] priv o1
           "natives" idsOnly o2 F1); [fresh_key | exact S2].
Qed.

Lemma reconstructParentalControl_holds pc x :
  reconstructParentalControl pc = Ok x ->
  exists o,
    x = JObj o
    /\ flag_section parental_flags false
         [("services", idsWithActive false);
          ("categories", idsWithActive false)] pc o.
Proof.
  unfold reconstructParentalControl. intros H.
  destruct (copy_if_truthy "services" (idsWithActive false) pc _)
    as [o1|] eqn:S1; simpl in H; [|discriminate].
  destruct (copy_if_truthy "categories" (idsWithActive false) pc o1)
    as [o2|] eqn:S2; simpl in H; [|discriminate].
  injection H as <-. exists o2. split; [reflexivity|].
  assert (F1 : flag_section parental_flags false
                 [("services", idsWithActive false)] pc o1).
  { apply (flags_step parental_flags false [] pc _ "services"
             (idsWithActive false) o1 (flags_start _ _ _));
      [fresh_key | exact S1]. }
  apply (flags_step parental_flags false [("services", idsWithActive false)]
           pc o1 "categories" (idsWithActive false) o2 F1);
    [fresh_key | exact S2].
Qed.

(** In each of the sections security, privacy and parentalControl of the
    payload every flag is defined: it is the flag of the source when the
    source defines it, and otherwise [true] in security and privacy and
    [false] in parentalControl. *)
Theorem reconstructPayload_defaults (sourceData : JsVal)
  (payload : JsObj JsVal) :
  reconstructPayload sourceData = Ok payload ->
  forall section flags dflt k,
    In (section, (flags, dflt)) flag_sections ->
    truthy (member_opt section sourceData) = true ->
    In k flags ->
    member_opt k (prop_of section payload)
    = js_nullish (member_opt k (member_opt section sourceData)) (JBool dflt)
    /\ is_nullish (member_opt k (prop_of section payload)) = false.
Proof.
  intros H section flags dflt k Hs T Hk.
  destruct (payload_sections sourceData payload H)
    as (_ & Hsec & Hpriv & Hpc & _).
  assert (R : member_opt k (prop_of section payload)
              = js_nullish (member_opt k (member_opt section sourceData))
                  (JBool dflt)).
  { simpl in Hs. destruct Hs as [E|[E|[E|[]]]]; injection E as <- <- <-.
    - unfold stored in Hsec. rewrite T in Hsec.
      destruct Hsec as (x & Hx & G).
      destruct (reconstructSecurity_holds _ _ Hx) as (o & -> & F & _).
      unfold prop_of. rewrite G. simpl. unfold prop_of. now rewrite (F k Hk).
    - unfold stored in Hpriv. rewrite T in Hpriv.
      destruct Hpriv as (x & Hx & G).
      destruct (reconstructPrivacy_holds _ _ Hx) as (o & -> & F & _).
      unfold prop_of. rewrite G. simpl. unfold prop_of. now rewrite (F k Hk).
    - unfold stored in Hpc. rewrite T in Hpc.
      destruct Hpc as (x & Hx & G).
      destruct (reconstructParentalControl_holds _ _ Hx) as (o & -> & F & _).
      unfold prop_of. rewrite G. simpl. unfold prop_of. now rewrite (F k Hk). }
  split; [exact R|]. rewrite R. unfold js_nullish.
  destruct (is_nullish (member_opt k (member_opt section sourceData))) eqn:N;
    [reflexivity | exact N].
Qed.

(** A profile whose security section holds no flag at all: the copy turns
    every protection on. *)
Lemma reconstructPayload_defaults_witness :
  exists payload,
    reconstructPayload (JObj [("name", JStr "bare"); ("security", JObj [])])
    = Ok payload
    /\ member_opt "csam" (prop_of "security" payload) = JBool true.
Proof.
  destruct (reconstructPayload
              (JObj [("name", JStr "bare"); ("security", JObj [])]))
    as [payload|] eqn:E; [|discriminate E].
  exists payload. split; [reflexivity|].
  apply (reconstructPayload_defaults _ payload E "security" security_flags
           true "csam").
  - simpl. now left.
  - reflexivity.
  - simpl. tauto.
Defined.

(* ------------------------------------------------------------------ *)
(** ** The payload against the schema                                  *)
(* ------------------------------------------------------------------ *)

Lemma unknown_none (o : JsObj JsVal) (allowed known skipped : list string) :
  (forall k, In k allowed \/ JsObject.get k o = None) ->
  (forall k, In k allowed -> set_has k known = true) ->
  unknown_keys (JObj o) known skipped = [].
Proof.
  intros O A. unfold unknown_keys, object_keys. apply filter_none.
  intros k Hk. destruct (O k) as [i|G].
  - now rewrite (A k i).
  - apply JsObjectFacts.get_None_keys in G. contradiction.
Qed.

Lemma reconstructSettings_holds s x :
  reconstructSettings s = Ok x ->
  exists o,
    x = JObj o
    /\ (forall k, In k ["logs"; "blockPage"; "performance"] ->
                  JsObject.get k o
                  = if truthy (member_opt k s) then Some (member_opt k s)
                    else None)
    /\ (forall k, In k ["web3"; "bav"] ->
                  JsObject.get k o
                  = if is_undefined (member_opt k s) then None
                    else Some (member_opt k s))
    /\ (forall k, In k settings_keys \/ JsObject.get k o = None).
Proof.
  unfold reconstructSettings. intros H. injection H as <-.
  eexists. split; [reflexivity|].
  destruct (truthy (member_opt "logs" s)) eqn:T1,
           (truthy (member_opt "blockPage" s)) eqn:T2,
           (truthy (member_opt "performance" s)) eqn:T3,
           (is_undefined (member_opt "web3" s)) eqn:U1,
           (is_undefined (member_opt "bav" s)) eqn:U2;
    (split; [|split];
     [ intros k Hk; simpl in Hk;
       destruct Hk as [<-|[<-|[<-|[]]]];
       rewrite ?T1, ?T2, ?T3; reflexivity
     | intros k Hk; simpl in Hk;
       destruct Hk as [<-|[<-|[]]];
       rewrite ?U1, ?U2; reflexivity
     | intros k;
       destruct (in_dec string_dec k settings_keys) as [i|n];
       [now left|right];
       simpl; simpl in n;
       repeat match goal with
              | |- context [String.eqb k ?c] =>
                  destruct (String.eqb_spec k c);
                  [exfalso; subst; apply n; auto 10|]
              end;
       reflexivity ]).
Qed.

Lemma flag_section_object flags dflt lists sec o known skipped :
  flag_section flags dflt lists sec o ->
  (forall k, In k (map fst lists ++ flags) -> set_has k known = true) ->
  unknown_keys (JObj o) known skipped = [].
Proof.
  intros (_ & _ & O) A. exact (unknown_none o _ known skipped O A).
Qed.

Lemma stored_section_clean f v got known skipped :
  stored f v got ->
  (forall x, f v = Ok x -> unknown_keys x known skipped = []) ->
  unknown_keys (match got with Some x => x | None => JUndefined end)
    known skipped = [].
Proof.
  unfold stored. intros S C. destruct (truthy v).
  - destruct S as (x & Hx & ->). now apply C.
  - subst got. reflexivity.
Qed.

Lemma known_keys_of allowed known :
  forallb (fun k => set_has k known) allowed = true ->
  forall k, In k allowed -> set_has k known = true.
Proof. intros H k Hk. rewrite forallb_forall in H. now apply H. Qed.

(** What is below a key of the settings of the payload. *)
Lemma payload_below_settings sourceData payload k :
  reconstructPayload sourceData = Ok payload ->
  In k ["logs"; "blockPage"; "performance"] ->
  member_opt k (prop_of "settings" payload)
  = if truthy (member_opt k (member_opt "settings" sourceData))
    then member_opt k (member_opt "settings" sourceData)
    else JUndefined.
Proof.
  intros H Hk.
  destruct (payload_sections sourceData payload H)
    as (_ & _ & _ & _ & _ & _ & Hset & _).
  unfold stored in Hset.
  destruct (truthy (member_opt "settings" sourceData)) eqn:T.
  - destruct Hset as (x & Hx & G).
    destruct (reconstructSettings_holds _ _ Hx) as (o & -> & L & _).
    unfold prop_of at 1. rewrite G. simpl. unfold prop_of.
    rewrite (L k Hk).
    now destruct (truthy (member_opt k (member_opt "settings" sourceData))).
  - unfold prop_of. rewrite Hset. simpl.
    rewrite (falsy_member_opt k _ T). reflexivity.
Qed.

(** The payload against the schema it was built from: it holds no key the
    tool does not know at its root, in security, privacy, parentalControl
    and settings; below settings.logs and settings.performance, which are
    copied as they are, it holds the unknown keys of the source.  So the
    payload of a source that is clean at these two places passes
    [validateApiSchema] without a warning. *)
Theorem reconstructPayload_schema (sourceData : JsVal)
  (payload : JsObj JsVal) :
  reconstructPayload sourceData = Ok payload ->
  (forall p,
      offending p (JObj payload)
      = if below_settings p then offending p sourceData else [])
  /\ (offending at_settings_logs sourceData = [] ->
      offending at_settings_performance sourceData = [] ->
      validateApiSchema (JObj payload) = Ok []).
Proof.
  intros H.
  destruct (payload_sections sourceData payload H)
    as (_ & Hsec & Hpriv & Hpc & _ & _ & Hset & Ho).
  assert (A : forall p,
             offending p (JObj payload)
             = if below_settings p then offending p sourceData else []).
  { intros p. unfold offending.
    destruct p; cbn [below_settings section_at known_at skipped_at member_opt].
    - apply (unknown_none payload payload_keys _ _ Ho).
      now apply known_keys_of.
    - unfold prop_of.
      apply (stored_section_clean _ _ _ _ _ Hsec). intros x Hx.
      destruct (reconstructSecurity_holds _ _ Hx) as (o & -> & F).
      apply (flag_section_object _ _ _ _ _ _ _ F). now apply known_keys_of.
    - unfold prop_of.
      apply (stored_section_clean _ _ _ _ _ Hpriv). intros x Hx.
      destruct (reconstructPrivacy_holds _ _ Hx) as (o & -> & F).
      apply (flag_section_object _ _ _ _ _ _ _ F). now apply known_keys_of.
    - unfold prop_of.
      apply (stored_section_clean _ _ _ _ _ Hpc). intros x Hx.
      destruct (reconstructParentalControl_holds _ _ Hx) as (o & -> & F).
      apply (flag_section_object _ _ _ _ _ _ _ F). now apply known_keys_of.
    - unfold prop_of.
      apply (stored_section_clean _ _ _ _ _ Hset). intros x Hx.
      destruct (reconstructSettings_holds _ _ Hx) as (o & -> & _ & _ & O).
      apply (unknown_none o settings_keys _ _ O). now apply known_keys_of.
    - rewrite (payload_below_settings sourceData payload "logs" H)
        by (simpl; tauto).
      destruct (truthy (member_opt "logs" (member_opt "settings" sourceData)))
        eqn:T; [reflexivity|].
      now rewrite (falsy_no_unknown _ _ _ T).
    - rewrite (payload_below_settings sourceData payload "performance" H)
        by (simpl; tauto).
      destruct (truthy (member_opt "performance"
                          (member_opt "settings" sourceData)))
        eqn:T; [reflexivity|].
      now rewrite (falsy_no_unknown _ _ _ T). }
  split; [exact A|]. intros L P.
  rewrite (validateApiSchema_paths (JObj payload) eq_refl).
  unfold checked_paths, warning_at. cbn [flat_map].
  rewrite !A. cbn [below_settings]. rewrite L, P. reflexivity.
Qed.

(** The sample profile passes validation, and so does its copy. *)
Lemma reconstructPayload_schema_witness :
  exists payload,
    reconstructPayload SAMPLE_PROFILE_DATA = Ok payload
    /\ validateApiSchema (JObj payload) = Ok [].
Proof.
  destruct (reconstructPayload SAMPLE_PROFILE_DATA) as [payload|] eqn:E;
    [|discriminate E].
  exists payload. split; [reflexivity|].
  apply (proj2 (reconstructPayload_schema SAMPLE_PROFILE_DATA payload E));
    reflexivity.
Defined.

(* ------------------------------------------------------------------ *)
(** ** Verifying a faithful copy                                       *)
(* ------------------------------------------------------------------ *)

Lemma idsOnly_ids items out :
  map_result (fun t => i <-- member "id" t ;; Ok (JObj [("id", i)])) items
  = Ok out ->
  exists ids,
    map_result (member "id") items = Ok ids
    /\ map_result (member "id") out = Ok ids.
Proof.
  revert out. induction items as [|t r IH]; simpl; intros out H.
  - injection H as <-. exists []. split; reflexivity.
  - destruct (member "id" t) as [i|] eqn:M; simpl in H; [|discriminate].
    destruct (map_result _ r) as [out'|] eqn:R; [|discriminate].
    injection H as <-. destruct (IH out' eq_refl) as (ids & -> & E).
    exists (i :: ids). split; [reflexivity|]. simpl. now rewrite E.
Qed.

(** The set of identifiers of a stored list is that of the source. *)
Lemma idSet_stored v got :
  stored idsOnly v got ->
  exists ids items,
    as_array (js_or v (JArr [])) = Ok items
    /\ map_result (member "id") items = Ok ids
    /\ idSet v = Ok (fold_left add_value ids [])
    /\ idSet (match got with Some x => x | None => JUndefined end)
       = Ok (fold_left add_value ids []).
Proof.
  unfold stored. destruct (truthy v) eqn:T.
  - intros (x & Hx & ->). unfold idsOnly in Hx.
    destruct (as_array v) as [items|] eqn:A; simpl in Hx; [|discriminate].
    destruct (map_result _ items) as [out|] eqn:M; simpl in Hx;
      [|discriminate].
    injection Hx as <-.
    destruct (idsOnly_ids items out M) as (ids & E1 & E2).
    exists ids, items. unfold idSet, js_or. rewrite T, A. simpl.
    rewrite E1, E2. repeat split; reflexivity.
  - intros ->. exists [], []. unfold idSet, js_or. rewrite T. simpl.
    repeat split; reflexivity.
Qed.

Lemma add_value_In s x y : In y (add_value s x) -> In y s \/ y = x.
Proof.
  unfold add_value. destruct (existsb (strict_eq x) s); [now left|].
  intros H. apply in_app_or in H as [H|[<-|[]]]; [now left | now right].
Qed.

Lemma fold_add_value_In ids : forall s y,
  In y (fold_left add_value ids s) -> In y s \/ In y ids.
Proof.
  induction ids as [|x r IH]; simpl; intros s y H; [now left|].
  apply IH in H as [H|H]; [|right; now right].
  apply add_value_In in H as [H | ->]; [now left | right; now left].
Qed.

Lemma comparable_self v : comparable v = true -> strict_eq v v = true.
Proof.
  destruct v; simpl; try discriminate; intros _; try reflexivity.
  - apply Bool.eqb_reflx.
  - apply Z.eqb_refl.
  - apply String.eqb_refl.
Qed.

Lemma idSetMismatch_stored text v got :
  stored idsOnly v got ->
  ids_typed v = true ->
  idSetMismatch text v (match got with Some x => x | None => JUndefined end)
  = Ok [].
Proof.
  intros S T.
  destruct (idSet_stored v got S) as (ids & items & A & M & E1 & E2).
  unfold idSetMismatch. rewrite E1, E2. simpl.
  assert (same : forall x,
             In x (fold_left add_value ids []) ->
             negb (set_has_value x (fold_left add_value ids [])) = false).
  { intros x Hx. apply negb_false_iff. unfold set_has_value.
    apply existsb_exists. exists x. split; [exact Hx|].
    apply comparable_self.
    apply fold_add_value_In in Hx as [Hx|Hx]; [destruct Hx|].
    unfold ids_typed in T.
    destruct (js_or v (JArr [])) as [| | | | |l|] eqn:J; try discriminate A.
    simpl in A. injection A as <-.
    rewrite forallb_forall in T.
    clear - M Hx T. revert ids M Hx.
    induction l as [|t r IH]; simpl; intros ids M Hx.
    - injection M as <-. destruct Hx.
    - destruct (member "id" t) as [i|] eqn:Mi; [|discriminate].
      destruct (map_result (member "id") r) as [ids'|] eqn:R; [|discriminate].
      injection M as <-. destruct Hx as [<-|Hx].
      + specialize (T t (or_introl eq_refl)).
        destruct t; simpl in Mi; try discriminate; injection Mi as <-;
          try reflexivity; exact T.
      + apply (IH (fun y Hy => T y (or_intror Hy)) ids' eq_refl Hx). }
  rewrite (filter_none _ _ _ same). reflexivity.
Qed.

Lemma idsWithActive_pairs dflt items out :
  map_result
    (fun s =>
       i <-- member "id" s ;;
       a <-- member "active" s ;;
       Ok (JObj [("id", i); ("active", js_nullish a (JBool dflt))]))
    items = Ok out ->
  exists pairs,
    map_result
      (fun x =>
         i <-- member "id" x ;;
         a <-- member "active" x ;;
         Ok (to_string i, js_nullish a (JBool dflt)))
      items = Ok pairs
    /\ map_result
         (fun x =>
            i <-- member "id" x ;;
            a <-- member "active" x ;;
            Ok (to_string i, js_nullish a (JBool dflt)))
         out = Ok pairs.
Proof.
  revert out. induction items as [|t r IH]; simpl; intros out H.
  - injection H as <-. exists []. split; reflexivity.
  - destruct (member "id" t) as [i|] eqn:Mi; simpl in H; [|discriminate].
    destruct (member "active" t) as [a|] eqn:Ma; simpl in H; [|discriminate].
    destruct (map_result _ r) as [out'|] eqn:R; [|discriminate].
    injection H as <-. destruct (IH out' eq_refl) as (pairs & -> & E).
    exists ((to_string i, js_nullish a (JBool dflt)) :: pairs).
    split; [reflexivity|]. simpl. rewrite E.
    unfold js_nullish, prop_of. destruct (is_nullish a) eqn:N; simpl;
      rewrite ?N; reflexivity.
Qed.

(** The dictionary read from a stored list is that of the source. *)
Lemma activeMap_stored dflt v got :
  stored (idsWithActive dflt) v got ->
  exists m,
    activeMap dflt v = Ok m
    /\ activeMap dflt (match got with Some x => x | None => JUndefined end)
       = Ok m.
Proof.
  unfold stored. destruct (truthy v) eqn:T.
  - intros (x & Hx & ->). unfold idsWithActive in Hx.
    destruct (as_array v) as [items|] eqn:A; simpl in Hx; [|discriminate].
    destruct (map_result _ items) as [out|] eqn:M; simpl in Hx;
      [|discriminate].
    injection Hx as <-.
    destruct (idsWithActive_pairs dflt items out M) as (pairs & E1 & E2).
    exists (JsObject.fromEntries pairs).
    unfold activeMap, js_or. rewrite T, A. simpl. rewrite E1, E2.
    split; reflexivity.
  - intros ->. exists (JsObject.fromEntries []).
    unfold activeMap, js_or. rewrite T. simpl. split; reflexivity.
Qed.

Lemma activeMapMismatch_stored text v got :
  stored (idsWithActive false) v got ->
  activeMapMismatch text v
    (match got with Some x => x | None => JUndefined end) = Ok [].
Proof.
  intros S. destruct (activeMap_stored false v got S) as (m & E1 & E2).
  unfold activeMapMismatch. rewrite E1, E2. simpl.
  now rewrite String.eqb_refl.
Qed.

Lemma flagMismatches_none what flags s d :
  (forall k, In k flags ->
             strict_eq (member_opt k s) (member_opt k d) = true) ->
  flagMismatches what flags s d = [].
Proof.
  intros H. unfold flagMismatches. apply flat_map_nil.
  intros k Hk. now rewrite (H k Hk).
Qed.

Lemma typed_flag_kept flags dflt lists sec o k :
  flag_section flags dflt lists sec o ->
  flags_typed flags sec = true ->
  truthy sec = true ->
  In k flags ->
  strict_eq (member_opt k sec) (member_opt k (JObj o)) = true.
Proof.
  intros (F & _) T S Hk. simpl. unfold prop_of. rewrite (F k Hk).
  unfold flags_typed in T. rewrite S in T. simpl in T.
  rewrite forallb_forall in T. specialize (T k Hk).
  apply andb_true_iff in T as [C N]. apply negb_true_iff in N.
  unfold js_nullish. rewrite N. now apply comparable_self.
Qed.

Section FaithfulCopy.
Variable sourceData : JsVal.
Variable payload : JsObj JsVal.
Hypothesis built_from : reconstructPayload sourceData = Ok payload.
Hypothesis typed : typed_profile sourceData = true.

Lemma typed_parts :
  flags_typed security_flags (member_opt "security" sourceData) = true
  /\ ids_typed (member_opt "tlds" (member_opt "security" sourceData)) = true
  /\ flags_typed privacy_flags (member_opt "privacy" sourceData) = true
  /\ ids_typed (member_opt "blocklists" (member_opt "privacy" sourceData))
     = true
  /\ ids_typed (member_opt "natives" (member_opt "privacy" sourceData)) = true
  /\ flags_typed parental_flags (member_opt "parentalControl" sourceData)
     = true
  /\ settings_typed (member_opt "settings" sourceData) = true.
Proof.
  pose proof typed as T. unfold typed_profile in T.
  repeat (apply andb_true_iff in T as [T ?]). repeat split; assumption.
Qed.

Lemma listed (lists : list (string * (JsVal -> Result JsVal))) flags dflt sec o
  k f :
  flag_section flags dflt lists sec o ->
  In (k, f) lists ->
  stored f (member_opt k sec) (JsObject.get k o).
Proof. intros (_ & L & _) H. exact (L (k, f) H). Qed.

Lemma stored_member (o : JsObj JsVal) k :
  member_opt k (JObj o)
  = match JsObject.get k o with Some x => x | None => JUndefined end.
Proof. reflexivity. Qed.

Lemma verifySecurity_copy : verifySecurity sourceData (JObj payload) = Ok [].
Proof.
  destruct (payload_sections sourceData payload built_from)
    as (_ & Hsec & _).
  destruct typed_parts as (Tf & Tl & _).
  unfold stored in Hsec. unfold verifySecurity. cbv zeta.
  destruct (truthy (member_opt "security" sourceData)) eqn:T;
    [|reflexivity].
  destruct Hsec as (x & Hx & G).
  destruct (reconstructSecurity_holds _ _ Hx) as (o & -> & F).
  assert (D : member_opt "security" (JObj payload) = JObj o)
    by (rewrite stored_member; now rewrite G).
  rewrite !D. cbn [truthy andb]. rewrite (stored_member o "tlds").
  rewrite (idSetMismatch_stored _ _ _
             (listed _ _ _ _ _ "tlds" idsOnly F (or_introl eq_refl)) Tl).
  cbn [bind_result].
  rewrite flagMismatches_none; [reflexivity|].
  intros k Hk. exact (typed_flag_kept _ _ _ _ _ k F Tf T Hk).
Qed.

Lemma verifyPrivacy_copy : verifyPrivacy sourceData (JObj payload) = Ok [].
Proof.
  destruct (payload_sections sourceData payload built_from)
    as (_ & _ & Hpriv & _).
  destruct typed_parts as (_ & _ & Tf & Tb & Tn & _).
  unfold stored in Hpriv. unfold verifyPrivacy. cbv zeta.
  destruct (truthy (member_opt "privacy" sourceData)) eqn:T;
    [|reflexivity].
  destruct Hpriv as (x & Hx & G).
  destruct (reconstructPrivacy_holds _ _ Hx) as (o & -> & F).
  assert (D : member_opt "privacy" (JObj payload) = JObj o)
    by (rewrite stored_member; now rewrite G).
  rewrite !D. cbn [truthy andb].
  rewrite (stored_member o "blocklists"), (stored_member o "natives").
  rewrite (idSetMismatch_stored _ _ _
             (listed _ _ _ _ _ "blocklists" idsOnly F (or_introl eq_refl)) Tb).
  cbn [bind_result].
  rewrite (idSetMismatch_stored _ _ _
             (listed _ _ _ _ _ "natives" idsOnly F
                (or_intror (or_introl eq_refl))) Tn).
  cbn [bind_result].
  rewrite flagMismatches_none; [reflexivity|].
  intros k Hk. exact (typed_flag_kept _ _ _ _ _ k F Tf T Hk).
Qed.

Lemma verifyParentalControl_copy :
  verifyParentalControl sourceData (JObj payload) = Ok [].
Proof.
  destruct (payload_sections sourceData payload built_from)
    as (_ & _ & _ & Hpc & _).
  destruct typed_parts as (_ & _ & _ & _ & _ & Tf & _).
  unfold stored in Hpc. unfold verifyParentalControl. cbv zeta.
  destruct (truthy (member_opt "parentalControl" sourceData)) eqn:T;
    [|reflexivity].
  destruct Hpc as (x & Hx & G).
  destruct (reconstructParentalControl_holds _ _ Hx) as (o & -> & F).
  assert (D : member_opt "parentalControl" (JObj payload) = JObj o)
    by (rewrite stored_member; now rewrite G).
  rewrite !D. cbn [truthy andb].
  rewrite (stored_member o "services"), (stored_member o "categories").
  rewrite (activeMapMismatch_stored _ _ _
             (listed _ _ _ _ _ "services" (idsWithActive false) F
                (or_introl eq_refl))).
  cbn [bind_result].
  rewrite (activeMapMismatch_stored _ _ _
             (listed _ _ _ _ _ "categories" (idsWithActive false) F
                (or_intror (or_introl eq_refl)))).
  cbn [bind_result].
  rewrite flagMismatches_none; [reflexivity|].
  intros k Hk. exact (typed_flag_kept _ _ _ _ _ k F Tf T Hk).
Qed.

Lemma verifyList_copy listName :
  stored (idsWithActive true) (member_opt listName sourceData)
    (JsObject.get listName payload) ->
  verifyList listName sourceData (JObj payload) = Ok [].
Proof.
  intros S. destruct (activeMap_stored true _ _ S) as (m & E1 & E2).
  unfold verifyList. rewrite (stored_member payload listName).
  rewrite E1, E2. cbn [bind_result]. now rewrite Nat.eqb_refl.
Qed.

Lemma verifySettings_copy : verifySettings sourceData (JObj payload) = [].
Proof.
  destruct (payload_sections sourceData payload built_from)
    as (_ & _ & _ & _ & _ & _ & Hset & _).
  destruct typed_parts as (_ & _ & _ & _ & _ & _ & Ts).
  unfold stored in Hset. unfold verifySettings. cbv zeta.
  destruct (truthy (member_opt "settings" sourceData)) eqn:T.
  - destruct Hset as (x & Hx & G).
    destruct (reconstructSettings_holds _ _ Hx) as (o & -> & L & U & _).
    assert (D : member_opt "settings" (JObj payload) = JObj o)
      by (rewrite stored_member; now rewrite G).
    rewrite !D. cbn [truthy andb].
    apply flat_map_nil. intros k Hk.
    assert (E : JSON_stringify (member_opt k (member_opt "settings" sourceData))
                = JSON_stringify (member_opt k (JObj o))).
    { rewrite stored_member.
      unfold settings_typed in Ts. rewrite forallb_forall in Ts.
      simpl in Hk.
      destruct Hk as [<-|[<-|[<-|[<-|[<-|[]]]]]].
      - rewrite (L "logs") by (simpl; tauto).
        specialize (Ts "logs" ltac:(simpl; tauto)).
        destruct (truthy (member_opt "logs" _)); [reflexivity|].
        simpl in Ts.
        now destruct (member_opt "logs" (member_opt "settings" sourceData)).
      - rewrite (L "blockPage") by (simpl; tauto).
        specialize (Ts "blockPage" ltac:(simpl; tauto)).
        destruct (truthy (member_opt "blockPage" _)); [reflexivity|].
        simpl in Ts.
        now destruct (member_opt "blockPage"
                        (member_opt "settings" sourceData)).
      - rewrite (L "performance") by (simpl; tauto).
        specialize (Ts "performance" ltac:(simpl; tauto)).
        destruct (truthy (member_opt "performance" _)); [reflexivity|].
        simpl in Ts.
        now destruct (member_opt "performance"
                        (member_opt "settings" sourceData)).
      - rewrite (U "web3") by (simpl; tauto).
        now destruct (member_opt "web3" (member_opt "settings" sourceData)).
      - rewrite (U "bav") by (simpl; tauto).
        now destruct (member_opt "bav" (member_opt "settings" sourceData)). }
    rewrite E.
    now rewrite (proj2 (option_string_eqb_eq _ _) eq_refl).
  - assert (D : member_opt "settings" (JObj payload) = JUndefined)
      by (rewrite stored_member; now rewrite Hset).
    rewrite !D. reflexivity.
Qed.

End FaithfulCopy.

Lemma cleanRewrites_texts items clean :
  cleanRewrites items = Ok clean ->
  exists texts,
    map_result
      (fun r =>
         n <-- member "name" r ;;
         c <-- member "content" r ;;
         Ok (stringify_object [("name", n); ("content", c)]))
      items = Ok texts
    /\ map_result
         (fun r =>
            n <-- member "name" r ;;
            c <-- member "content" r ;;
            Ok (stringify_object [("name", n); ("content", c)]))
         clean = Ok texts.
Proof.
  unfold cleanRewrites. revert clean.
  induction items as [|t r IH]; simpl; intros clean H.
  - injection H as <-. exists []. split; reflexivity.
  - destruct (member "name" t) as [n|] eqn:Mn; simpl in H; [|discriminate].
    destruct (member "content" t) as [c|] eqn:Mc; simpl in H; [|discriminate].
    destruct (map_result _ r) as [clean'|] eqn:R; [|discriminate].
    injection H as <-. destruct (IH clean' eq_refl) as (texts & -> & E).
    exists (stringify_object [("name", n); ("content", c)] :: texts).
    split; [reflexivity|]. simpl. unfold prop_of. simpl. now rewrite E.
Qed.

Lemma set_has_self (s : list string) : forallb (fun x => set_has x s) s = true.
Proof.
  apply forallb_forall. intros x Hx. unfold set_has.
  apply existsb_exists. exists x. split; [exact Hx | apply String.eqb_refl].
Qed.

Lemma verifyRewrites_copy source destination items clean :
  cleanRewrites items = Ok clean ->
  verifyRewrites {| f_profile := source; f_rewrites := JArr items |}
    {| f_profile := destination; f_rewrites := JArr clean |} = Ok [].
Proof.
  intros H. destruct (cleanRewrites_texts items clean H) as (texts & E1 & E2).
  unfold verifyRewrites, cleanRw. cbn [f_rewrites js_or truthy as_array
    bind_result]. rewrite E1, E2. cbn [bind_result].
  now rewrite Nat.eqb_refl, set_has_self.
Qed.

(** Verifying a faithful copy.  When the destination holds exactly the
    payload built from the source and the rewrites sent for it, and the
    source is of the declared type (the flags of its sections are not
    missing, the identifiers of its entries are not objects, and its logs,
    blockPage and performance settings are truthy or absent), the
    comparison of [verifyClone] finds no mismatch. *)
Theorem faithful_copy_verifies (sourceData : JsVal) (payload : JsObj JsVal)
  (items clean : list JsVal) :
  reconstructPayload sourceData = Ok payload ->
  typed_profile sourceData = true ->
  cleanRewrites items = Ok clean ->
  compareClone {| f_profile := sourceData; f_rewrites := JArr items |}
    {| f_profile := JObj payload; f_rewrites := JArr clean |}
  = Ok [].
Proof.
  intros B T C.
  destruct (payload_sections sourceData payload B)
    as (_ & _ & _ & _ & Hden & Hallow & _).
  unfold compareClone. cbn [f_profile].
  rewrite (verifySecurity_copy sourceData payload B T).
  rewrite (verifyPrivacy_copy sourceData payload B T).
  rewrite (verifyParentalControl_copy sourceData payload B T).
  rewrite (verifyList_copy sourceData payload "denylist" Hden).
  rewrite (verifyList_copy sourceData payload "allowlist" Hallow).
  rewrite (verifyRewrites_copy sourceData (JObj payload) items clean C).
  cbn [bind_result].
  rewrite (verifySettings_copy sourceData payload B T). reflexivity.
Qed.

(** The sample profile and its rewrite, stored as sent. *)
Lemma faithful_copy_verifies_witness :
  exists payload clean,
    reconstructPayload SAMPLE_PROFILE_DATA = Ok payload
    /\ cleanRewrites sample_rewrite_items = Ok clean
    /\ compareClone
         {| f_profile := SAMPLE_PROFILE_DATA;
            f_rewrites := JArr sample_rewrite_items |}
         {| f_profile := JObj payload; f_rewrites := JArr clean |}
       = Ok [].
Proof.
  destruct (reconstructPayload SAMPLE_PROFILE_DATA) as [payload|] eqn:E;
    [|discriminate E].
  destruct (cleanRewrites sample_rewrite_items) as [clean|] eqn:C;
    [|discriminate C].
  exists payload, clean. split; [reflexivity|]. split; [reflexivity|].
  apply (faithful_copy_verifies SAMPLE_PROFILE_DATA payload
           sample_rewrite_items clean E eq_refl C).
Defined.

Lemma flagMismatches_reports what flags s d k :
  In k flags ->
  strict_eq (member_opt k s) (member_opt k d) = false ->
  In (flag_report what k (member_opt k s) (member_opt k d))
    (flagMismatches what flags s d).
Proof.
  intros Hk E. unfold flagMismatches. apply in_flat_map.
  exists k. split; [exact Hk|]. rewrite E. now left.
Qed.

Lemma missing_flag_differs flags dflt lists sec o k :
  flag_section flags dflt lists sec o ->
  In k flags ->
  is_nullish (member_opt k sec) = true ->
  member_opt k (JObj o) = JBool dflt
  /\ strict_eq (member_opt k sec) (member_opt k (JObj o)) = false.
Proof.
  intros (F & _) Hk N. rewrite stored_member, (F k Hk).
  unfold js_nullish. rewrite N. split; [reflexivity|].
  now destruct (member_opt k sec).
Qed.

(** A flag the source does not define is always reported.  The payload
    gives the flag its default, so that against a destination that holds
    exactly the payload the comparison of [verifyClone] reports the flag
    as a mismatch between the missing value and the default. *)
Theorem missing_flag_reported (sourceData : JsVal) (payload : JsObj JsVal)
  (srcRewrites dstRewrites : JsVal) (mismatches : list string)
  (section label : string) (flags : list string) (dflt : bool) (k : string) :
  In (section, label, flags, dflt) reported_sections ->
  reconstructPayload sourceData = Ok payload ->
  truthy (member_opt section sourceData) = true ->
  In k flags ->
  is_nullish (member_opt k (member_opt section sourceData)) = true ->
  compareClone {| f_profile := sourceData; f_rewrites := srcRewrites |}
    {| f_profile := JObj payload; f_rewrites := dstRewrites |}
  = Ok mismatches ->
  In (flag_report label k (member_opt k (member_opt section sourceData))
        (JBool dflt))
    mismatches.
Proof.
  intros Hs B T Hk N C.
  destruct (payload_sections sourceData payload B)
    as (_ & Hsec & Hpriv & Hpc & _).
  unfold compareClone in C. cbn [f_profile] in C.
  destruct (verifySecurity sourceData (JObj payload)) as [sec|] eqn:Vs;
    cbn [bind_result] in C; [|discriminate].
  destruct (verifyPrivacy sourceData (JObj payload)) as [priv|] eqn:Vp;
    cbn [bind_result] in C; [|discriminate].
  destruct (verifyParentalControl sourceData (JObj payload)) as [pc|] eqn:Vc;
    cbn [bind_result] in C; [|discriminate].
  destruct (verifyList "denylist" _ _) as [den|]; cbn [bind_result] in C;
    [|discriminate].
  destruct (verifyList "allowlist" _ _) as [allow|]; cbn [bind_result] in C;
    [|discriminate].
  destruct (verifyRewrites _ _) as [rw|]; cbn [bind_result] in C;
    [|discriminate].
  injection C as <-.
  simpl in Hs. destruct Hs as [E|[E|[E|[]]]]; injection E as <- <- <- <-.
  - apply in_or_app. left.
    unfold stored in Hsec. rewrite T in Hsec. destruct Hsec as (x & Hx & G).
    destruct (reconstructSecurity_holds _ _ Hx) as (o & -> & F).
    assert (D : member_opt "security" (JObj payload) = JObj o)
      by (rewrite stored_member; now rewrite G).
    unfold verifySecurity in Vs. cbv zeta in Vs. rewrite !D, T in Vs.
    cbn [truthy andb] in Vs.
    destruct (idSetMismatch _ _ _) as [tlds|]; cbn [bind_result] in Vs;
      [|discriminate].
    injection Vs as <-. apply in_or_app. left.
    destruct (missing_flag_differs _ _ _ _ _ k F Hk N) as [V S].
    rewrite <- V.
    exact (flagMismatches_reports "Security" security_flags
             (member_opt "security" sourceData) (JObj o) k Hk S).
  - apply in_or_app. right. apply in_or_app. left.
    unfold stored in Hpriv. rewrite T in Hpriv.
    destruct Hpriv as (x & Hx & G).
    destruct (reconstructPrivacy_holds _ _ Hx) as (o & -> & F).
    assert (D : member_opt "privacy" (JObj payload) = JObj o)
      by (rewrite stored_member; now rewrite G).
    unfold verifyPrivacy in Vp. cbv zeta in Vp. rewrite !D, T in Vp.
    cbn [truthy andb] in Vp.
    destruct (idSetMismatch _ _ _) as [bl|]; cbn [bind_result] in Vp;
      [|discriminate].
    destruct (idSetMismatch _ _ _) as [nt|]; cbn [bind_result] in Vp;
      [|discriminate].
    injection Vp as <-. apply in_or_app. left.
    destruct (missing_flag_differs _ _ _ _ _ k F Hk N) as [V S].
    rewrite <- V.
    exact (flagMismatches_reports "Privacy" privacy_flags
             (member_opt "privacy" sourceData) (JObj o) k Hk S).
  - apply in_or_app. right. apply in_or_app. right. apply in_or_app. left.
    unfold stored in Hpc. rewrite T in Hpc. destruct Hpc as (x & Hx & G).
    destruct (reconstructParentalControl_holds _ _ Hx) as (o & -> & F).
    assert (D : member_opt "parentalControl" (JObj payload) = JObj o)
      by (rewrite stored_member; now rewrite G).
    unfold verifyParentalControl in Vc. cbv zeta in Vc. rewrite !D, T in Vc.
    cbn [truthy andb] in Vc.
    destruct (activeMapMismatch _ _ _) as [srv|]; cbn [bind_result] in Vc;
      [|discriminate].
    destruct (activeMapMismatch _ _ _) as [cat|]; cbn [bind_result] in Vc;
      [|discriminate].
    injection Vc as <-. apply in_or_app. left.
    destruct (missing_flag_differs _ _ _ _ _ k F Hk N) as [V S].
    rewrite <- V.
    exact (flagMismatches_reports "Parental Control" parental_flags
             (member_opt "parentalControl" sourceData) (JObj o) k Hk S).
Qed.

(** A source without the flag csam: the copy is reported to differ. *)
Lemma missing_flag_reported_witness :
  exists payload mismatches,
    reconstructPayload flagless_profile = Ok payload
    /\ compareClone
         {| f_profile := flagless_profile; f_rewrites := JArr [] |}
         {| f_profile := JObj payload; f_rewrites := JArr [] |}
       = Ok mismatches
    /\ In "Security 'csam': Source=undefined, Dest=true" mismatches.
Proof.
  destruct (reconstructPayload flagless_profile) as [payload|] eqn:E;
    [|discriminate E].
  destruct (compareClone
              {| f_profile := flagless_profile; f_rewrites := JArr [] |}
              {| f_profile := JObj payload; f_rewrites := JArr [] |})
    as [mismatches|] eqn:C.
  - exists payload, mismatches. split; [reflexivity|]. split; [exact C|].
    apply (missing_flag_reported flagless_profile payload (JArr []) (JArr [])
             mismatches "security" "Security" security_flags true "csam").
    + simpl. now left.
    + exact E.
    + reflexivity.
    + simpl. tauto.
    + reflexivity.
    + exact C.
  - vm_compute in E. injection E as <-. vm_compute in C. discriminate C.
Defined.

(* ------------------------------------------------------------------ *)
(** ** The steps of a copy                                             *)
(* ------------------------------------------------------------------ *)

(** A refused copy writes nothing.  When the fetched source raises schema
    warnings and [force] is not set, [copyProfile] returns a failure that
    carries the warnings, with no new profile, and the world is as the one
    call of [getProfile] left it: no profile is created, no rewrite copied.
    The callbacks hear the fetch, the warnings and the refusal. *)
Theorem copyProfile_refusal (W : Type) (api : NextDNSApi W)
  (options : CopyProfileOptions) (st : State W) (data : JsVal) (w : W)
  (warnings : list string) :
  api_getProfile api (sourceProfileId options) (sourceApiKey options)
    (world st) = (Ok data, w) ->
  is_nullish data = false ->
  validateApiSchema data = Ok warnings ->
  warnings <> [] ->
  force options = false ->
  copyProfile api options st
  = (Ok {| cr_success := false; newProfileId := None;
           verificationMismatches := []; skippedFields := [];
           schemaWarnings := warnings |},
     {| world := w; log := log st ++ refusal_log data warnings |}).
Proof.
  intros G N V Wn F.
  unfold copyProfile, fetchSource.
  unfold bind at 1. unfold bind at 1. unfold emit at 1.
  unfold try_catch at 1. unfold bind at 1. unfold await at 1.
  cbn [world log]. rewrite G.
  unfold bind at 1. unfold lift at 1. rewrite (member_defined "name" data N).
  unfold bind at 1. unfold emit at 1. cbn [world log]. unfold ret at 1.
  unfold bind at 1. unfold lift at 1. rewrite V.
  destruct warnings as [|x r]; [congruence|].
  unfold bind at 1. unfold bind at 1. unfold emit at 1. cbn [world log].
  rewrite F. cbn [negb]. unfold bind at 1. unfold emit at 1.
  cbn [world log]. unfold ret.
  unfold refusal_log. rewrite <- !app_assoc. reflexivity.
Qed.

(** The drifted profile served to a copy without [force]: one call. *)
Lemma copyProfile_refusal_witness :
  snd (copyProfile drifted copy_options (start 0))
  = {| world := 1;
       log := refusal_log drifted_profile
                ["Unknown field(s) at 'security': newThreatProtection"] |}.
Proof.
  rewrite (copyProfile_refusal nat drifted copy_options (start 0)
             drifted_profile 1
             ["Unknown field(s) at 'security': newThreatProtection"]);
    try reflexivity.
  discriminate.
Defined.

(** When the rewrites of the source cannot be read, or there is none,
    [copyRewrites] writes nothing: the world is as the one call of
    [getRewrites] left it.  A failure whose message contains 404 counts as
    success (the endpoint is not supported), any other failure is reported
    with its message, and an absent or empty list is a success. *)
Theorem copyRewrites_nothing_sent (W : Type) (api : NextDNSApi W)
  (srcKey dstKey srcId : string) (destId : JsVal) (st : State W) :
  (forall e w,
      api_getRewrites api srcId srcKey (world st) = (Throw e, w) ->
      copyRewrites api srcKey dstKey srcId destId st
      = (Ok {| sr_success := includes "404" e;
               sr_message :=
                 if includes "404" e
                 then "Rewrites endpoint not found or not supported"
                 else "Could not fetch rewrites: " ++ e |},
         {| world := w; log := log st |}))
  /\ (forall rewrites w,
        api_getRewrites api srcId srcKey (world st) = (Ok rewrites, w) ->
        truthy rewrites = false \/ rewrites = JArr [] ->
        copyRewrites api srcKey dstKey srcId destId st
        = (Ok {| sr_success := true;
                 sr_message := "No rewrites found to copy" |},
           {| world := w; log := log st |})).
Proof.
  split.
  - intros e w G. unfold copyRewrites, fetchRewrites.
    unfold bind at 1. unfold try_catch at 1. unfold bind at 1.
    unfold await at 1. rewrite G.
    destruct (includes "404" e); reflexivity.
  - intros rewrites w G E. unfold copyRewrites, fetchRewrites.
    unfold bind at 1. unfold try_catch at 1. unfold bind at 1.
    unfold await at 1. rewrite G. unfold ret at 1.
    destruct E as [E | ->]; [rewrite E|]; reflexivity.
Qed.

Lemma copyRewrites_nothing_sent_witness :
  copyRewrites noRewrites "src-key" "dst-key" "abc123" (JStr "new123")
    (start 0)
  = (Ok {| sr_success := true;
           sr_message := "Rewrites endpoint not found or not supported" |},
     {| world := 1; log := [] |}).
Proof.
  apply (proj1 (copyRewrites_nothing_sent nat noRewrites "src-key" "dst-key"
                  "abc123" (JStr "new123") (start 0)) "HTTP 404" 1).
  reflexivity.
Defined.

Section RewriteFallback.
Variable W : Type.
Variable api : NextDNSApi W.
Variable destId dstKey : string.

Lemma forEach_addRewrite_counts clean : forall count st,
  exists n st',
    forEach
      (fun count rewrite =>
         try_catch
           (await (api_addRewrite api destId rewrite dstKey) ;;; ret (S count))
           (fun _ => ret count))
      clean count st
    = (Ok n, st')
    /\ count <= n <= count + List.length clean
    /\ (posts_all api destId dstKey -> n = count + List.length clean)
    /\ (posts_none api destId dstKey -> n = count).
Proof.
  induction clean as [|r rs IH]; intros count st; simpl.
  - exists count, st. unfold ret. repeat split; lia.
  - unfold bind at 1. unfold try_catch, bind, await, ret.
    destruct (api_addRewrite api destId r dstKey (world st)) as [[u|e] w]
      eqn:A.
    + destruct (IH (S count) {| world := w; log := log st |})
        as (n & st' & E & B & Hall & Hnone).
      exists n, st'. split; [exact E|]. split; [lia|]. split.
      * intros P. rewrite (Hall P). lia.
      * intros P. destruct (P r (world st)) as (e & w' & C). congruence.
    + destruct (IH count {| world := w; log := log st |})
        as (n & st' & E & B & Hall & Hnone).
      exists n, st'. split; [exact E|]. split; [lia|]. split.
      * intros P. destruct (P r (world st)) as (w' & C). congruence.
      * intros P. exact (Hnone P).
Qed.

End RewriteFallback.

Lemma cleanRewrites_length items clean :
  cleanRewrites items = Ok clean -> List.length clean = List.length items.
Proof.
  unfold cleanRewrites. revert clean.
  induction items as [|t r IH]; simpl; intros clean H.
  - now injection H as <-.
  - destruct (member "name" t); simpl in H; [|discriminate].
    destruct (member "content" t); simpl in H; [|discriminate].
    destruct (map_result _ r) as [c|]; [|discriminate].
    injection H as <-. simpl. now rewrite (IH c eq_refl).
Qed.

(** Rewrites are sent in bulk first.  When [putRewrites] accepts the
    cleaned list nothing else is sent.  When it fails, each rewrite is
    posted on its own, a failed post is passed over, and the step succeeds
    exactly when at least one post went through: the count reported is at
    most the number of rewrites, it is that number when every post
    succeeds and zero when none does. *)
Theorem copyRewrites_put_then_post (W : Type) (api : NextDNSApi W)
  (srcKey dstKey srcId : string) (destId : JsVal) (st : State W)
  (item : JsVal) (items clean : list JsVal) (w : W) :
  api_getRewrites api srcId srcKey (world st) = (Ok (JArr (item :: items)), w) ->
  cleanRewrites (item :: items) = Ok clean ->
  (forall w',
      api_putRewrites api (to_string destId) (JArr clean) dstKey w
      = (Ok tt, w') ->
      copyRewrites api srcKey dstKey srcId destId st
      = (Ok {| sr_success := true;
               sr_message :=
                 "Copied " ++ string_of_nat (S (List.length items))
                 ++ " rewrites (PUT method)" |},
         {| world := w'; log := log st |}))
  /\ (forall e w',
        api_putRewrites api (to_string destId) (JArr clean) dstKey w
        = (Throw e, w') ->
        exists count st',
          copyRewrites api srcKey dstKey srcId destId st
          = (Ok {| sr_success := (0 <? count)%nat;
                   sr_message :=
                     "Copied " ++ string_of_nat count ++ "/"
                     ++ string_of_nat (S (List.length items))
                     ++ " rewrites (POST method)" |}, st')
          /\ count <= S (List.length items)
          /\ (posts_all api (to_string destId) dstKey ->
              count = S (List.length items))
          /\ (posts_none api (to_string destId) dstKey -> count = 0)).
Proof.
  intros G C.
  assert (start_of :
            copyRewrites api srcKey dstKey srcId destId st
            = try_catch
                (await (api_putRewrites api (to_string destId) (JArr clean)
                          dstKey) ;;;
                 ret {| sr_success := true;
                        sr_message :=
                          "Copied "
                          ++ to_string (js_length (JArr (item :: items)))
                          ++ " rewrites (PUT method)" |})
                (fun _ =>
                   count <-
                     forEach
                       (fun count rewrite =>
                          try_catch
                            (await (api_addRewrite api (to_string destId)
                                      rewrite dstKey) ;;;
                             ret (S count))
                            (fun _ => ret count))
                       clean 0 ;;
                   ret {| sr_success := (0 <? count)%nat;
                          sr_message :=
                            "Copied " ++ string_of_nat count ++ "/"
                            ++ to_string (js_length (JArr (item :: items)))
                            ++ " rewrites (POST method)" |})
                {| world := w; log := log st |}).
  { unfold copyRewrites, fetchRewrites.
    unfold bind at 1. unfold try_catch at 1. unfold bind at 1.
    unfold await at 1. rewrite G. unfold ret at 1.
    cbn [truthy negb orb js_length strict_eq List.length].
    replace (Z.of_nat (S (List.length items)) =? 0)%Z with false
      by (symmetry; apply Z.eqb_neq; lia).
    unfold bind at 1. unfold lift at 1. cbn [as_array].
    unfold bind at 1. unfold lift at 1. rewrite C. reflexivity. }
  rewrite start_of. split.
  - intros w' P. unfold try_catch, bind, await, ret. cbn [world log].
    rewrite P. reflexivity.
  - intros e w' P.
    destruct (forEach_addRewrite_counts W api (to_string destId) dstKey clean
                0 {| world := w'; log := log st |})
      as (n & st' & E & B & Hall & Hnone).
    rewrite (cleanRewrites_length _ _ C) in B, Hall. cbn [List.length] in *.
    exists n, st'. split; [|split; [lia|split; [exact Hall | exact Hnone]]].
    unfold try_catch at 1. unfold bind at 1. unfold await at 1.
    cbn [world log]. rewrite P. unfold bind at 1. rewrite E. reflexivity.
Qed.

(** The bulk update refused, the one rewrite posted on its own. *)
Lemma copyRewrites_put_then_post_witness :
  fst (copyRewrites putRefused "src-key" "dst-key" "abc123" (JStr "new123")
         (start 0))
  = Ok {| sr_success := true;
          sr_message := "Copied 1/1 rewrites (POST method)" |}.
Proof.
  destruct (cleanRewrites sample_rewrite_items) as [clean|] eqn:C;
    [|discriminate C].
  destruct (proj2 (copyRewrites_put_then_post nat putRefused "src-key"
                     "dst-key" "abc123" (JStr "new123") (start 0)
                     (JObj [ ("id", JStr "r1"); ("name", JStr "nas.home");
                             ("content", JStr "192.0.2.10");
                             ("type", JStr "A") ])
                     [] clean 1 eq_refl C)
              "HTTP 405" 2 eq_refl)
    as (count & st' & E & _ & Hall & _).
  rewrite E. cbn [fst].
  rewrite Hall; [reflexivity|].
  intros rewrite w. exists (S w). reflexivity.
Defined.

(* ------------------------------------------------------------------ *)
(** ** The rows and tables of a diff                                   *)
(* ------------------------------------------------------------------ *)

Lemma add_string_In s x y : In y (add_string s x) <-> In y s \/ y = x.
Proof.
  unfold add_string. destruct (existsb (String.eqb x) s) eqn:E.
  - split; [now left|]. intros [H | ->]; [exact H|].
    apply existsb_exists in E as (z & Hz & Ez).
    apply String.eqb_eq in Ez. now subst.
  - rewrite in_app_iff. simpl. intuition congruence.
Qed.

Lemma add_string_NoDup s x : NoDup s -> NoDup (add_string s x).
Proof.
  intros N. unfold add_string. destruct (existsb (String.eqb x) s) eqn:E;
    [exact N|].
  apply NoDup_app; [exact N | repeat constructor; intros [] |].
  intros y Hy [Exy|[]]. subst y.
  assert (X : existsb (String.eqb x) s = true).
  { apply existsb_exists. exists x. split; [exact Hy | apply String.eqb_refl]. }
  congruence.
Qed.

Lemma fold_add_string xs : forall s,
  (forall y, In y (fold_left add_string xs s) <-> In y s \/ In y xs)
  /\ (NoDup s -> NoDup (fold_left add_string xs s)).
Proof.
  induction xs as [|x r IH]; simpl; intros s.
  - split; [intros y; tauto | tauto].
  - destruct (IH (add_string s x)) as [I N]. split.
    + intros y. rewrite I, add_string_In. intuition congruence.
    + intros H. apply N. now apply add_string_NoDup.
Qed.

Lemma allDomains_flat allData lt :
  allDomains_of allData lt
  = fold_left add_string
      (flat_map (fun pdata => JsObject.keys (diff_list_of lt pdata))
         (JsObject.values allData)) [].
Proof.
  unfold allDomains_of.
  apply (SyncFacts.fold_left_nested _ _ _ add_string
           (fun pdata => JsObject.keys (diff_list_of lt pdata))).
Qed.

Lemma allDomains_In allData lt dom :
  In dom (allDomains_of allData lt)
  <-> exists e, In e allData
                /\ In dom (JsObject.keys (diff_list_of lt (snd e))).
Proof.
  rewrite allDomains_flat.
  rewrite (proj1 (fold_add_string _ []) dom). rewrite in_flat_map.
  unfold JsObject.values. split.
  - intros [[]|(pdata & Hp & Hd)].
    apply in_map_iff in Hp as (e & <- & He). eauto.
  - intros (e & He & Hd). right. exists (snd e). split; [|exact Hd].
    now apply in_map.
Qed.

Lemma allDomains_NoDup allData lt : NoDup (allDomains_of allData lt).
Proof.
  rewrite allDomains_flat. apply (proj2 (fold_add_string _ [])). constructor.
Qed.

Lemma row_domains_sorted allData lt :
  row_domains (compareDenylistAllowlist allData lt)
  = sort_strings (allDomains_of allData lt).
Proof.
  unfold row_domains, compareDenylistAllowlist.
  destruct (allDomains_of allData lt) as [|d ds]; [reflexivity|].
  rewrite map_map. cbn [domainRow label to_string]. apply map_id.
Qed.

Lemma cells_object_has (cells : list (string * string)) k :
  In k (map fst cells) -> JsObject.has k (cells_object cells) = true.
Proof.
  unfold cells_object. intros H.
  assert (G : forall (o : JsObj string),
             JsObject.has k o = true \/ In k (map fst cells) ->
             JsObject.has k
               (fold_left (fun o c => JsObject.set (fst c) (snd c) o) cells o)
             = true).
  { clear H. induction cells as [|c r IH]; simpl; intros o [H|H];
      try exact H; try contradiction.
    - apply IH. left. unfold JsObject.has in *.
      rewrite JsObjectFacts.get_set.
      destruct (String.eqb k (fst c)); [reflexivity | exact H].
    - destruct H as [<-|H].
      + apply IH. left. unfold JsObject.has.
        now rewrite JsObjectFacts.get_set, String.eqb_refl.
      + apply IH. now right. }
  apply G. now right.
Qed.

(** The rows of a list comparison: one row for each domain held by the
    list of at least one profile, each domain once, the rows in the order of
    the domain names; and every row has a cell for every profile. *)
Theorem list_rows_cover (allData : JsObj ProfileDiffData) (lt : ListType) :
  (forall dom,
      In dom (row_domains (compareDenylistAllowlist allData lt))
      <-> exists e, In e allData
                    /\ In dom (JsObject.keys (diff_list_of lt (snd e))))
  /\ NoDup (row_domains (compareDenylistAllowlist allData lt))
  /\ StronglySorted (fun a b => String.leb a b = true)
       (row_domains (compareDenylistAllowlist allData lt))
  /\ (forall row e,
        In row (compareDenylistAllowlist allData lt) -> In e allData ->
        JsObject.has (fst e) (row_values row) = true).
Proof.
  rewrite row_domains_sorted. split; [|split; [|split]].
  - intros dom. rewrite <- allDomains_In. split; intros H.
    + exact (Permutation_in _ (StringOrder.sort_perm _) H).
    + exact (Permutation_in _ (Permutation_sym (StringOrder.sort_perm _)) H).
  - apply (Permutation_NoDup (Permutation_sym (StringOrder.sort_perm _))).
    apply allDomains_NoDup.
  - apply StringOrder.sort_sorted.
  - intros row e Hrow He. unfold compareDenylistAllowlist in Hrow.
    destruct (allDomains_of allData lt) as [|d ds]; [destruct Hrow|].
    apply in_map_iff in Hrow as (dom & <- & _).
    unfold domainRow, JsObject.entries. cbn [row_values].
    apply cells_object_has. rewrite !map_map. cbn [fst].
    now apply in_map.
Qed.

Lemma same_state_permutation allData allData' lt dom :
  Permutation allData allData' ->
  same_state allData lt dom -> same_state allData' lt dom.
Proof.
  intros P [N S]. split.
  - intros e He. apply N. exact (Permutation_in _ (Permutation_sym P) He).
  - intros e1 e2 H1 H2.
    apply S; [exact (Permutation_in _ (Permutation_sym P) H1)
             | exact (Permutation_in _ (Permutation_sym P) H2)].
Qed.

Lemma domainRow_flag_permutation allData allData' lt dom :
  Permutation allData allData' ->
  hasDiff (domainRow allData lt dom) = hasDiff (domainRow allData' lt dom).
Proof.
  intros P.
  pose proof (domainRow_hasDiff allData lt dom) as A.
  pose proof (domainRow_hasDiff allData' lt dom) as B.
  fold (same_state allData lt dom) in A.
  fold (same_state allData' lt dom) in B.
  destruct (hasDiff (domainRow allData lt dom)),
           (hasDiff (domainRow allData' lt dom)); try reflexivity.
  - assert (X : true = false); [|discriminate X].
    apply A. apply (same_state_permutation _ _ _ _ (Permutation_sym P)).
    now apply B.
  - assert (X : true = false); [|discriminate X].
    apply B. apply (same_state_permutation _ _ _ _ P). now apply A.
Qed.

Lemma allDomains_permutation allData allData' lt :
  Permutation allData allData' ->
  Permutation (allDomains_of allData lt) (allDomains_of allData' lt).
Proof.
  intros P. apply NoDup_Permutation; try apply allDomains_NoDup.
  intros dom. rewrite !allDomains_In. split; intros (e & He & Hd);
    exists e; split; try exact Hd.
  - exact (Permutation_in _ P He).
  - exact (Permutation_in _ (Permutation_sym P) He).
Qed.

(** The rows of a list comparison do not depend on the order in which the
    profiles come, nor on the order of the domains in their lists: the same
    profiles in another order give rows with the same labels and the same
    [hasDiff] flags, in the same order. *)
Theorem list_rows_order_independent (allData allData' : JsObj ProfileDiffData)
  (lt : ListType) :
  Permutation allData allData' ->
  map label (compareDenylistAllowlist allData lt)
  = map label (compareDenylistAllowlist allData' lt)
  /\ map hasDiff (compareDenylistAllowlist allData lt)
     = map hasDiff (compareDenylistAllowlist allData' lt).
Proof.
  intros P.
  assert (R : forall d,
             compareDenylistAllowlist d lt
             = map (domainRow d lt) (sort_strings (allDomains_of d lt))).
  { intros d. unfold compareDenylistAllowlist.
    now destruct (allDomains_of d lt). }
  rewrite !R, !map_map. cbn [label].
  rewrite (StringOrder.sort_permutation _ _
             (allDomains_permutation _ _ lt P)).
  split; [reflexivity|].
  apply map_ext. intros dom. now apply domainRow_flag_permutation.
Qed.

Lemma list_rows_order_independent_witness :
  map hasDiff (compareDenylistAllowlist two_lists denylist)
  = map hasDiff (compareDenylistAllowlist two_lists_swapped denylist).
Proof.
  apply (list_rows_order_independent two_lists two_lists_swapped denylist).
  apply perm_swap.
Defined.

Lemma filter_filter_same (A : Type) (p : A -> bool) l :
  filter p (filter p l) = filter p l.
Proof.
  induction l as [|x r IH]; simpl; [reflexivity|].
  destruct (p x) eqn:E; simpl; [rewrite E, IH|]; auto.
Qed.

Lemma forallb_filter_same (A : Type) (p : A -> bool) l :
  forallb p (filter p l) = true.
Proof.
  apply forallb_forall. intros x Hx. now apply filter_In in Hx.
Qed.

Lemma createTable_ok section diffOnly ttl rws lgd t :
  createTable diffOnly ttl rws lgd = Some t ->
  section_is section (table_section ttl) = true ->
  table_ok section diffOnly t.
Proof.
  unfold createTable, table_ok. intros H S.
  destruct (if diffOnly then filter hasDiff rws else rws) as [|r0 rs] eqn:D;
    [discriminate|].
  injection H as <-. cbn [rows diffCount title].
  split; [discriminate|]. split; [|split; [|exact S]].
  - rewrite <- D. destruct diffOnly; [now rewrite filter_filter_same | auto].
  - intros ->. rewrite <- D. apply forallb_filter_same.
Qed.

Lemma push_table_ok (P : DiffTable -> Prop) tbls table :
  Forall P tbls ->
  (forall t, table = Some t -> P t) ->
  Forall P (push_table tbls table).
Proof.
  intros F H. unfold push_table. destruct table as [t|]; [|exact F].
  apply Forall_app. split; [exact F|]. constructor; [now apply H | constructor].
Qed.

Ltac table_step :=
  apply push_table_ok;
  [| intros ? ?; eapply createTable_ok; [eassumption | assumption]].

(** Every table [generateDiffTables] returns belongs to the requested
    section, has at least one row, and counts as [diffCount] the rows it
    shows that differ; in diff-only mode a table shows only rows that
    differ, so a comparison without a difference yields no table there. *)
Theorem generateDiffTables_tables (allData : JsObj ProfileDiffData)
  (section : DiffSection) (diffOnly : bool) (tbls : list DiffTable) :
  generateDiffTables allData section diffOnly = Ok tbls ->
  Forall (table_ok section diffOnly) tbls.
Proof.
  unfold generateDiffTables. cbv zeta. intros H.
  assert (F : Forall (table_ok section diffOnly) []) by constructor.
  revert F H. generalize (@nil DiffTable).
  do 4 (let acc := fresh "acc" in
        let F := fresh "F" in
        let H := fresh "H" in
        intros acc F H;
        match type of H with
        | bind_result (if ?test then _ else _) _ = _ => destruct test eqn:?
        end;
        [ match type of H with
          | bind_result (bind_result ?c _) _ = _ =>
              destruct c; cbn [bind_result] in H; [|discriminate H]
          end
        | cbn [bind_result] in H ];
        (match type of H with
         | bind_result (if _ then _ else Ok ?next) _ = _ =>
             assert (Forall (table_ok section diffOnly) next)
               by (repeat table_step; exact F);
             clear F; revert H; generalize dependent next
         | (if _ then _ else Ok ?next) = _ =>
             assert (Forall (table_ok section diffOnly) next)
               by (repeat table_step; exact F);
             clear F; revert H; generalize dependent next
         end)).
  all: intros last Flast Hlast;
    destruct (section_is section ds_lists) eqn:?;
    injection Hlast as <-; repeat table_step; exact Flast.
Qed.

(** Two profiles with different deny lists, in diff-only mode: one table. *)
Lemma generateDiffTables_tables_witness :
  exists tbls,
    generateDiffTables two_lists ds_lists true = Ok tbls
    /\ map title tbls = ["Denylist"]
    /\ Forall (table_ok ds_lists true) tbls.
Proof.
  destruct (generateDiffTables two_lists ds_lists true) as [tbls|] eqn:E;
    [|discriminate E].
  exists tbls. split; [reflexivity|]. split.
  - vm_compute in E. injection E as <-. reflexivity.
  - exact (generateDiffTables_tables two_lists ds_lists true tbls E).
Defined.
